(** * Cookie-Manage: the categorisation engine, the consent logger and the
    consent-gated script activation of the CMP front end.

    The PHP classes [CookieDatabase] and [ConsentLogger] and the JavaScript
    object [CMP] are embedded as functions over explicit states: the file
    store and the clock for PHP, the DOM script nodes, [localStorage] and the
    trace of observable effects for JavaScript. *)

From Stdlib Require Import ZArith Ascii String List Bool Lia Sorted.
From stdpp Require Import gmap strings list fin_maps.
Import ListNotations.

Local Open Scope string_scope.

(** ** PHP string primitives used by the two classes *)

Module PHP.

(** [strtolower] (PHP 8: bytes [A]..[Z] only, independent of the locale). *)
Definition lower_ascii (c : ascii) : ascii :=
  let n := nat_of_ascii c in
  if (65 <=? n)%nat && (n <=? 90)%nat then ascii_of_nat (n + 32) else c.

Fixpoint strtolower (s : string) : string :=
  match s with
  | EmptyString => EmptyString
  | String c r => String (lower_ascii c) (strtolower r)
  end.

(** [empty($s)] on a string: the empty string and ["0"] are both empty;
    a string used as a condition is true exactly when it is not empty. *)
Definition empty (s : string) : bool :=
  String.eqb s "" || String.eqb s "0".

Definition truthy (s : string) : bool := negb (empty s).

(** [strlen] counts bytes; a Rocq [string] is a list of bytes. *)
Definition strlen (s : string) : nat := String.length s.

(** [substr($s, -$n)] for [n >= 0]: the last [n] bytes of [s]; the whole
    string when [n] is 0 (offset [-0] is offset 0) or exceeds the length. *)
Definition substr_neg (s : string) (n : nat) : string :=
  if (n =? 0)%nat then s
  else String.substring (strlen s - n) n s.

(** [strpos($s, '.') === 0]: the first byte of [s] is a dot. *)
Definition starts_with_dot (s : string) : bool :=
  match s with
  | String c _ => Ascii.eqb c "."
  | EmptyString => false
  end.

(** [preg_quote($str, $delim)]: a backslash before each character of
    the regular expression syntax and before the delimiter; NUL becomes
    the four bytes [\000]. *)
Definition preg_special (c : ascii) : bool :=
  existsb (Ascii.eqb c)
    ["."; "\"; "+"; "*"; "?"; "["; "^"; "]"; "$"; "("; ")"; "{"; "}";
     "="; "!"; "<"; ">"; "|"; ":"; "-"; "#"]%char.

Fixpoint preg_quote (s : string) (delim : ascii) : string :=
  match s with
  | EmptyString => EmptyString
  | String c r =>
      if Ascii.eqb c zero then "\000" ++ preg_quote r delim
      else if preg_special c || Ascii.eqb c delim
           then String "\" (String c (preg_quote r delim))
           else String c (preg_quote r delim)
  end.

(** [str_replace($search, $replace, $s)] for a one-byte [$search]. *)
Fixpoint str_replace1 (search : ascii) (replace : string) (s : string) : string :=
  match s with
  | EmptyString => EmptyString
  | String c r =>
      if Ascii.eqb c search then replace ++ str_replace1 search replace r
      else String c (str_replace1 search replace r)
  end.

(** [str_replace] with arrays replaces pair after pair, each on the result
    of the previous one. *)
Fixpoint str_replace (pairs : list (ascii * string)) (s : string) : string :=
  match pairs with
  | [] => s
  | (a, r) :: rest => str_replace rest (str_replace1 a r s)
  end.


End PHP.

(** ** The fragment of PCRE that [wildcardMatch] can build

    The pattern handed to [preg_match] is [/^ ... $/] without modifiers.
    Between the anchors [wildcardMatch] only ever produces ordinary
    characters, backslash escapes and the quantifier [*]. *)

Module Regex.

(** One item: a literal byte, possibly under a star. *)
Record item := Item { item_char : ascii; item_star : bool }.

Definition is_octal (c : ascii) : bool :=
  let n := nat_of_ascii c in (48 <=? n)%nat && (n <=? 55)%nat.

Definition is_alnum (c : ascii) : bool :=
  let n := nat_of_ascii c in
  ((48 <=? n)%nat && (n <=? 57)%nat) ||
  ((65 <=? n)%nat && (n <=? 90)%nat) ||
  ((97 <=? n)%nat && (n <=? 122)%nat).

(** Characters with a meaning of their own outside a character class. *)
Definition is_meta (c : ascii) : bool :=
  existsb (Ascii.eqb c)
    ["\"; "^"; "$"; "."; "["; "|"; "("; ")"; "?"; "*"; "+"; "{"]%char.

Definition octal_val (c : ascii) : nat := nat_of_ascii c - 48.

(** Reads one atom from the front of the pattern: an ordinary byte, a
    backslash followed by a non-alphanumeric byte (that byte, literally),
    or [\0] followed by up to two more octal digits.  Anything else (a
    bare metacharacter, a letter escape) is outside the fragment. *)
Definition atom (s : string) : option (ascii * string) :=
  match s with
  | EmptyString => None
  | String "\" (String "0" r) =>
      match r with
      | String d1 (String d2 r') =>
          if is_octal d1 && is_octal d2
          then Some (ascii_of_nat (octal_val d1 * 8 + octal_val d2), r')
          else if is_octal d1 then Some (ascii_of_nat (octal_val d1), String d2 r')
          else Some (zero, r)
      | String d1 EmptyString =>
          if is_octal d1 then Some (ascii_of_nat (octal_val d1), EmptyString)
          else Some (zero, r)
      | EmptyString => Some (zero, r)
      end
  | String "\" (String c r) => if is_alnum c then None else Some (c, r)
  | String "\" EmptyString => None
  | String c r => if is_meta c then None else Some (c, r)
  end.

(** A star right after an atom is its quantifier. *)
Definition split_star (s : string) : bool * string :=
  match s with
  | String "*" r => (true, r)
  | _ => (false, s)
  end.

(** Compiles the text between [^] and [$]; [fuel] bounds the number of
    atoms, the length of the text is always enough. *)
Fixpoint compile_fuel (fuel : nat) (s : string) : option (list item) :=
  match fuel with
  | O => match s with EmptyString => Some [] | _ => None end
  | S fuel' =>
      match s with
      | EmptyString => Some []
      | _ =>
          match atom s with
          | None => None
          | Some (c, r) =>
              let (star, r') := split_star r in
              option_map (cons (Item c star)) (compile_fuel fuel' r')
          end
      end
  end.

Definition compile (s : string) : option (list item) :=
  compile_fuel (String.length s) s.

(** Backtracking match of the items against the whole subject, up to the
    closing [$]: without the [D] modifier, [$] also matches just before a
    newline that ends the subject. *)
Definition at_dollar (s : string) : bool :=
  String.eqb s "" || String.eqb s (String (ascii_of_nat 10) "").

Fixpoint star_then (c : ascii) (k : string -> bool) (s : string) : bool :=
  k s ||
  match s with
  | String c' r => Ascii.eqb c' c && star_then c k r
  | EmptyString => false
  end.

Fixpoint match_items (r : list item) (s : string) : bool :=
  match r with
  | [] => at_dollar s
  | Item c false :: r' =>
      match s with
      | String c' s' => Ascii.eqb c' c && match_items r' s'
      | EmptyString => false
      end
  | Item c true :: r' => star_then c (match_items r') s
  end.

(** [preg_match('/^' . body . '$/', $subject) === 1]; a pattern that does
    not compile makes [preg_match] return [false]. *)
Definition preg_match_anchored (body subject : string) : bool :=
  match compile body with
  | Some r => match_items r subject
  | None => false
  end.

End Regex.

(** ** CookieDatabase (PHP) *)

Module CookieDatabase.
Import PHP.

(** *** Data *)

(** A normalised row of the Open Cookie Database (the array built in
    [updateDatabase]). *)
Record Cookie := {
  ck_id : string;
  ck_platform : string;
  ck_category : string;
  ck_name : string;
  ck_domain : string;
  ck_description : string;
  ck_retention : string;
  ck_dataController : string;
  ck_privacyPortal : string;
  ck_isWildcard : bool
}.

Record Wildcard := { pattern : string; index : nat }.

Record Indexes := {
  byName : gmap string (list nat);
  byDomain : gmap string (list nat);
  wildcards : list Wildcard
}.

Record Stats := { total : nat; byCategory : gmap string nat }.

(** The cache document [cookies/database.json].  [lastUpdated] is the
    clock reading that [date('c')] printed; [None] stands for a missing
    key or a text that [strtotime] cannot read. *)
Record Database := {
  version : string;
  lastUpdated : option Z;
  source : string;
  stats : Stats;
  cookies : list Cookie;
  indexes : Indexes
}.

(** One entry of [cookies/overrides.json]. *)
Record Override := {
  ov_name : string;
  ov_domain : string;
  ov_category : string;
  ov_reason : string;
  ov_timestamp : Z
}.

Record OverridesData := {
  ovd_version : string;
  overrides : gmap string Override;
  lastModified : option Z
}.

(** *** The file store, the network and the clock *)

Inductive Exn := Exception (msg : string).

(** A file of the store: absent, present but unreadable (open or lock
    failure, invalid JSON), or present with decoded content. *)
Inductive File (A : Type) := Missing | Unreadable | Content (a : A).
Arguments Missing {A}.
Arguments Unreadable {A}.
Arguments Content {A} a.

Record World := {
  cacheFile : File Database;          (* cookies/database.json *)
  overridesFile : File OverridesData; (* cookies/overrides.json *)
  csv : option string;                (* file_get_contents($csvUrl); None is false *)
  writable : bool;                    (* whether FileStorage::write succeeds *)
  clock : Z                           (* time() *)
}.

Definition storage_exists {A} (f : File A) : bool :=
  match f with Missing => false | _ => true end.

Definition storage_read {A} (path : string) (f : File A) : Exn + A :=
  match f with
  | Missing => inl (Exception ("File not found: " ++ path))
  | Unreadable => inl (Exception ("Invalid JSON in file: " ++ path))
  | Content a => inr a
  end.

Definition csvUrl : string :=
  "https://raw.githubusercontent.com/jkwakman/Open-Cookie-Database/refs/heads/master/open-cookie-database.csv".

Definition week : Z := 7 * 24 * 60 * 60.

(** *** Index construction *)

Definition push_index (m : gmap string (list nat)) (k : string) (i : nat)
  : gmap string (list nat) :=
  <[k := (default [] (m !! k) ++ [i])%list]> m.

Definition index_cookie (ix : Indexes) (i : nat) (cookie : Cookie) : Indexes :=
  let name := strtolower (ck_name cookie) in
  let domain := strtolower (ck_domain cookie) in
  let ix1 :=
    if ck_isWildcard cookie
    then {| byName := byName ix; byDomain := byDomain ix;
            wildcards := (wildcards ix ++ [{| pattern := name; index := i |}])%list |}
    else {| byName := push_index (byName ix) name i; byDomain := byDomain ix;
            wildcards := wildcards ix |} in
  if negb (empty domain)
  then {| byName := byName ix1; byDomain := push_index (byDomain ix1) domain i;
          wildcards := wildcards ix1 |}
  else ix1.

Fixpoint buildIndexes_from (i : nat) (cs : list Cookie) (ix : Indexes) : Indexes :=
  match cs with
  | [] => ix
  | c :: rest => buildIndexes_from (S i) rest (index_cookie ix i c)
  end.

Definition buildIndexes (cs : list Cookie) : Indexes :=
  buildIndexes_from 0 cs {| byName := ∅; byDomain := ∅; wildcards := [] |}.

Definition count_category (m : gmap string nat) (c : Cookie) : gmap string nat :=
  <[ck_category c := S (default 0 (m !! ck_category c))]> m.

Definition build_stats (cs : list Cookie) : Stats :=
  {| total := length cs; byCategory := fold_left count_category cs ∅ |}.

(** *** Matching primitives *)

Definition wildcardMatch (name pattern : string) : bool :=
  let pattern := strtolower pattern in
  let name := strtolower name in
  let body :=
    str_replace [("*"%char, ".*"); ("?"%char, ".")] (preg_quote pattern "/") in
  Regex.preg_match_anchored body name.

Definition domainMatches (domain pattern : string) : bool :=
  let domain := strtolower domain in
  let pattern := strtolower pattern in
  if String.eqb domain pattern then true
  else if starts_with_dot pattern
       then String.eqb (substr_neg domain (strlen pattern)) pattern
       else String.eqb (substr_neg domain (strlen pattern + 1)) ("." ++ pattern).

(** What [wildcardMatch] makes of one pattern byte: [preg_quote] puts a
    backslash before [*] and [?], so the replacement yields the escaped dot
    [\.] followed by a star for [*], and the escaped dot alone for [?]. *)
Definition quoted_char (c : ascii) : string :=
  str_replace [("*"%char, ".*"); ("?"%char, ".")] (preg_quote (String c "") "/").

(** The text that [wildcardMatch] puts between [^] and [$]. *)
Definition wildcard_body (p : string) : string :=
  str_replace [("*"%char, ".*"); ("?"%char, ".")] (preg_quote p "/").

Definition wildcard_item (c : ascii) : Regex.item :=
  if Ascii.eqb c "*" then Regex.Item "." true
  else if Ascii.eqb c "?" then Regex.Item "." false
  else Regex.Item c false.

Definition wildcard_items (pattern : string) : list Regex.item :=
  map wildcard_item (list_ascii_of_string (strtolower pattern)).

(** *** Results of [categorize] *)

Inductive Confidence :=
  ConfOverride | ConfExact | ConfWildcard | ConfDomain | ConfNone.

Inductive Matched := MNull | MOverride (o : Override) | MCookie (c : Cookie).

(** [category] is [None] for PHP [null], which a dangling index yields. *)
Record Result := {
  category : option string;
  confidence : Confidence;
  matched : Matched
}.

Definition none_result : Result :=
  {| category := Some "uncategorized"; confidence := ConfNone; matched := MNull |}.

(** [$this->database['cookies'][$idx]]: [None] (PHP null) out of range;
    reading a field of null gives null. *)
Definition cookie_at (db : Database) (idx : nat) : option Cookie :=
  cookies db !! idx.

Definition domain_of (c : option Cookie) : string :=
  match c with Some c => ck_domain c | None => "" end.

Definition cookie_result (conf : Confidence) (c : option Cookie) : Result :=
  {| category := ck_category <$> c;
     confidence := conf;
     matched := match c with Some c => MCookie c | None => MNull end |}.

Definition domain_ok (domain : string) (cookie : option Cookie) : bool :=
  let cookieDomain := strtolower (domain_of cookie) in
  String.eqb cookieDomain domain || domainMatches domain cookieDomain.

(** The [foreach] over the candidates of an exact name: [Some] is the
    [return] taken inside the loop. *)
Fixpoint exact_loop (db : Database) (domain : string) (idxs : list nat)
  : option Result :=
  match idxs with
  | [] => None
  | idx :: rest =>
      let cookie := cookie_at db idx in
      if domain_ok domain cookie
      then Some (cookie_result ConfExact cookie)
      else exact_loop db domain rest
  end.

(** The [foreach] over the wildcard entries, with its [continue]. *)
Fixpoint wildcard_loop (db : Database) (name domain : string)
    (ws : list Wildcard) : option Result :=
  match ws with
  | [] => None
  | w :: rest =>
      if wildcardMatch name (pattern w) then
        let cookie := cookie_at db (index w) in
        if negb (empty domain) && negb (empty (domain_of cookie))
           && negb (domain_ok domain cookie)
        then wildcard_loop db name domain rest
        else Some (cookie_result ConfWildcard cookie)
      else wildcard_loop db name domain rest
  end.

Definition overrideKey (name domain : string) : string :=
  name ++ (if truthy domain then "@" ++ domain else "").

(** [categorize] below the null check (the database is loaded). *)
Definition categorize_in (db : Database) (ovs : gmap string Override)
    (name domain : string) : Result :=
  let name := strtolower name in
  let domain := strtolower domain in
  match ovs !! overrideKey name domain with
  | Some o =>
      {| category := Some (ov_category o); confidence := ConfOverride;
         matched := MOverride o |}
  | None =>
      match byName (indexes db) !! name with
      | Some idxs =>
          match (if negb (empty domain) then exact_loop db domain idxs else None) with
          | Some r => r
          | None => cookie_result ConfExact (head idxs ≫= cookie_at db)
          end
      | None =>
          match wildcard_loop db name domain (wildcards (indexes db)) with
          | Some r => r
          | None =>
              match (if negb (empty domain) then byDomain (indexes db) !! domain
                     else None) with
              | Some idxs => cookie_result ConfDomain (head idxs ≫= cookie_at db)
              | None => none_result
              end
          end
      end
  end.

Definition getOverrides (w : World) : gmap string Override :=
  match storage_read "cookies/overrides.json" (overridesFile w) with
  | inr data => overrides data
  | inl _ => ∅
  end.

Definition set_cache (w : World) (d : Database) : World :=
  {| cacheFile := Content d; overridesFile := overridesFile w; csv := csv w;
     writable := writable w; clock := clock w |}.

Definition set_overrides (w : World) (d : OverridesData) : World :=
  {| cacheFile := cacheFile w; overridesFile := Content d; csv := csv w;
     writable := writable w; clock := clock w |}.

Definition set_clock (t : Z) (w : World) : World :=
  {| cacheFile := cacheFile w; overridesFile := overridesFile w; csv := csv w;
     writable := writable w; clock := t |}.

Section WithParser.

(** The CSV reader of [updateDatabase]: header and rows through
    [str_getcsv], short rows and rows without a name skipped, the
    category normalised.  The claims do not depend on it. *)
Variable parse_csv : string -> list Cookie.

(** An operation returns its outcome, the store afterwards and
    [$this->database] afterwards. *)
Definition updateDatabase (forceRefresh : bool) (w : World)
    (database : option Database) : (Exn + bool) * World * option Database :=
  let fresh :=
    if negb forceRefresh && storage_exists (cacheFile w) then
      match storage_read "cookies/database.json" (cacheFile w) with
      | inr cached =>
          match lastUpdated cached with
          | Some t => (clock w - t <? week)%Z
          | None => false
          end
      | inl _ => false
      end
    else false in
  if fresh then (inr true, w, database)
  else
    match csv w with
    | None =>
        (inl (Exception "Failed to download Open Cookie Database"), w, database)
    | Some text =>
        let cs := parse_csv text in
        let cacheData :=
          {| version := "1.0.0"; lastUpdated := Some (clock w);
             source := csvUrl; stats := build_stats cs; cookies := cs;
             indexes := buildIndexes cs |} in
        if writable w
        then (inr true, set_cache w cacheData, Some cacheData)
        else (inl (Exception "Cannot write to file: cookies/database.json"),
              w, database)
    end.

Definition loadDatabase (w : World) (database : option Database)
  : (Exn + bool) * World * option Database :=
  match database with
  | Some _ => (inr true, w, database)
  | None =>
      if negb (storage_exists (cacheFile w)) then updateDatabase false w database
      else
        match storage_read "cookies/database.json" (cacheFile w) with
        | inr d => (inr true, w, Some d)
        | inl _ => (inr false, w, database)
        end
  end.

Definition categorize (w : World) (database : option Database)
    (name domain : string) : (Exn + Result) * World * option Database :=
  match loadDatabase w database with
  | (inl e, w', database') => (inl e, w', database')
  | (inr _, w', database') =>
      match database' with
      | None => (inr none_result, w', database')
      | Some db => (inr (categorize_in db (getOverrides w') name domain), w', database')
      end
  end.

End WithParser.

Definition addOverride (w : World) (name domain category reason : string)
  : (Exn + bool) * World :=
  let data :=
    match storage_read "cookies/overrides.json" (overridesFile w) with
    | inr d => d
    | inl _ => {| ovd_version := "1.0.0"; overrides := ∅; lastModified := None |}
    end in
  let key := strtolower name ++ (if truthy domain then "@" ++ strtolower domain else "") in
  let entry :=
    {| ov_name := name; ov_domain := domain; ov_category := category;
       ov_reason := reason; ov_timestamp := clock w |} in
  let data' :=
    {| ovd_version := ovd_version data;
       overrides := <[key := entry]> (overrides data);
       lastModified := Some (clock w) |} in
  if writable w then (inr true, set_overrides w data')
  else (inl (Exception "Cannot write to file: cookies/overrides.json"), w).

(** *** The resolution order in the words of the specification *)








(** *** Sample data *)

Definition sample_cookie (name domain category : string) (wild : bool) : Cookie :=
  {| ck_id := ""; ck_platform := ""; ck_category := category; ck_name := name;
     ck_domain := domain; ck_description := ""; ck_retention := "";
     ck_dataController := ""; ck_privacyPortal := ""; ck_isWildcard := wild |}.

Definition database_of (cs : list Cookie) : Database :=
  {| version := "1.0.0"; lastUpdated := Some 0%Z; source := csvUrl;
     stats := build_stats cs; cookies := cs; indexes := buildIndexes cs |}.

(** A corpus whose only record is the wildcard [_ga*]. *)
Definition ga_database : Database :=
  database_of [sample_cookie "_ga*" "" "analytics" true].

(** A corpus with an exact record, a wildcard and a domain. *)
Definition sample_database : Database :=
  database_of
    [sample_cookie "_fbp" ".facebook.com" "marketing" false;
     sample_cookie "_ga*" "" "analytics" true;
     sample_cookie "sid" "example.com" "necessary" false].

Definition sample_world : World :=
  {| cacheFile := Content sample_database; overridesFile := Missing;
     csv := None; writable := true; clock := 1700000000 |}.

(** No cache on disk and the download fails. *)
Definition offline_world : World :=
  {| cacheFile := Missing; overridesFile := Missing; csv := None;
     writable := true; clock := 1700000000 |}.

Definition no_rows : string -> list Cookie := fun _ => [].

(** [sample_world] after [addOverride('_fbp', 'Facebook.com', 'necessary', 'login')]. *)
Definition overridden_world : World :=
  snd (addOverride sample_world "_fbp" "Facebook.com" "necessary" "login").

End CookieDatabase.

(** ** SHA-256 (FIPS 180-4), the digest behind PHP's [hash('sha256', ...)] *)

Module SHA256.
Local Open Scope Z_scope.

Definition mask : Z := 4294967295.
Definition w32 (x : Z) : Z := Z.land x mask.
Definition add32 (x y : Z) : Z := w32 (x + y).
Definition rotr (n x : Z) : Z :=
  Z.lor (Z.shiftr x n) (w32 (Z.shiftl x (32 - n))).
Definition xor3 (a b c : Z) : Z := Z.lxor (Z.lxor a b) c.

Definition choose (x y z : Z) : Z :=
  Z.lxor (Z.land x y) (Z.land (Z.lxor x mask) z).
Definition majority (x y z : Z) : Z :=
  xor3 (Z.land x y) (Z.land x z) (Z.land y z).
Definition big0 (x : Z) : Z := xor3 (rotr 2 x) (rotr 13 x) (rotr 22 x).
Definition big1 (x : Z) : Z := xor3 (rotr 6 x) (rotr 11 x) (rotr 25 x).
Definition small0 (x : Z) : Z := xor3 (rotr 7 x) (rotr 18 x) (Z.shiftr x 3).
Definition small1 (x : Z) : Z := xor3 (rotr 17 x) (rotr 19 x) (Z.shiftr x 10).

Definition round_constants : list Z :=
  [ 1116352408; 1899447441; 3049323471; 3921009573; 961987163; 1508970993;
    2453635748; 2870763221; 3624381080; 310598401; 607225278; 1426881987;
    1925078388; 2162078206; 2614888103; 3248222580; 3835390401; 4022224774;
    264347078; 604807628; 770255983; 1249150122; 1555081692; 1996064986;
    2554220882; 2821834349; 2952996808; 3210313671; 3336571891; 3584528711;
    113926993; 338241895; 666307205; 773529912; 1294757372; 1396182291;
    1695183700; 1986661051; 2177026350; 2456956037; 2730485921; 2820302411;
    3259730800; 3345764771; 3516065817; 3600352804; 4094571909; 275423344;
    430227734; 506948616; 659060556; 883997877; 958139571; 1322822218;
    1537002063; 1747873779; 1955562222; 2024104815; 2227730452; 2361852424;
    2428436474; 2756734187; 3204031479; 3329325298 ].

Definition initial_hash : list Z :=
  [ 1779033703; 3144134277; 1013904242; 2773480762;
    1359893119; 2600822924; 528734635; 1541459225 ].

(** Padding: the byte 128, zero bytes up to 56 modulo 64, then the bit
    length on eight bytes, most significant first. *)
Definition be_bytes (count : nat) (x : Z) : list Z :=
  map (fun i => Z.land (Z.shiftr x (8 * Z.of_nat i)) 255) (rev (seq 0 count)).

Definition pad (msg : list Z) : list Z :=
  let len := Z.of_nat (length msg) in
  (msg ++ [128] ++ repeat 0 (Z.to_nat ((55 - len) mod 64))
       ++ be_bytes 8 (8 * len))%list.

Fixpoint words (bytes : list Z) : list Z :=
  match bytes with
  | a :: b :: c :: d :: rest =>
      (Z.shiftl a 24 + Z.shiftl b 16 + Z.shiftl c 8 + d) :: words rest
  | _ => []
  end.

(** Message schedule: 16 block words extended to 64. *)
Fixpoint extend (count : nat) (ws : list Z) : list Z :=
  match count with
  | O => ws
  | S count' =>
      let t := length ws in
      let at_ (k : nat) := nth (t - k) ws 0 in
      extend count'
        (ws ++ [add32 (add32 (small1 (at_ 2%nat)) (at_ 7%nat))
                      (add32 (small0 (at_ 15%nat)) (at_ 16%nat))])%list
  end.

Definition round (v : list Z) (kw : Z * Z) : list Z :=
  match v with
  | [a; b; c; d; e; f; g; h] =>
      let t1 := add32 (add32 (add32 h (big1 e)) (add32 (choose e f g) (fst kw))) (snd kw) in
      let t2 := add32 (big0 a) (majority a b c) in
      [add32 t1 t2; a; b; c; add32 d t1; e; f; g]
  | _ => v
  end.

Definition compress (h : list Z) (block : list Z) : list Z :=
  let schedule := extend 48 block in
  let v := fold_left round (combine round_constants schedule) h in
  map (fun p => add32 (fst p) (snd p)) (combine h v).

Fixpoint blocks (count : nat) (ws : list Z) (h : list Z) : list Z :=
  match count with
  | O => h
  | S count' => blocks count' (skipn 16 ws) (compress h (firstn 16 ws))
  end.

Definition digest (msg : list Z) : list Z :=
  let ws := words (pad msg) in
  blocks (length ws / 16) ws initial_hash.

Definition hex_digit (n : Z) : ascii :=
  nth (Z.to_nat n)
    ["0"; "1"; "2"; "3"; "4"; "5"; "6"; "7"; "8"; "9";
     "a"; "b"; "c"; "d"; "e"; "f"]%char "0"%char.

Definition hex_word (x : Z) : string :=
  string_of_list_ascii
    (map (fun i => hex_digit (Z.land (Z.shiftr x (4 * Z.of_nat i)) 15))
         (rev (seq 0 8))).

Definition hex_words (ws : list Z) : string :=
  fold_right (fun x acc => hex_word x ++ acc)%string EmptyString ws.

Definition bytes_of (s : string) : list Z :=
  map (fun c => Z.of_nat (nat_of_ascii c)) (list_ascii_of_string s).

(** [hash('sha256', $s)]: 64 lower-case hexadecimal digits. *)
Definition hash_sha256 (s : string) : string := hex_words (digest (bytes_of s)).

End SHA256.

(** ** ConsentLogger (PHP) *)

Module ConsentLogger.

(** Decoded JSON, as [json_decode($text, true)] returns it: objects and
    lists both become PHP arrays, here association lists in key order. *)
#[warnings="-register-all"] Inductive JVal :=
| JNull
| JBool (b : bool)
| JNum (z : Z)
| JStr (s : string)
| JArr (l : list (string * JVal)).

(** PHP's conversion to boolean. *)
Definition truthy (v : JVal) : bool :=
  match v with
  | JNull => false
  | JBool b => b
  | JNum z => negb (z =? 0)%Z
  | JStr s => PHP.truthy s
  | JArr l => match l with [] => false | _ => true end
  end.

Definition is_array (v : JVal) : bool :=
  match v with JArr _ => true | _ => false end.

(** What [foreach ($v as $k => $x)] visits: nothing unless [$v] is an
    array. *)
Definition entries (v : JVal) : list (string * JVal) :=
  match v with JArr l => l | _ => [] end.

Record LogEntry := {
  timestamp : Z;              (* the clock reading printed by date('c') *)
  sessionId : string;
  consentState : JVal;
  widgetVersion : string;
  policyVersion : string;
  metadata : gmap string string
}.

Inductive Exn := Exception (msg : string).

(** The log file [consent/consent-log.jsonl] with the request
    environment.  [logFile] is [None] when the file cannot be opened or
    locked for reading. *)
Record World := {
  logFile : option (list LogEntry);
  appendable : bool;               (* whether FileStorage::append succeeds *)
  clock : Z;                       (* time() *)
  REMOTE_ADDR : option string;     (* $_SERVER['REMOTE_ADDR'] *)
  HTTP_USER_AGENT : option string  (* $_SERVER['HTTP_USER_AGENT'] *)
}.

Definition append_entry (w : World) (e : LogEntry) : World :=
  {| logFile := option_map (fun l => (l ++ [e])%list) (logFile w);
     appendable := appendable w; clock := clock w;
     REMOTE_ADDR := REMOTE_ADDR w; HTTP_USER_AGENT := HTTP_USER_AGENT w |}.

(** The session identifier that goes into the entry.  In
    [$sessionId . $_SERVER['REMOTE_ADDR'] ?? 'unknown'] the concatenation
    binds tighter than [??]: an unset address concatenates as the empty
    string and ['unknown'] is never used. *)
Definition logged_sessionId (w : World) (sessionId : string) : string :=
  if (PHP.strlen sessionId <? 32)%nat
  then SHA256.hash_sha256 (sessionId ++ default "" (REMOTE_ADDR w))
  else sessionId.

(** [array_merge($defaults, $metadata)]: the caller's keys win. *)
Definition merged_metadata (w : World) (metadata : gmap string string)
  : gmap string string :=
  metadata ∪
  <["userAgent" := default "unknown" (HTTP_USER_AGENT w)]>
    (<["jurisdiction" := default "unknown" (metadata !! "jurisdiction")]> ∅).

Definition make_entry (w : World) (consentState : JVal)
    (sessionId widgetVersion policyVersion : string)
    (metadata : gmap string string) : LogEntry :=
  {| timestamp := clock w;
     sessionId := logged_sessionId w sessionId;
     consentState := consentState;
     widgetVersion := widgetVersion;
     policyVersion := policyVersion;
     metadata := merged_metadata w metadata |}.

(** [log]: the outcome, the entry handed to [FileStorage::append] (if the
    call got that far) and the store afterwards. *)
Definition log (w : World) (consentState : JVal)
    (sessionId widgetVersion policyVersion : string)
    (metadata : gmap string string)
  : (Exn + bool) * option LogEntry * World :=
  if negb (is_array consentState) || negb (truthy consentState)
  then (inl (Exception "Invalid consent state"), None, w)
  else
    let entry :=
      make_entry w consentState sessionId widgetVersion policyVersion metadata in
    if appendable w then (inr true, Some entry, append_entry w entry)
    else (inr false, Some entry, w).

(** *** Statistics *)

Record CategoryCount := { accepted : nat; rejected : nat }.

Record LogStats := {
  total : nat;
  byCategory : gmap string CategoryCount;
  byDay : gmap Z nat;
  acceptedAll : nat;
  rejectedAll : nat;
  customized : nat
}.

(** The state of the inner [foreach] over one consent state. *)
Record Tally := {
  t_byCategory : gmap string CategoryCount;
  allAccepted : bool;
  allRejected : bool
}.

Definition tally_step (t : Tally) (kv : string * JVal) : Tally :=
  let category := fst kv in
  let cur := default {| accepted := 0; rejected := 0 |} (t_byCategory t !! category) in
  if truthy (snd kv) then
    {| t_byCategory :=
         <[category := {| accepted := S (accepted cur); rejected := rejected cur |}]>
           (t_byCategory t);
       allAccepted := allAccepted t;
       allRejected := false |}
  else
    {| t_byCategory :=
         <[category := {| accepted := accepted cur; rejected := S (rejected cur) |}]>
           (t_byCategory t);
       allAccepted :=
         if negb (String.eqb category "necessary") then false else allAccepted t;
       allRejected := allRejected t |}.

Definition tally (byCat : gmap string CategoryCount) (state : JVal) : Tally :=
  fold_left tally_step (entries state)
    {| t_byCategory := byCat; allAccepted := true; allRejected := true |}.

(** [date('Y-m-d', $timestamp)], as the number of the day (UTC). *)
Definition day_of (t : Z) : Z := (t / 86400)%Z.

(** One turn of the outer [foreach ($logs as $log)]. *)
Definition stats_step (cutoff : Z) (s : LogStats) (e : LogEntry) : LogStats :=
  if (0 <? cutoff)%Z && (timestamp e <? cutoff)%Z then s
  else
    let t := tally (byCategory s) (consentState e) in
    let day := day_of (timestamp e) in
    {| total := S (total s);
       byCategory := t_byCategory t;
       byDay := <[day := S (default 0 (byDay s !! day))]> (byDay s);
       acceptedAll := if allAccepted t then S (acceptedAll s) else acceptedAll s;
       rejectedAll :=
         if allAccepted t then rejectedAll s
         else if allRejected t then S (rejectedAll s) else rejectedAll s;
       customized :=
         if allAccepted t then customized s
         else if allRejected t then customized s else S (customized s) |}.

Definition empty_stats : LogStats :=
  {| total := 0; byCategory := ∅; byDay := ∅;
     acceptedAll := 0; rejectedAll := 0; customized := 0 |}.

(** [strtotime("-$days days")], without daylight-saving shifts. *)
Definition cutoff_of (w : World) (days : Z) : Z :=
  if (0 <? days)%Z then (clock w - days * 86400)%Z else 0%Z.

Inductive StatsResult :=
| StatsNull                      (* the log could not be read *)
| StatsNoLogs                    (* total 0 and two empty arrays only *)
| StatsOf (s : LogStats).

Definition getStats (w : World) (days : Z) : StatsResult :=
  match logFile w with
  | None => StatsNull
  | Some [] => StatsNoLogs
  | Some logs => StatsOf (fold_left (stats_step (cutoff_of w days)) logs empty_stats)
  end.

(** *** Sample data *)

(** The decision that [CMP.rejectAll] sends. *)
Definition reject_all : JVal :=
  JArr [("necessary", JBool true); ("preferences", JBool false);
        ("analytics", JBool false); ("marketing", JBool false)].

(** [necessary] accepted, every other category refused, and at least one
    other category present. *)
Definition necessary_only (state : JVal) : Prop :=
  (forall k v, (k, v) ∈ entries state ->
               truthy v = String.eqb k "necessary")
  /\ (exists v, ("necessary", v) ∈ entries state)
  /\ (exists k v, (k, v) ∈ entries state /\ k <> "necessary").

Definition sample_world : World :=
  {| logFile := Some []; appendable := true; clock := 1700000000;
     REMOTE_ADDR := Some "203.0.113.7"; HTTP_USER_AGENT := Some "curl/8.5.0" |}.

Definition sample_entry (t : Z) (state : JVal) : LogEntry :=
  {| timestamp := t; sessionId := "0123456789abcdef0123456789abcdef";
     consentState := state; widgetVersion := "1.0.0"; policyVersion := "1.0.0";
     metadata := ∅ |}.

End ConsentLogger.

(** ** CMP, the front-end SDK (JavaScript) *)

Module CMP.

(** *** Script elements *)

(** A [<script>] element: its content attributes in document order and
    its inline text. *)
Record Node := {
  attributes : list (string * string);
  textContent : string
}.

Fixpoint getAttribute (attrs : list (string * string)) (name : string)
  : option string :=
  match attrs with
  | [] => None
  | (k, v) :: rest => if String.eqb k name then Some v else getAttribute rest name
  end.

(** [setAttribute] overwrites in place or appends. *)
Fixpoint setAttribute (attrs : list (string * string)) (name value : string)
  : list (string * string) :=
  match attrs with
  | [] => [(name, value)]
  | (k, v) :: rest =>
      if String.eqb k name then (k, value) :: rest
      else (k, v) :: setAttribute rest name value
  end.

Fixpoint removeAttribute (attrs : list (string * string)) (name : string)
  : list (string * string) :=
  match attrs with
  | [] => []
  | (k, v) :: rest =>
      if String.eqb k name then removeAttribute rest name
      else (k, v) :: removeAttribute rest name
  end.

(** The IDL attribute [script.type] reflects the content attribute. *)
Definition script_type (n : Node) : string :=
  default "" (getAttribute (attributes n) "type").

Definition set_type (n : Node) (value : string) : Node :=
  {| attributes := setAttribute (attributes n) "type" value;
     textContent := textContent n |}.

(** Truth value of what [getAttribute] returns (null or a string). *)
Definition attr_truthy (v : option string) : bool :=
  match v with
  | Some s => negb (String.eqb s "")
  | None => false
  end.

(** *** Consent objects *)

(** A consent state is a plain object; only the truth value of each own
    property is observed.  A property that is not its own is looked up in
    [Object.prototype], whose members are all truthy. *)
Definition object_prototype : list string :=
  ["constructor"; "__proto__"; "hasOwnProperty"; "isPrototypeOf";
   "propertyIsEnumerable"; "toLocaleString"; "toString"; "valueOf";
   "__defineGetter__"; "__defineSetter__"; "__lookupGetter__";
   "__lookupSetter__"].

Definition js_get (o : gmap string bool) (k : string) : bool :=
  match o !! k with
  | Some b => b
  | None => existsb (String.eqb k) object_prototype
  end.

Record Consent := {
  state : gmap string bool;
  timestamp : Z;           (* the instant behind new Date().toISOString() *)
  consent_version : string
}.

(** *** Observable effects, oldest first *)

Inductive Effect :=
| ConsoleLog (msg : string)
| ConsoleError (msg : string)
| SetItem (key : string) (value : Consent)   (* localStorage.setItem returned *)
| LogConsent (consentState : gmap string bool) (* logConsent: POST to /consent.php *)
| ReplaceChild (newScript script : nat)
| DispatchEvent (eventName : string) (detail : gmap string bool).

Inductive Completion := Normal | Throw (error : string).

(** *** The CMP object with the part of the page it touches

    [nodes] holds every script element ever created, a node being named by
    its position; [document] lists the attached ones, one slot per
    discovered element, in discovery order.  [blockedScripts] refers to
    nodes, as the array of the source holds references. *)
Record State := {
  consent : option Consent;
  blockedScripts : list (nat * string);
  nodes : list Node;
  document : list nat;
  localStorage : option Consent;   (* the item cmp_consent *)
  trace : list Effect
}.

Definition version : string := "1.0.0".

Definition init_state : State :=
  {| consent := None; blockedScripts := []; nodes := []; document := [];
     localStorage := None; trace := [] |}.

Definition emit (es : list Effect) (st : State) : State :=
  {| consent := consent st; blockedScripts := blockedScripts st;
     nodes := nodes st; document := document st;
     localStorage := localStorage st; trace := (trace st ++ es)%list |}.

Definition set_node (script : nat) (n : Node) (st : State) : State :=
  {| consent := consent st; blockedScripts := blockedScripts st;
     nodes := <[script := n]> (nodes st); document := document st;
     localStorage := localStorage st; trace := trace st |}.

Definition push_blocked (script : nat) (category : string) (st : State) : State :=
  {| consent := consent st;
     blockedScripts := (blockedScripts st ++ [(script, category)])%list;
     nodes := nodes st; document := document st;
     localStorage := localStorage st; trace := trace st |}.

(** [!this.consent || !this.consent.state[category]], negated. *)
Definition consented (st : State) (category : string) : bool :=
  match consent st with
  | Some c => js_get (state c) category
  | None => false
  end.

(** *** The gate *)

Definition handleScript (script : nat) (st : State) : State :=
  match nodes st !! script with
  | None => st
  | Some node =>
      match getAttribute (attributes node) "data-category" with
      | None => st
      | Some category =>
          if String.eqb category "" then st
          else if String.eqb category "necessary" then st
          else if negb (consented st category) then
            if negb (String.eqb (script_type node) "text/plain") then
              let node1 := set_type node "text/plain" in
              let node2 :=
                {| attributes := setAttribute (attributes node1) "data-blocked" "true";
                   textContent := textContent node1 |} in
              emit [ConsoleLog ("CMP: Blocked script " ++ category)]
                (push_blocked script category (set_node script node2 st))
            else st
          else
            if String.eqb (script_type node) "text/plain"
               && attr_truthy (getAttribute (attributes node) "data-blocked")
            then
              let node1 := set_type node "text/javascript" in
              let node2 :=
                {| attributes := removeAttribute (attributes node1) "data-blocked";
                   textContent := textContent node1 |} in
              emit [ConsoleLog ("CMP: Unblocked script " ++ category)]
                (set_node script node2 st)
            else st
      end
  end.

(** A script element enters the document: the observer (or the initial
    query) hands it to [handleScript]. *)
Definition discover (n : Node) (st : State) : State :=
  let script := length (nodes st) in
  handleScript script
    {| consent := consent st; blockedScripts := blockedScripts st;
       nodes := (nodes st ++ [n])%list; document := (document st ++ [script])%list;
       localStorage := localStorage st; trace := trace st |}.

(** The clone built in [applyConsent]: every attribute but [type] and
    [data-blocked], set one after the other, and the same text. *)
Definition clone_attributes (attrs : list (string * string))
  : list (string * string) :=
  fold_left
    (fun acc a =>
       if negb (String.eqb (fst a) "type") && negb (String.eqb (fst a) "data-blocked")
       then setAttribute acc (fst a) (snd a) else acc)
    attrs [].

Definition clone (n : Node) : Node :=
  {| attributes := clone_attributes (attributes n); textContent := textContent n |}.

Definition replace_id (old new : nat) (doc : list nat) : list nat :=
  (fun x => if (x =? old)%nat then new else x) <$> doc.

Definition create_script (n : Node) (st : State) : State :=
  {| consent := consent st; blockedScripts := blockedScripts st;
     nodes := (nodes st ++ [n])%list; document := document st;
     localStorage := localStorage st; trace := trace st |}.

Definition replaceChild (newScript script : nat) (st : State) : State :=
  {| consent := consent st; blockedScripts := blockedScripts st;
     nodes := nodes st; document := replace_id script newScript (document st);
     localStorage := localStorage st;
     trace := (trace st ++ [ReplaceChild newScript script])%list |}.

(** The body of [this.blockedScripts.forEach(...)].  A script that has left
    the document has no [parentNode]: [replaceChild] on null throws. *)
Fixpoint unblock_each (c : Consent) (entries : list (nat * string)) (st : State)
  : State * Completion :=
  match entries with
  | [] => (st, Normal)
  | (script, category) :: rest =>
      if js_get (state c) category then
        match nodes st !! script with
        | Some node =>
            if String.eqb (script_type node) "text/plain" then
              let newScript := length (nodes st) in
              let st1 := create_script (clone node) st in
              if existsb (Nat.eqb script) (document st) then
                unblock_each c rest
                  (emit [ConsoleLog ("CMP: Executed blocked script " ++ category)]
                     (replaceChild newScript script st1))
              else
                (st1, Throw "TypeError: Cannot read properties of null (reading 'replaceChild')")
            else unblock_each c rest st
        | None => unblock_each c rest st
        end
      else unblock_each c rest st
  end.

Definition clear_blocked (st : State) : State :=
  {| consent := consent st; blockedScripts := [];
     nodes := nodes st; document := document st;
     localStorage := localStorage st; trace := trace st |}.

Definition applyConsent (st : State) : State * Completion :=
  match consent st with
  | None => (st, Normal)
  | Some c =>
      match unblock_each c (blockedScripts st) (emit [ConsoleLog "CMP: Applying consent"] st) with
      | (st', Normal) => (clear_blocked st', Normal)
      | (st', Throw e) => (st', Throw e)
      end
  end.

(** *** Consent state management *)

(** [saveConsent]; [now] is the clock and [storage_ok] tells whether
    [localStorage.setItem] returns rather than throws (quota, disabled
    storage). *)
Definition saveConsent (now : Z) (storage_ok : bool)
    (consentState : gmap string bool) (st : State) : State * Completion :=
  let c := {| state := consentState; timestamp := now; consent_version := version |} in
  let st1 :=
    {| consent := Some c; blockedScripts := blockedScripts st;
       nodes := nodes st; document := document st;
       localStorage := localStorage st; trace := trace st |} in
  let st2 :=
    if storage_ok then
      emit [SetItem "cmp_consent" c; ConsoleLog "CMP: Consent saved"]
        {| consent := consent st1; blockedScripts := blockedScripts st1;
           nodes := nodes st1; document := document st1;
           localStorage := Some c; trace := trace st1 |}
    else emit [ConsoleError "CMP: Failed to save consent"] st1 in
  let st3 := emit [LogConsent consentState] st2 in
  match applyConsent st3 with
  | (st4, Normal) =>
      (emit [DispatchEvent "cmp:consent-changed" consentState] st4, Normal)
  | (st4, Throw e) => (st4, Throw e)
  end.

Definition updateConsent := saveConsent.

Definition accept_all_state : gmap string bool :=
  <["necessary" := true]> (<["preferences" := true]>
    (<["analytics" := true]> (<["marketing" := true]> ∅))).

Definition reject_all_state : gmap string bool :=
  <["necessary" := true]> (<["preferences" := false]>
    (<["analytics" := false]> (<["marketing" := false]> ∅))).

Definition acceptAll (now : Z) (storage_ok : bool) (st : State) :=
  saveConsent now storage_ok accept_all_state st.

Definition rejectAll (now : Z) (storage_ok : bool) (st : State) :=
  saveConsent now storage_ok reject_all_state st.

Definition getConsent (st : State) : option (gmap string bool) :=
  state <$> consent st.

(** *** Reading the page *)

(** Executable form: the type is not the placeholder type. *)
Definition is_active (n : Node) : bool :=
  negb (String.eqb (script_type n) "text/plain").

(** Placeholder form written by the gate, with its marker attribute. *)
Definition is_blocked (n : Node) : bool :=
  String.eqb (script_type n) "text/plain"
  && attr_truthy (getAttribute (attributes n) "data-blocked").

(** The element in slot [i] of the document, as it is now. *)
Definition element (st : State) (i : nat) : option Node :=
  document st !! i ≫= fun script => nodes st !! script.

(** What happens to the page.  [Discover]: a script element is inserted and
    the observer of [interceptScripts] (or the query that follows its
    set-up) hands it to [handleScript].  [SaveConsent]: a consent call is
    made.  [Deliver]: the observer hands over a script element that is in
    the document already.  That is what happens to the clone that
    [applyConsent] inserts with [replaceChild]: the insertion is reported
    when the running task ends, after the consent call that made the clone
    and after every further consent call of that task.  It is also what
    happens to a script that the page inserts again.  The page removes no
    script: a script leaves the document only when [applyConsent] replaces
    it, which is after it was handed over, so no report is ever due for a
    script outside the document. *)
Inductive Event :=
| Discover (n : Node)
| SaveConsent (now : Z) (storage_ok : bool) (consentState : gmap string bool)
| Deliver (script : nat).

Definition step (st : State) (e : Event) : State :=
  match e with
  | Discover n => discover n st
  | SaveConsent now storage_ok consentState =>
      fst (saveConsent now storage_ok consentState st)
  | Deliver script =>
      if existsb (Nat.eqb script) (document st) then handleScript script st
      else st
  end.

(** The event is not a second delivery of a script. *)
Definition first_delivery (e : Event) : Prop :=
  match e with
  | Deliver _ => False
  | _ => True
  end.

(** The state of a page after the given events, from a fresh CMP. *)
Definition run (es : list Event) : State := fold_left step es init_state.

(** Slot [i] of the document holds the script [s], which is the node [n]. *)
Definition holds (st : State) (i s : nat) (n : Node) : Prop :=
  document st !! i = Some s /\ nodes st !! s = Some n.

(** *** States the page can be in *)

(** No script is listed twice in [blockedScripts], every listed script is
    attached, and the document only names existing nodes. *)
Definition well_formed (st : State) : Prop :=
  NoDup (fst <$> blockedScripts st)
  /\ (forall s, s ∈ (fst <$> blockedScripts st) -> s ∈ document st)
  /\ (forall s, s ∈ document st -> s < length (nodes st)).

(** Every listed script is a placeholder that carries the listed category,
    and that category is not consented. *)
Definition listed_blocked (st : State) : Prop :=
  forall s X, (s, X) ∈ blockedScripts st ->
    consented st X = false
    /\ exists n, nodes st !! s = Some n
                 /\ getAttribute (attributes n) "data-category" = Some X
                 /\ script_type n = "text/plain".

Definition gate_invariant (st : State) : Prop :=
  well_formed st /\ listed_blocked st.

(** The element carries no category, an empty one, or [necessary]. *)
Definition ungated (n : Node) : Prop :=
  match getAttribute (attributes n) "data-category" with
  | None => True
  | Some X => X = "" \/ X = "necessary"
  end.

(** [handleScript] leaves the element alone: it is of type [text/plain]
    and carries no [data-blocked]. *)
Definition inert (n : Node) : Prop :=
  script_type n = "text/plain"
  /\ attr_truthy (getAttribute (attributes n) "data-blocked") = false.

(** What one pass of the gate may emit. *)
Definition gate_effect (e : Effect) : Prop :=
  match e with
  | ReplaceChild _ _ | ConsoleLog _ => True
  | _ => False
  end.

(** What the attempt to persist emits. *)
Definition persist_effects (storage_ok : bool) (c : Consent) : list Effect :=
  if storage_ok then [SetItem "cmp_consent" c; ConsoleLog "CMP: Consent saved"]
  else [ConsoleError "CMP: Failed to save consent"].

(** The scripts replaced by the gate, in the order of the trace. *)
Definition replaced (es : list Effect) : list nat :=
  omap (fun e => match e with ReplaceChild _ script => Some script | _ => None end) es.

(** The entry is one that a pass of the gate replaces: its category is
    granted and its node is a placeholder. *)
Definition unblocks (c : Consent) (st : State) (e : nat * string) : bool :=
  js_get (state c) (snd e) &&
  match nodes st !! fst e with
  | Some node => String.eqb (script_type node) "text/plain"
  | None => false
  end.

(** *** Sample data *)

Definition marketing_script : Node :=
  {| attributes := [("src", "https://ads.example/pixel.js");
                    ("data-category", "marketing")];
     textContent := "" |}.

Definition analytics_only : gmap string bool :=
  <["necessary" := true]> (<["preferences" := false]>
    (<["analytics" := true]> (<["marketing" := false]> ∅))).

Definition necessary_refused : gmap string bool :=
  <["necessary" := false]> (<["analytics" := true]> ∅).

End CMP.

(** ** CookieDatabase: what the indexes hold, normalisation, search *)

Module Corpus.
Import PHP CookieDatabase.

(** The positions, counted from [i], of the items of [l] that pass [p]. *)
Fixpoint positions {A : Type} (p : A -> bool) (i : nat) (l : list A) : list nat :=
  match l with
  | [] => []
  | x :: rest => if p x then i :: positions p (S i) rest else positions p (S i) rest
  end.

(** The record is filed under the name [n] / under the domain [d]. *)
Definition named (n : string) (c : Cookie) : bool :=
  negb (ck_isWildcard c) && String.eqb (strtolower (ck_name c)) n.

Definition hosted_at (d : string) (c : Cookie) : bool :=
  negb (empty (strtolower (ck_domain c))) && String.eqb (strtolower (ck_domain c)) d.

(** The wildcard records with their positions, in file order. *)
Fixpoint wildcard_entries (i : nat) (cs : list Cookie) : list Wildcard :=
  match cs with
  | [] => []
  | c :: rest =>
      if ck_isWildcard c
      then {| pattern := strtolower (ck_name c); index := i |}
             :: wildcard_entries (S i) rest
      else wildcard_entries (S i) rest
  end.

(** [None] for no position, as a key that was never set. *)
Definition filed (l : list nat) : option (list nat) :=
  match l with [] => None | _ => Some l end.

(** *** normalizeCategory *)

(** [trim]: blanks, tabs, line ends, NUL and vertical tabs at both ends. *)
Definition is_trim_char (c : ascii) : bool :=
  existsb (Ascii.eqb c) [" "; "009"; "010"; "013"; "000"; "011"]%char.

Fixpoint ltrim (s : string) : string :=
  match s with
  | EmptyString => EmptyString
  | String c r => if is_trim_char c then ltrim r else s
  end.

Fixpoint rtrim (s : string) : string :=
  match s with
  | EmptyString => EmptyString
  | String c r =>
      let r' := rtrim r in
      if is_trim_char c && String.eqb r' "" then EmptyString else String c r'
  end.

Definition trim (s : string) : string := rtrim (ltrim s).

(** [strpos($hay, $needle) !== false]; an empty needle is found (PHP 8). *)
Fixpoint contains (needle hay : string) : bool :=
  String.prefix needle hay ||
  match hay with
  | EmptyString => false
  | String _ r => contains needle r
  end.

(** [stripos($hay, $needle) !== false]: both sides lower-cased. *)
Definition stripos_found (hay needle : string) : bool :=
  contains (strtolower needle) (strtolower hay).

Definition categoryMap : list (string * string) :=
  [("Strictly Necessary", "necessary");
   ("Functional", "preferences");
   ("Performance", "analytics");
   ("Targeting/Advertising", "marketing");
   ("Analytics", "analytics");
   ("Marketing", "marketing");
   ("Preferences", "preferences");
   ("Necessary", "necessary")].

(** [$this->categoryMap[$category]] when set. *)
Fixpoint map_get (m : list (string * string)) (k : string) : option string :=
  match m with
  | [] => None
  | (k', v) :: rest => if String.eqb k' k then Some v else map_get rest k
  end.

(** The [foreach] of the fuzzy matching, with its [return]. *)
Fixpoint fuzzy (lower : string) (m : list (string * string)) : option string :=
  match m with
  | [] => None
  | (key, value) :: rest =>
      if stripos_found lower (strtolower key) then Some value else fuzzy lower rest
  end.

Definition normalizeCategory (category : string) : string :=
  let category := trim category in
  match map_get categoryMap category with
  | Some v => v
  | None =>
      match fuzzy (strtolower category) categoryMap with
      | Some v => v
      | None => "uncategorized"
      end
  end.

(** *** search and getStats *)

Definition search_fields (c : Cookie) : list string :=
  [strtolower (ck_name c); strtolower (ck_domain c);
   strtolower (ck_description c); strtolower (ck_platform c)].

(** The inner [foreach] over the four fields, with its [break]. *)
Definition search_match (query : string) (c : Cookie) : bool :=
  existsb (fun field => stripos_found field query) (search_fields c).

(** The outer [foreach], leaving as soon as [$limit] results are held. *)
Fixpoint search_loop (query : string) (limit : Z) (cs : list Cookie)
    (results : list Cookie) : list Cookie :=
  match cs with
  | [] => results
  | c :: rest =>
      if (limit <=? Z.of_nat (length results))%Z then results
      else if search_match query c
           then search_loop query limit rest (results ++ [c])%list
           else search_loop query limit rest results
  end.

Section WithParser.

Variable parse_csv : string -> list Cookie.

Definition search (w : World) (database : option Database)
    (query : string) (limit : Z)
  : (Exn + list Cookie) * World * option Database :=
  match loadDatabase parse_csv w database with
  | (inl e, w', database') => (inl e, w', database')
  | (inr _, w', database') =>
      match database' with
      | None => (inr [], w', database')
      | Some db =>
          if empty query then (inr [], w', database')
          else (inr (search_loop (strtolower query) limit (cookies db) []),
                w', database')
      end
  end.

(** [getStats]: [None] is PHP null. *)
Definition getStats (w : World) (database : option Database)
  : (Exn + option Stats) * World * option Database :=
  match loadDatabase parse_csv w database with
  | (inl e, w', database') => (inl e, w', database')
  | (inr _, w', database') => (inr (stats <$> database'), w', database')
  end.

End WithParser.

(** The sum of the counters of a map. *)
Definition sum_counts {K : Type} `{Countable K} (m : gmap K nat) : nat :=
  map_fold (fun _ v acc => v + acc) 0 m.

(** A world whose cache was written [age] seconds ago. *)
Definition cached_world (db : Database) (age : Z) : World :=
  {| cacheFile :=
       Content {| version := version db; lastUpdated := Some (1700000000 - age)%Z;
                  source := source db; stats := stats db; cookies := cookies db;
                  indexes := indexes db |};
     overridesFile := Missing; csv := None; writable := true;
     clock := 1700000000 |}.

End Corpus.

(** ** Reading the consent log: FileStorage::readLines and its users *)

Module LogStore.
Import ConsentLogger.

(** The [while] loop of [readLines] over the lines of the file.  A line is
    [None] when it is blank, is ["0"], or does not decode to a value other
    than null: such a line counts for the offset and yields nothing. *)
Fixpoint readLines_loop {A : Type} (limit offset lineNum : Z)
    (lines : list (option A)) (acc : list A) : list A :=
  match lines with
  | [] => acc
  | line :: rest =>
      if (offset <=? lineNum)%Z then
        match line with
        | Some decoded =>
            let acc' := (acc ++ [decoded])%list in
            if (0 <? limit)%Z && (limit <=? Z.of_nat (length acc'))%Z then acc'
            else readLines_loop limit offset (lineNum + 1) rest acc'
        | None => readLines_loop limit offset (lineNum + 1) rest acc
        end
      else readLines_loop limit offset (lineNum + 1) rest acc
  end.

Definition readLines {A : Type} (lines : list (option A)) (limit offset : Z)
  : list A :=
  readLines_loop limit offset 0 lines [].

(** [getLogs]: the file is [None] when it cannot be opened or locked (the
    exception is caught), and has no line when it does not exist. *)
Definition getLogs (file : option (list (option LogEntry))) (limit offset : Z)
  : list LogEntry :=
  match file with
  | None => []
  | Some lines => rev (readLines lines limit offset)
  end.

(** The [for] loop of [getSessionConsent], from the last entry down. *)
Fixpoint session_scan (logs : list LogEntry) (i : nat) (sid : string)
  : option LogEntry :=
  match i with
  | O => None
  | S j =>
      match logs !! j with
      | Some e =>
          if String.eqb (sessionId e) sid then Some e else session_scan logs j sid
      | None => session_scan logs j sid
      end
  end.

Definition getSessionConsent (w : World) (sid : string) : option LogEntry :=
  match logFile w with
  | None => None
  | Some logs => session_scan logs (length logs) sid
  end.

(** The number of entries of the log inside the period. *)
Definition in_period (cutoff : Z) (e : LogEntry) : bool :=
  negb ((0 <? cutoff)%Z && (timestamp e <? cutoff)%Z).

(** The counters of a statistics record agree with each other: [n] entries
    counted, each under one of the three kinds and under one day. *)
Definition tallies (s : LogStats) (n : nat) : Prop :=
  total s = n
  /\ total s = acceptedAll s + rejectedAll s + customized s
  /\ Corpus.sum_counts (byDay s) = total s.

End LogStore.

(** ** The consent endpoint (api/consent.php) *)

Module ConsentEndpoint.
Import ConsentLogger.

(** The decoded request body.  [Falsy] is a body that does not decode, or
    decodes to a value PHP takes for false (null, an empty object or list,
    zero, the empty string).  [Fields] is any other body, with the fields the
    script reads; a field is [None] when absent or null.  The session
    identifier and the versions are JSON strings when present. *)
Inductive Body :=
| Falsy
| Fields (consentState : option JVal) (sessionId : option string)
         (widgetVersion policyVersion siteId jurisdiction : option string).

Record Response := {
  status : nat;
  success : option bool;
  error : option string;
  message : option string
}.

Definition failure (msg : string) : Response :=
  {| status := 500; success := Some false;
     error := Some "Failed to log consent"; message := Some msg |}.

Definition isset (v : option JVal) : option JVal :=
  match v with
  | Some JNull | None => None
  | Some x => Some x
  end.

(** The script: [None] is the empty reply of a preflight request. *)
Definition handle (w : World) (method : string) (body : Body)
  : option Response * World :=
  if String.eqb method "OPTIONS" then (None, w)
  else if negb (String.eqb method "POST") then
    (Some {| status := 405; success := None;
             error := Some "Method not allowed"; message := None |}, w)
  else
    match body with
    | Falsy => (Some (failure "Invalid JSON payload"), w)
    | Fields cs sid wv pv site jur =>
        match isset cs, sid with
        | Some state, Some sessionId =>
            match log w state sessionId (default "1.0.0" wv) (default "1.0.0" pv)
                    (<["siteId" := default "default" site]>
                       (<["jurisdiction" := default "unknown" jur]> ∅)) with
            | (inl (Exception msg), _, w') => (Some (failure msg), w')
            | (inr true, _, w') =>
                (Some {| status := 200; success := Some true; error := None;
                         message := Some "Consent logged successfully" |}, w')
            | (inr false, _, w') => (Some (failure "Failed to log consent"), w')
            end
        | _, _ => (Some (failure "Missing required fields"), w)
        end
    end.

End ConsentEndpoint.

(** ** CMP: session identifiers, the banner, reloads, the preference center *)

Module Widget.
Import CMP.

(** *** generateId and getSessionId *)

Definition template : string := "xxxxxxxx-xxxx-4xxx-yxxx-xxxxxxxxxxxx".

(** [v.toString(16)] for [v] below 16. *)
Definition hex (v : nat) : ascii :=
  nth v ["0"; "1"; "2"; "3"; "4"; "5"; "6"; "7"; "8"; "9";
         "a"; "b"; "c"; "d"; "e"; "f"]%char "0"%char.

(** The callback of [replace]: [r] is [Math.random() * 16 | 0]. *)
Definition id_digit (c : ascii) (r : nat) : ascii :=
  if Ascii.eqb c "x" then hex r else hex (Nat.lor (Nat.land r 3) 8).

(** [replace(/[xy]/g, ...)]: one draw per [x] or [y], left to right.
    [draws k] stands for the [k]-th value of [Math.random() * 16 | 0], an
    integer from 0 to 15: it is taken modulo 16. *)
Fixpoint fill (t : string) (draws : nat -> nat) (k : nat) : string :=
  match t with
  | EmptyString => EmptyString
  | String c rest =>
      if Ascii.eqb c "x" || Ascii.eqb c "y"
      then String (id_digit c (draws k mod 16)) (fill rest draws (S k))
      else String c (fill rest draws k)
  end.

Definition generateId (draws : nat -> nat) : string := fill template draws 0.

(** [getSessionId] over the item [cmp_session_id] of [sessionStorage]:
    the identifier and the item afterwards. *)
Definition getSessionId (draws : nat -> nat) (item : option string)
  : string * option string :=
  match item with
  | Some id =>
      if String.eqb id "" then (generateId draws, Some (generateId draws))
      else (id, item)
  | None => (generateId draws, Some (generateId draws))
  end.

(** *** shouldShowBanner *)

Inductive Outcome := Returned (b : bool) | Threw (error : string).

(** [respect] is the truth of
    [config.widget && config.widget.behavior && ...respectDoNotTrack], and
    [dnt] that of [navigator.doNotTrack === '1' || window.doNotTrack === '1']. *)
Definition shouldShowBanner (respect dnt : bool) (now : Z) (storage_ok : bool)
    (st : State) : Outcome * State :=
  match consent st with
  | Some _ => (Returned false, st)
  | None =>
      if respect && dnt then
        match saveConsent now storage_ok reject_all_state st with
        | (st', Normal) => (Returned false, st')
        | (st', Throw e) => (Threw e, st')
        end
      else (Returned true, st)
  end.

(** *** Reloading the page *)

(** [loadConsent]: the item [cmp_consent], when set, becomes the consent. *)
Definition loadConsent (st : State) : State :=
  match localStorage st with
  | Some c =>
      emit [ConsoleLog "CMP: Loaded existing consent"]
        {| consent := Some c; blockedScripts := blockedScripts st;
           nodes := nodes st; document := document st;
           localStorage := localStorage st; trace := trace st |}
  | None => st
  end.

(** A new page with a new CMP object; only [localStorage] survives. *)
Definition reload (st : State) : State :=
  loadConsent
    {| consent := None; blockedScripts := []; nodes := []; document := [];
       localStorage := localStorage st; trace := [] |}.

(** [resetConsent]: the item is removed, then the page reloads. *)
Definition resetConsent (st : State) : State :=
  reload
    {| consent := None; blockedScripts := blockedScripts st;
       nodes := nodes st; document := document st;
       localStorage := None; trace := trace st |}.

(** *** The preference center *)

(** What [PreferenceCenter.currentState] refers to: the very object that is
    [CMP.consent.state] (what [CMP.getConsent()] returned), or an object of
    its own (what [getDefaultState()] returned). *)
Inductive StateRef := CMPObject | Own (o : gmap string bool).

Definition getDefaultState : gmap string bool := reject_all_state.

(** [show]: [this.currentState = CMP.getConsent() || this.getDefaultState()]. *)
Definition show (st : State) : StateRef :=
  match getConsent st with
  | Some _ => CMPObject
  | None => Own getDefaultState
  end.

(** The [change] listener of a toggle:
    [this.currentState[category] = e.target.checked]. *)
Definition toggle (category : string) (checked : bool) (ref : StateRef)
    (st : State) : StateRef * State :=
  match ref with
  | Own o => (Own (<[category := checked]> o), st)
  | CMPObject =>
      match consent st with
      | Some c =>
          (CMPObject,
           {| consent := Some {| state := <[category := checked]> (state c);
                                 timestamp := timestamp c;
                                 consent_version := consent_version c |};
              blockedScripts := blockedScripts st; nodes := nodes st;
              document := document st; localStorage := localStorage st;
              trace := trace st |})
      | None => (CMPObject, st)
      end
  end.

(** The object behind the reference. *)
Definition deref (ref : StateRef) (st : State) : gmap string bool :=
  match ref with
  | Own o => o
  | CMPObject => default ∅ (getConsent st)
  end.

(** [save]: [CMP.updateConsent(this.currentState)]; afterwards the object
    is the consent state of the CMP. *)
Definition save (now : Z) (storage_ok : bool) (ref : StateRef) (st : State)
  : StateRef * (State * Completion) :=
  (CMPObject, updateConsent now storage_ok (deref ref st) st).

(** A blocked script as [handleScript] leaves it. *)
Definition blocked_form_of (n : Node) : Node :=
  {| attributes :=
       setAttribute (setAttribute (attributes n) "type" "text/plain")
         "data-blocked" "true";
     textContent := textContent n |}.

(** A script written as the documentation shows it. *)
Definition authored_placeholder : Node :=
  {| attributes := [("type", "text/plain"); ("data-category", "analytics");
                    ("src", "analytics.js")];
     textContent := "" |}.

(** *** Reading the page *)

(** The attributes that the clone of [applyConsent] copies. *)
Definition kept (a : string * string) : bool :=
  negb (String.eqb (fst a) "type") && negb (String.eqb (fst a) "data-blocked").

(** No script was replaced twice, and a replaced script has left the
    document. *)
Definition replaced_once (st : State) : Prop :=
  NoDup (replaced (trace st))
  /\ forall s, s ∈ replaced (trace st) -> (s ∉ document st) /\ s < length (nodes st).

(** [blockedScripts] lists the scripts in the order of their creation. *)
Definition listed_in_order (st : State) : Prop :=
  StronglySorted lt (fst <$> blockedScripts st)
  /\ forall s, s ∈ (fst <$> blockedScripts st) -> s < length (nodes st).

End Widget.

(** * Properties *)

(** ** Strings *)

Module PHPFacts.
Import PHP.



Lemma empty_strtolower (s : string) : empty (strtolower s) = empty s.
Proof.
  destruct s as [|c [|c' s]]; [reflexivity| |].
  - destruct c as [[] [] [] [] [] [] [] []]; reflexivity.
  - unfold empty; simpl.
    now destruct (Ascii.eqb (lower_ascii c) "0"), (Ascii.eqb c "0").
Qed.

Lemma truthy_strtolower (s : string) : truthy (strtolower s) = truthy s.
Proof. unfold truthy. now rewrite empty_strtolower. Qed.

(** *** Suffixes and [substr] with a negative offset *)

Lemma length_append (a b : string) :
  String.length (a ++ b) = String.length a + String.length b.
Proof. induction a as [|c a IH]; simpl; [reflexivity | now rewrite IH]. Qed.





End PHPFacts.

(** ** CookieDatabase *)

Module CookieDatabaseFacts.
Import PHP PHPFacts CookieDatabase.












(** *** Loading *)

Lemma loadDatabase_overrides parse (w : World) (database : option Database)
    out (w' : World) (database' : option Database) :
  loadDatabase parse w database = (out, w', database') ->
  overridesFile w' = overridesFile w /\ clock w' = clock w.
Proof.
  unfold loadDatabase, updateDatabase. intros H.
  destruct database; [now inversion H|].
  destruct (cacheFile w); simpl in H.
  - destruct (csv w); [|now inversion H].
    destruct (writable w); now inversion H.
  - now inversion H.
  - now inversion H.
Qed.

Lemma categorize_loaded parse (w : World) (database : option Database)
    (b : bool) (w' : World) (db : Database) (name domain : string) :
  loadDatabase parse w database = (inr b, w', Some db) ->
  categorize parse w database name domain =
  (inr (categorize_in db (getOverrides w') name domain), w', Some db).
Proof. intros H. unfold categorize. now rewrite H. Qed.

(** What holds of the fallback: a database in memory or a readable cache
    is used without any download, and an unreadable cache gives [none]. *)
Lemma categorize_uses_cache parse (w : World) (db : Database) (name domain : string) :
  cacheFile w = Content db ->
  categorize parse w None name domain =
  (inr (categorize_in db (getOverrides w) name domain), w, Some db).
Proof. intros H. unfold categorize, loadDatabase. now rewrite H. Qed.

Lemma categorize_unreadable_cache parse (w : World) (name domain : string) :
  cacheFile w = Unreadable ->
  categorize parse w None name domain = (inr none_result, w, None).
Proof. intros H. unfold categorize, loadDatabase. now rewrite H. Qed.

Lemma categorize_no_cache_no_download parse (w : World) (name domain : string) :
  cacheFile w = Missing -> csv w = None ->
  categorize parse w None name domain =
  (inl (Exception "Failed to download Open Cookie Database"), w, None).
Proof.
  intros Hc Hd. unfold categorize, loadDatabase, updateDatabase.
  now rewrite Hc, Hd.
Qed.

(** *** Wildcards *)

Lemma append_cons (c : ascii) (a b : string) : String c a ++ b = String c (a ++ b).
Proof. reflexivity. Qed.

Lemma append_nil (b : string) : "" ++ b = b.
Proof. reflexivity. Qed.

Lemma append_assoc (a b c : string) : (a ++ b) ++ c = a ++ (b ++ c).
Proof.
  induction a as [|x a IH]; [reflexivity|].
  change (String x ((a ++ b) ++ c) = String x (a ++ (b ++ c))). now f_equal.
Qed.

Lemma str_replace1_app (a : ascii) (r x y : string) :
  str_replace1 a r (x ++ y) = str_replace1 a r x ++ str_replace1 a r y.
Proof.
  induction x as [|c x IH]; [reflexivity|].
  change (String c x ++ y) with (String c (x ++ y)). simpl.
  destruct (Ascii.eqb c a); rewrite IH; [now rewrite append_assoc | reflexivity].
Qed.

Lemma preg_quote_cons (c : ascii) (p : string) :
  preg_quote (String c p) "/" = preg_quote (String c "") "/" ++ preg_quote p "/".
Proof.
  simpl. destruct (Ascii.eqb c zero); [reflexivity|].
  destruct (preg_special c || Ascii.eqb c "/"); reflexivity.
Qed.

Lemma wildcard_body_cons (c : ascii) (p : string) :
  wildcard_body (String c p) = quoted_char c ++ wildcard_body p.
Proof.
  unfold wildcard_body, quoted_char. rewrite preg_quote_cons. simpl.
  now rewrite !str_replace1_app.
Qed.

Lemma wildcard_body_no_star (p : string) :
  Regex.split_star (wildcard_body p) = (false, wildcard_body p).
Proof.
  destruct p as [|c p]; [reflexivity|]. rewrite wildcard_body_cons.
  set (q := quoted_char c).
  destruct c as [[] [] [] [] [] [] [] []]; vm_compute in q; subst q;
    rewrite !append_cons; reflexivity.
Qed.

Lemma compile_quoted_char (fuel : nat) (c : ascii) (rest : string) :
  Regex.split_star rest = (false, rest) ->
  Regex.compile_fuel (S fuel) (quoted_char c ++ rest) =
  option_map (cons (wildcard_item c)) (Regex.compile_fuel fuel rest).
Proof.
  intros Hrest.
  set (q := quoted_char c). set (t := wildcard_item c).
  destruct c as [[] [] [] [] [] [] [] []]; vm_compute in q, t; subst q t;
    rewrite !append_cons, append_nil; simpl; rewrite ?Hrest; reflexivity.
Qed.

Lemma compile_wildcard_body (p : string) (fuel : nat) :
  String.length p <= fuel ->
  Regex.compile_fuel fuel (wildcard_body p) =
  Some (map wildcard_item (list_ascii_of_string p)).
Proof.
  revert fuel. induction p as [|c p IH]; intros fuel Hfuel.
  - now destruct fuel.
  - destruct fuel as [|fuel]; [simpl in Hfuel; lia|].
    rewrite wildcard_body_cons, compile_quoted_char by apply wildcard_body_no_star.
    rewrite IH by (simpl in Hfuel; lia). reflexivity.
Qed.

Lemma quoted_char_length (c : ascii) : 1 <= String.length (quoted_char c).
Proof.
  set (q := quoted_char c).
  destruct c as [[] [] [] [] [] [] [] []]; vm_compute in q; subst q; simpl; lia.
Qed.

Lemma wildcard_body_length (p : string) :
  String.length p <= String.length (wildcard_body p).
Proof.
  induction p as [|c p IH]; [reflexivity|].
  rewrite wildcard_body_cons, length_append.
  pose proof (quoted_char_length c). simpl. lia.
Qed.

(** The regular expression always compiles, and item by item it is the
    pattern itself, except that [*] stands for any number of dots and [?]
    for one dot. *)
Lemma wildcardMatch_items (name pattern : string) :
  wildcardMatch name pattern =
  Regex.match_items (wildcard_items pattern) (strtolower name).
Proof.
  unfold wildcardMatch, Regex.preg_match_anchored, Regex.compile, wildcard_items.
  fold (wildcard_body (strtolower pattern)).
  now rewrite compile_wildcard_body by apply wildcard_body_length.
Qed.

Lemma wildcard_loop_hit (db : Database) (n d : string) (ws : list Wildcard) :
  empty d = true ->
  (exists wc, wc ∈ ws /\ wildcardMatch n (pattern wc) = true) ->
  exists r, wildcard_loop db n d ws = Some r /\ confidence r = ConfWildcard.
Proof.
  intros Hd (wc & Hin & Hm).
  induction ws as [|x rest IH]; [now apply elem_of_nil in Hin|].
  simpl. rewrite Hd. simpl.
  destruct (wildcardMatch n (pattern x)) eqn:Hx.
  - eexists. split; [reflexivity|]. now destruct (cookie_at db (index x)).
  - apply elem_of_cons in Hin as [->|Hin]; [congruence|]. now apply IH.
Qed.

Lemma wildcard_loop_miss (db : Database) (n d : string) (ws : list Wildcard) :
  (forall wc, wc ∈ ws -> wildcardMatch n (pattern wc) = false) ->
  wildcard_loop db n d ws = None.
Proof.
  induction ws as [|x rest IH]; intros H; [reflexivity|].
  simpl. rewrite (H x) by apply list_elem_of_here.
  apply IH. intros wc Hwc. apply H. now apply list_elem_of_further.
Qed.

Lemma cookie_result_confidence (conf : Confidence) (c : option Cookie) :
  confidence (cookie_result conf c) = conf.
Proof. reflexivity. Qed.

(** C3 on the failing input.  The corpus holds the single wildcard record
    [_ga*] and the name is [_gat].  [wildcardMatch] quotes the pattern
    before it replaces the star, so the expression is [/^_ga\.*$/]: the
    star stands for dots only.  [_gat] is not matched and [categorize]
    finds nothing, where a star for any characters gives a wildcard match;
    [_ga] and [_ga..] are matched. *)
Theorem C3_star_matches_dots_only :
  wildcard_body "_ga*" = "_ga\.*"
  /\ wildcardMatch "_gat" "_ga*" = false
  /\ categorize no_rows offline_world (Some ga_database) "_gat" "" =
     (inr none_result, offline_world, Some ga_database)
  /\ (exists r, categorize no_rows offline_world (Some ga_database) "_ga" "" =
                (inr r, offline_world, Some ga_database)
                /\ confidence r = ConfWildcard)
  /\ wildcardMatch "_ga.." "_ga*" = true
  /\ wildcardMatch "abc" "a?c" = false /\ wildcardMatch "a.c" "a?c" = true.
Proof.
  split; [vm_compute; reflexivity|]. split; [vm_compute; reflexivity|].
  split; [vm_compute; reflexivity|]. split.
  - eexists. split; vm_compute; reflexivity.
  - repeat split; vm_compute; reflexivity.
Qed.

(** The spec's own example [_gid_abc] does not begin with [_ga]: no reading
    of the star lets [_ga*] match it. *)
Example gid_abc_is_not_matched :
  categorize no_rows offline_world (Some ga_database) "_gid_abc" "" =
  (inr none_result, offline_world, Some ga_database).
Proof. vm_compute. reflexivity. Qed.

(** The star of a pattern reaches the regular expression escaped
    ([_ga\.*]), so [_gat] is not matched by [_ga*] either. *)
Example wildcard_ga_star_on_gat :
  wildcardMatch "_gat" "_ga*" = false /\ wildcardMatch "_ga.." "_ga*" = true.
Proof. split; reflexivity. Qed.



(** *** Overrides *)

Lemma addOverride_ok (w : World) (name domain category reason : string) (w1 : World) :
  addOverride w name domain category reason = (inr true, w1) ->
  getOverrides w1 =
    <[overrideKey (strtolower name) (strtolower domain) :=
        {| ov_name := name; ov_domain := domain; ov_category := category;
           ov_reason := reason; ov_timestamp := clock w |}]> (getOverrides w)
  /\ cacheFile w1 = cacheFile w.
Proof.
  unfold addOverride. destruct (writable w); [|discriminate].
  intros H. inversion H as [Hw]. clear H Hw.
  unfold getOverrides, overrideKey. rewrite truthy_strtolower. simpl.
  split; [|reflexivity].
  destruct (overridesFile w); reflexivity.
Qed.

(** C7.  After a successful [addOverride(name, domain, category, reason)],
    with the database loaded, [categorize] of the same name and domain in
    any letter case returns that category with confidence override, and
    the entry matched is the one just written.  Adding again under the same
    key replaces the entry: the store equals the original one with the new
    entry, carrying the new timestamp, and holds the same keys as after
    the first call. *)
Theorem C7_override_wins_and_replaces parse (w : World)
    (name domain category reason : string) (w1 : World)
    (database : option Database) (b : bool) (w2 : World) (db : Database)
    (name' domain' : string)
    (Hadd : addOverride w name domain category reason = (inr true, w1))
    (Hname : strtolower name' = strtolower name)
    (Hdom : strtolower domain' = strtolower domain)
    (Hload : loadDatabase parse w1 database = (inr b, w2, Some db)) :
  categorize parse w1 database name' domain' =
    (inr {| category := Some category; confidence := ConfOverride;
            matched := MOverride
              {| ov_name := name; ov_domain := domain; ov_category := category;
                 ov_reason := reason; ov_timestamp := clock w |} |},
     w2, Some db)
  /\ forall (t : Z) (category2 reason2 : string) (w3 : World),
       addOverride (set_clock t w1) name' domain' category2 reason2 = (inr true, w3) ->
       getOverrides w3 =
         <[overrideKey (strtolower name) (strtolower domain) :=
             {| ov_name := name'; ov_domain := domain'; ov_category := category2;
                ov_reason := reason2; ov_timestamp := t |}]> (getOverrides w)
       /\ dom (getOverrides w3) = dom (getOverrides w1).
Proof.
  destruct (addOverride_ok _ _ _ _ _ _ Hadd) as [Hov1 _].
  split.
  - rewrite (categorize_loaded _ _ _ _ _ _ _ _ Hload). f_equal. f_equal.
    destruct (loadDatabase_overrides _ _ _ _ _ _ Hload) as [Hfile _].
    assert (Hsame : getOverrides w2 = getOverrides w1)
      by (unfold getOverrides; now rewrite Hfile).
    unfold categorize_in. rewrite Hname, Hdom, Hsame, Hov1.
    now rewrite lookup_insert_eq.
  - intros t category2 reason2 w3 Hadd2.
    destruct (addOverride_ok _ _ _ _ _ _ Hadd2) as [Hov3 _].
    rewrite Hname, Hdom in Hov3.
    change (getOverrides (set_clock t w1)) with (getOverrides w1) in Hov3.
    change (clock (set_clock t w1)) with t in Hov3.
    rewrite Hov3, Hov1. split.
    + apply insert_insert_eq.
    + rewrite insert_insert_eq. rewrite !dom_insert_L. reflexivity.
Qed.

Lemma C7_override_wins_and_replaces_witness :
  categorize no_rows overridden_world None "_FBP" "facebook.COM" =
  (inr {| category := Some "necessary"; confidence := ConfOverride;
          matched := MOverride
            {| ov_name := "_fbp"; ov_domain := "Facebook.com";
               ov_category := "necessary"; ov_reason := "login";
               ov_timestamp := clock sample_world |} |},
   overridden_world, Some sample_database).
Proof.
  refine (proj1 (C7_override_wins_and_replaces no_rows sample_world
           "_fbp" "Facebook.com" "necessary" "login" overridden_world None true
           overridden_world sample_database "_FBP" "facebook.COM" _ _ _ _));
    reflexivity.
Defined.

(** C8 on the failing input: no database in memory, no cache file, and the
    download fails.  [categorize] does not return [uncategorized]: the
    exception of [updateDatabase] leaves [loadDatabase] and [categorize]
    uncaught. *)
Theorem C8_categorize_throws_when_offline :
  categorize no_rows offline_world None "_ga" "" =
  (inl (Exception "Failed to download Open Cookie Database"), offline_world, None).
Proof. apply categorize_no_cache_no_download; reflexivity. Qed.

End CookieDatabaseFacts.

(** ** SHA-256: shape of the digest *)

Module SHA256Facts.
Import SHA256.

Lemma round_length (v : list Z) (kw : Z * Z) : length (round v kw) = length v.
Proof.
  destruct v as [|a [|b [|c [|d [|e [|f [|g [|h [|i v]]]]]]]]]; reflexivity.
Qed.

Lemma rounds_length (kws : list (Z * Z)) (v : list Z) :
  length (fold_left round kws v) = length v.
Proof.
  revert v; induction kws as [|kw kws IH]; intros v; simpl; [reflexivity|].
  now rewrite IH, round_length.
Qed.

Lemma compress_length (h block : list Z) : length (compress h block) = length h.
Proof.
  unfold compress.
  rewrite List.length_map, List.length_combine, rounds_length. lia.
Qed.

Lemma blocks_length (count : nat) (ws h : list Z) :
  length (blocks count ws h) = length h.
Proof.
  revert ws h; induction count as [|count IH]; intros ws h; simpl; [reflexivity|].
  now rewrite IH, compress_length.
Qed.

Lemma string_of_list_length (l : list ascii) :
  String.length (string_of_list_ascii l) = length l.
Proof. induction l as [|c l IH]; simpl; [reflexivity | now rewrite IH]. Qed.

Lemma hex_word_length (x : Z) : String.length (hex_word x) = 8.
Proof.
  unfold hex_word.
  now rewrite string_of_list_length, List.length_map, List.length_rev, List.length_seq.
Qed.

Lemma hex_words_length (ws : list Z) :
  String.length (hex_words ws) = 8 * length ws.
Proof.
  induction ws as [|x ws IH]; [reflexivity|].
  change (hex_words (x :: ws)) with (hex_word x ++ hex_words ws)%string.
  rewrite PHPFacts.length_append, hex_word_length, IH. simpl. lia.
Qed.

Lemma hash_sha256_length (s : string) : String.length (hash_sha256 s) = 64.
Proof.
  unfold hash_sha256, digest. now rewrite hex_words_length, blocks_length.
Qed.

Example hash_sha256_abc :
  hash_sha256 "abc" =
  "ba7816bf8f01cfea414140de5dae2223b00361a396177a9cb410ff61f20015ad".
Proof. vm_compute. reflexivity. Qed.

End SHA256Facts.

(** ** ConsentLogger *)

Module ConsentLoggerFacts.
Import ConsentLogger.

(** C9, as stated, fails: the identifier [test123] of the installation
    guide is not recorded; the entry carries the SHA-256 digest of the
    identifier followed by the remote address. *)
Lemma C9_short_session_id_is_hashed :
  exists e,
    snd (fst (log sample_world reject_all "test123" "1.0.0" "1.0.0" ∅)) = Some e
    /\ sessionId e = "00d5dcfc3190e37c8bc51144e90990850a8c4668560d076af692aadf33a281b4"
    /\ sessionId e <> "test123".
Proof.
  eexists. split; [reflexivity|]. split; [vm_compute; reflexivity|].
  vm_compute. discriminate.
Qed.

(** C9, amended.  For every call of [log] with a valid consent state, the
    entry handed to the store carries the consent state, the versions and
    the clock as given, and the caller's session identifier unmodified when
    it is at least 32 bytes long; a shorter identifier is replaced by the
    SHA-256 digest (64 hexadecimal digits) of the identifier followed by the
    remote address. *)
Theorem C9_session_id_recorded (w : World) (state : JVal)
    (sid wv pv : string) (md : gmap string string)
    (Hvalid : is_array state && truthy state = true) :
  exists e,
    snd (fst (log w state sid wv pv md)) = Some e
    /\ consentState e = state /\ widgetVersion e = wv /\ policyVersion e = pv
    /\ timestamp e = clock w
    /\ (32 <= PHP.strlen sid -> sessionId e = sid)
    /\ (PHP.strlen sid < 32 ->
        sessionId e = SHA256.hash_sha256 (sid ++ default "" (REMOTE_ADDR w))
        /\ sessionId e <> sid).
Proof.
  apply andb_prop in Hvalid as [Ha Ht].
  exists (make_entry w state sid wv pv md). unfold log. rewrite Ha, Ht. simpl.
  split; [now destruct (appendable w)|].
  repeat split; unfold logged_sessionId.
  - intros H. destruct (Nat.ltb_spec (PHP.strlen sid) 32); [lia | reflexivity].
  - destruct (Nat.ltb_spec (PHP.strlen sid) 32); [reflexivity | lia].
  - destruct (Nat.ltb_spec (PHP.strlen sid) 32); [|lia].
    intros E. apply (f_equal String.length) in E.
    rewrite SHA256Facts.hash_sha256_length in E. unfold PHP.strlen in *. lia.
Qed.

Lemma C9_session_id_recorded_witness :
  exists e,
    snd (fst (log sample_world reject_all "0123456789abcdef0123456789abcdef"
                "1.0.0" "1.0.0" ∅)) = Some e
    /\ sessionId e = "0123456789abcdef0123456789abcdef".
Proof.
  destruct (C9_session_id_recorded sample_world reject_all
              "0123456789abcdef0123456789abcdef" "1.0.0" "1.0.0" ∅)
    as (e & He & _ & _ & _ & _ & Hlong & _); [reflexivity|].
  exists e. split; [exact He|]. apply Hlong. vm_compute. lia.
Defined.

(** *** Statistics *)

Lemma tally_flags (l : list (string * JVal)) (t : Tally) :
  allAccepted (fold_left tally_step l t) =
    allAccepted t
    && forallb (fun kv => truthy (snd kv) || String.eqb (fst kv) "necessary") l
  /\ allRejected (fold_left tally_step l t) =
    allRejected t && forallb (fun kv => negb (truthy (snd kv))) l.
Proof.
  revert t; induction l as [|[k v] l IH]; intros t; simpl.
  - now rewrite !andb_true_r.
  - destruct (IH (tally_step t (k, v))) as [-> ->].
    unfold tally_step; simpl.
    destruct (truthy v); simpl.
    + split; [reflexivity | now rewrite andb_false_r].
    + destruct (String.eqb k "necessary"); simpl;
        [split; reflexivity | split; [now rewrite andb_false_r | reflexivity]].
Qed.

Lemma tally_allAccepted (byCat : gmap string CategoryCount) (state : JVal) :
  allAccepted (tally byCat state) =
  forallb (fun kv => truthy (snd kv) || String.eqb (fst kv) "necessary")
    (entries state).
Proof. unfold tally. now rewrite (proj1 (tally_flags _ _)). Qed.

Lemma tally_allRejected (byCat : gmap string CategoryCount) (state : JVal) :
  allRejected (tally byCat state) =
  forallb (fun kv => negb (truthy (snd kv))) (entries state).
Proof. unfold tally. now rewrite (proj2 (tally_flags _ _)). Qed.

Lemma getStats_last (w : World) (days : Z) (logs : list LogEntry) (e : LogEntry) :
  logFile w = Some (logs ++ [e])%list ->
  getStats w days =
  StatsOf (stats_step (cutoff_of w days)
             (fold_left (stats_step (cutoff_of w days)) logs empty_stats) e).
Proof.
  intros H. unfold getStats. rewrite H.
  destruct (logs ++ [e])%list eqn:E; [now destruct logs|].
  rewrite <- E. now rewrite fold_left_app.
Qed.

(** C10.  In [getStats], for a log entry inside the period: when its
    consent state accepts [necessary] and refuses every other category (the
    decision of [rejectAll]) the entry is counted under [customized], not
    under [rejectedAll]; [rejectedAll] grows only when every category of the
    entry, [necessary] included, is refused; an entry with an empty consent
    state is counted under [acceptedAll]. *)
Theorem C10_stats_classification (w : World) (days : Z)
    (logs : list LogEntry) (e : LogEntry)
    (Hlog : logFile w = Some (logs ++ [e])%list)
    (Hperiod : (0 <? cutoff_of w days)%Z && (timestamp e <? cutoff_of w days)%Z = false) :
  let before := fold_left (stats_step (cutoff_of w days)) logs empty_stats in
  exists after,
    getStats w days = StatsOf after
    /\ (necessary_only (consentState e) ->
        customized after = S (customized before)
        /\ rejectedAll after = rejectedAll before
        /\ acceptedAll after = acceptedAll before)
    /\ (rejectedAll after = S (rejectedAll before) ->
        forall k v, (k, v) ∈ entries (consentState e) -> truthy v = false)
    /\ (entries (consentState e) = [] ->
        acceptedAll after = S (acceptedAll before)
        /\ rejectedAll after = rejectedAll before
        /\ customized after = customized before).
Proof.
  intros before. eexists. split; [apply getStats_last; exact Hlog|].
  fold before. unfold stats_step. rewrite Hperiod. simpl.
  rewrite tally_allAccepted, tally_allRejected.
  split; [|split].
  - intros (Hall & (v & Hnec) & (k' & v' & Hin & Hk')).
    assert (HA : forallb (fun kv => truthy (snd kv) || String.eqb (fst kv) "necessary")
                   (entries (consentState e)) = false).
    { apply not_true_is_false. intros HA.
      rewrite forallb_forall in HA.
      specialize (HA (k', v') (proj1 (list_elem_of_In _ _) Hin)). simpl in HA.
      rewrite (Hall k' v' Hin) in HA.
      destruct (String.eqb_spec k' "necessary"); [congruence | discriminate]. }
    assert (HR : forallb (fun kv => negb (truthy (snd kv)))
                   (entries (consentState e)) = false).
    { apply not_true_is_false. intros HR.
      rewrite forallb_forall in HR.
      specialize (HR ("necessary", v) (proj1 (list_elem_of_In _ _) Hnec)).
      simpl in HR. now rewrite (Hall "necessary" v Hnec) in HR. }
    now rewrite HA, HR.
  - destruct (forallb (fun kv => truthy (snd kv) || String.eqb (fst kv) "necessary")
                (entries (consentState e))); [lia|].
    destruct (forallb (fun kv => negb (truthy (snd kv))) (entries (consentState e)))
      eqn:HR; [|lia].
    intros _ k v Hin. rewrite forallb_forall in HR.
    specialize (HR (k, v) (proj1 (list_elem_of_In _ _) Hin)). simpl in HR.
    now destruct (truthy v).
  - intros ->. now simpl.
Qed.

Lemma C10_stats_classification_witness :
  exists after,
    getStats
      {| logFile := Some [sample_entry 1699990000 (JArr []);
                          sample_entry 1699999000 reject_all];
         appendable := true; clock := 1700000000;
         REMOTE_ADDR := None; HTTP_USER_AGENT := None |} 30 = StatsOf after
    /\ customized after = 1 /\ rejectedAll after = 0 /\ acceptedAll after = 1.
Proof.
  destruct (C10_stats_classification
              {| logFile := Some [sample_entry 1699990000 (JArr []);
                                  sample_entry 1699999000 reject_all];
                 appendable := true; clock := 1700000000;
                 REMOTE_ADDR := None; HTTP_USER_AGENT := None |} 30
              [sample_entry 1699990000 (JArr [])]
              (sample_entry 1699999000 reject_all))
    as (after & Hget & Hcustom & _); [reflexivity | reflexivity |].
  exists after. split; [exact Hget|].
  destruct Hcustom as (Hc & Hr & Ha).
  - split; [|split].
    + intros k v Hin. simpl in Hin.
      repeat (apply elem_of_cons in Hin as [Hin|Hin];
              [injection Hin as -> ->; reflexivity|]).
      now apply elem_of_nil in Hin.
    + exists (JBool true). apply list_elem_of_here.
    + exists "preferences", (JBool false). split; [|discriminate].
      apply list_elem_of_further, list_elem_of_here.
  - rewrite Hc, Hr, Ha. split; [|split]; reflexivity.
Defined.

End ConsentLoggerFacts.

(** ** CMP *)

Module CMPFacts.
Import CMP.

(** *** Attributes *)

Lemma getAttribute_setAttribute_eq (attrs : list (string * string)) (k v : string) :
  getAttribute (setAttribute attrs k v) k = Some v.
Proof.
  induction attrs as [|[k' v'] attrs IH]; simpl.
  - now rewrite String.eqb_refl.
  - destruct (String.eqb_spec k' k) as [->|NE]; simpl.
    + now rewrite String.eqb_refl.
    + destruct (String.eqb_spec k' k); [congruence | exact IH].
Qed.

Lemma getAttribute_setAttribute_ne (attrs : list (string * string)) (k k' v : string) :
  k <> k' -> getAttribute (setAttribute attrs k v) k' = getAttribute attrs k'.
Proof.
  intros NE. induction attrs as [|[a b] attrs IH]; simpl.
  - destruct (String.eqb_spec k k'); [congruence | reflexivity].
  - destruct (String.eqb_spec a k) as [->|Hak]; simpl.
    + destruct (String.eqb_spec k k'); [congruence | reflexivity].
    + destruct (String.eqb_spec a k'); [reflexivity | exact IH].
Qed.

(** *** The document under replacement *)

Lemma existsb_eqb_elem (s : nat) (l : list nat) :
  existsb (Nat.eqb s) l = true <-> s ∈ l.
Proof.
  rewrite existsb_exists, list_elem_of_In. split.
  - intros (x & Hx & E). apply Nat.eqb_eq in E. now subst.
  - intros H. exists s. split; [exact H | apply Nat.eqb_refl].
Qed.

Lemma replace_id_lookup (old new : nat) (doc : list nat) (i s : nat) :
  doc !! i = Some s -> s <> old -> replace_id old new doc !! i = Some s.
Proof.
  intros H NE. unfold replace_id. rewrite list_lookup_fmap, H. simpl.
  destruct (Nat.eqb_spec s old); [congruence | reflexivity].
Qed.

Lemma replace_id_keeps (old new : nat) (doc : list nat) (s : nat) :
  s ∈ doc -> s <> old -> s ∈ replace_id old new doc.
Proof.
  intros H NE. apply list_elem_of_lookup in H as [i Hi].
  apply list_elem_of_lookup. exists i. now apply replace_id_lookup.
Qed.

Lemma replace_id_elem (old new : nat) (doc : list nat) (x : nat) :
  x ∈ replace_id old new doc -> x = new \/ x ∈ doc.
Proof.
  unfold replace_id. intros H. apply list_elem_of_fmap in H as (y & -> & Hy).
  destruct (Nat.eqb_spec y old); [now left | now right].
Qed.

(** *** Elements in executable form are out of reach of consent calls *)

Lemma element_holds (st : State) (i : nat) (n : Node) :
  element st i = Some n <-> exists s, holds st i s n.
Proof.
  unfold element, holds. split.
  - destruct (document st !! i) as [s|]; [|discriminate]. simpl. now exists s.
  - intros (s & -> & H). exact H.
Qed.

Lemma unblock_each_holds (c : Consent) (entries : list (nat * string))
    (st : State) (i s : nat) (n : Node) :
  is_active n = true -> holds st i s n ->
  holds (fst (unblock_each c entries st)) i s n.
Proof.
  intros Hact. revert st.
  induction entries as [|[script category] rest IH]; intros st [Hd Hn];
    [now split|].
  simpl. destruct (js_get (state c) category); [|now apply IH].
  destruct (nodes st !! script) as [node|] eqn:Hnode; [|now apply IH].
  destruct (String.eqb (script_type node) "text/plain") eqn:Htype;
    [|now apply IH].
  assert (Hne : s <> script).
  { intros ->. rewrite Hnode in Hn. injection Hn as ->.
    unfold is_active in Hact. now rewrite Htype in Hact. }
  assert (Hn' : (nodes st ++ [clone node])%list !! s = Some n)
    by now apply lookup_app_l_Some.
  destruct (existsb (Nat.eqb script) (document st)).
  - apply IH. split; simpl; [now apply replace_id_lookup | exact Hn'].
  - split; simpl; [exact Hd | exact Hn'].
Qed.

Lemma applyConsent_holds (st : State) (i s : nat) (n : Node) :
  is_active n = true -> holds st i s n -> holds (fst (applyConsent st)) i s n.
Proof.
  intros Hact H. unfold applyConsent.
  destruct (consent st) as [c|]; [|exact H].
  pose proof (unblock_each_holds c (blockedScripts st)
                (emit [ConsoleLog "CMP: Applying consent"] st) i s n Hact H) as Hloop.
  destruct (unblock_each c (blockedScripts st) _) as [st' [|e]]; exact Hloop.
Qed.

Lemma saveConsent_holds (now : Z) (ok : bool) (cs : gmap string bool)
    (st : State) (i s : nat) (n : Node) :
  is_active n = true -> holds st i s n ->
  holds (fst (saveConsent now ok cs st)) i s n.
Proof.
  intros Hact H. unfold saveConsent. cbv zeta.
  match goal with
  | |- context [applyConsent ?st3] =>
      pose proof (applyConsent_holds st3 i s n Hact) as Happly;
      destruct (applyConsent st3) as [st4 [|e]]
  end; apply Happly; destruct ok; exact H.
Qed.

(** *** Discovery *)

Lemma handleScript_holds (script : nat) (st : State) (i s : nat) (n : Node) :
  s <> script -> holds st i s n -> holds (handleScript script st) i s n.
Proof.
  intros NE [Hd Hn]. unfold handleScript.
  destruct (nodes st !! script) as [node|]; [|now split].
  destruct (getAttribute (attributes node) "data-category") as [category|];
    [|now split].
  destruct (String.eqb category ""); [now split|].
  destruct (String.eqb category "necessary"); [now split|].
  destruct (negb (consented st category)).
  - destruct (negb (String.eqb (script_type node) "text/plain")); [|now split].
    split; simpl; [exact Hd|]. now rewrite list_lookup_insert_ne.
  - destruct (String.eqb (script_type node) "text/plain"
              && attr_truthy (getAttribute (attributes node) "data-blocked"));
      [|now split].
    split; simpl; [exact Hd|]. now rewrite list_lookup_insert_ne.
Qed.

Lemma discover_holds (m : Node) (st : State) (i s : nat) (n : Node) :
  holds st i s n -> holds (discover m st) i s n.
Proof.
  intros [Hd Hn]. unfold discover. apply handleScript_holds.
  - apply lookup_lt_Some in Hn. lia.
  - split; simpl; now apply lookup_app_l_Some.
Qed.

Lemma blocked_form (node : Node) :
  is_blocked
    {| attributes :=
         setAttribute (attributes (set_type node "text/plain")) "data-blocked" "true";
       textContent := textContent (set_type node "text/plain") |} = true.
Proof.
  unfold is_blocked, script_type, set_type. simpl.
  rewrite getAttribute_setAttribute_ne by discriminate.
  rewrite !getAttribute_setAttribute_eq. reflexivity.
Qed.

Lemma discover_blocks (st : State) (m : Node) (X : string) :
  getAttribute (attributes m) "data-category" = Some X ->
  X <> "" -> X <> "necessary" -> is_active m = true -> consented st X = false ->
  exists m',
    holds (discover m st) (length (document st)) (length (nodes st)) m'
    /\ is_blocked m' = true
    /\ blockedScripts (discover m st) =
       (blockedScripts st ++ [(length (nodes st), X)])%list.
Proof.
  intros Hattr Hne Hnn Hact Hcons. unfold discover, handleScript. simpl.
  rewrite list_lookup_middle by reflexivity. rewrite Hattr.
  destruct (String.eqb_spec X ""); [congruence|].
  destruct (String.eqb_spec X "necessary"); [congruence|].
  unfold consented in *. simpl. rewrite Hcons. simpl.
  unfold is_active in Hact. rewrite Hact.
  eexists. split; [|split; [apply blocked_form | reflexivity]].
  split; simpl.
  - now rewrite list_lookup_middle.
  - apply list_lookup_insert_eq. rewrite length_app. simpl. lia.
Qed.

(** C2 on the failing input.  A marketing script is discovered and blocked;
    a consent call grants marketing and the clone in slot 0 is in executable
    form.  A second consent call of the same task revokes marketing; the
    observer then reports the clone, and [handleScript] puts it into
    placeholder form and lists it: the Active element is Blocked again.  A
    later grant replaces it once more, so the script is inserted in
    executable form a second time.  Had the clone been reported before the
    revocation, it would have stayed as it was. *)
Theorem C2_revocation_reblocks_active_clone :
  let st0 := run [Discover marketing_script; SaveConsent 1 true accept_all_state] in
  let st1 := fold_left step [SaveConsent 2 true reject_all_state; Deliver 1] st0 in
  let st2 := step st1 (SaveConsent 3 true accept_all_state) in
  document st0 = [1]
  /\ is_active <$> element st0 0 = Some true
  /\ consented st1 "marketing" = false
  /\ is_blocked <$> element st1 0 = Some true
  /\ blockedScripts st1 = [(1, "marketing")]
  /\ replaced (trace st2) = [0; 1]
  /\ is_active <$>
       element (fold_left step [Deliver 1; SaveConsent 2 true reject_all_state] st0) 0
     = Some true.
Proof. vm_compute. repeat split; reflexivity. Qed.

(** *** Consent calls on well-formed states *)

Lemma unblock_each_normal (c : Consent) (entries : list (nat * string)) (st : State) :
  NoDup (fst <$> entries) ->
  (forall s, s ∈ (fst <$> entries) -> s ∈ document st) ->
  (forall s, s ∈ document st -> s < length (nodes st)) ->
  exists gate st',
    unblock_each c entries st = (st', Normal)
    /\ trace st' = (trace st ++ gate)%list
    /\ Forall gate_effect gate
    /\ consent st' = consent st
    /\ localStorage st' = localStorage st
    /\ blockedScripts st' = blockedScripts st
    /\ (forall s, s ∈ document st' -> s < length (nodes st')).
Proof.
  revert st. induction entries as [|[script category] rest IH];
    intros st Hnd Hin Hdoc.
  - exists [], st. rewrite app_nil_r. repeat split; [constructor | exact Hdoc].
  - rewrite fmap_cons in Hnd, Hin. simpl in Hnd, Hin.
    apply NoDup_cons in Hnd as [Hfresh Hnd].
    assert (Hrest : forall s, s ∈ (fst <$> rest) -> s ∈ document st)
      by (intros s Hs; apply Hin; now right).
    simpl. destruct (js_get (state c) category); [|now apply IH].
    destruct (nodes st !! script) as [node|]; [|now apply IH].
    destruct (String.eqb (script_type node) "text/plain"); [|now apply IH].
    assert (Hscript : script ∈ document st) by (apply Hin; now left).
    rewrite (proj2 (existsb_eqb_elem script (document st)) Hscript).
    match goal with
    | |- context [unblock_each c rest ?st2] =>
        destruct (IH st2) as (gate & st' & Hrun & Htrace & Hgate & Hc & Hl & Hb & Hd);
          [exact Hnd | | | ]
    end.
    + intros s Hs. simpl. apply replace_id_keeps; [now apply Hrest|].
      intros ->. contradiction.
    + intros s Hs. simpl in *. rewrite length_app. simpl.
      apply replace_id_elem in Hs as [->|Hs]; [lia|].
      specialize (Hdoc s Hs). lia.
    + exists ([ReplaceChild (length (nodes st)) script;
               ConsoleLog ("CMP: Executed blocked script " ++ category)] ++ gate)%list,
             st'.
      split; [exact Hrun|]. simpl in Htrace.
      split; [rewrite Htrace; now rewrite <- !app_assoc|].
      split; [repeat constructor; exact Hgate|].
      repeat split; assumption.
Qed.

Lemma well_formed_init : well_formed init_state.
Proof.
  repeat split; simpl.
  - constructor.
  - intros s Hs. now apply elem_of_nil in Hs.
  - intros s Hs. now apply elem_of_nil in Hs.
Qed.

Lemma saveConsent_normal (now : Z) (ok : bool) (cs : gmap string bool) (st : State) :
  well_formed st ->
  exists gate st',
    saveConsent now ok cs st = (st', Normal)
    /\ trace st' =
       (trace st
        ++ persist_effects ok {| state := cs; timestamp := now; consent_version := version |}
        ++ [LogConsent cs; ConsoleLog "CMP: Applying consent"]
        ++ gate
        ++ [DispatchEvent "cmp:consent-changed" cs])%list
    /\ Forall gate_effect gate
    /\ consent st' = Some {| state := cs; timestamp := now; consent_version := version |}
    /\ localStorage st' =
       (if ok then Some {| state := cs; timestamp := now; consent_version := version |}
        else localStorage st)
    /\ blockedScripts st' = []
    /\ well_formed st'.
Proof.
  intros (Hnd & Hin & Hdoc). unfold saveConsent, applyConsent. cbv zeta.
  set (c := {| state := cs; timestamp := now; consent_version := version |}).
  destruct ok; simpl.
  - match goal with
    | |- context [unblock_each c ?es ?st0] =>
        destruct (unblock_each_normal c es st0 Hnd Hin Hdoc)
          as (gate & st' & Hrun & Htrace & Hgate & Hc & Hl & Hb & Hd)
    end.
    rewrite Hrun. exists gate. eexists. split; [reflexivity|]. simpl.
    split; [rewrite Htrace; simpl; now rewrite <- !app_assoc|].
    split; [exact Hgate|]. split; [exact Hc|]. split; [exact Hl|].
    split; [reflexivity|].
    repeat split; simpl; [constructor | | exact Hd].
    intros s Hs. now apply elem_of_nil in Hs.
  - match goal with
    | |- context [unblock_each c ?es ?st0] =>
        destruct (unblock_each_normal c es st0 Hnd Hin Hdoc)
          as (gate & st' & Hrun & Htrace & Hgate & Hc & Hl & Hb & Hd)
    end.
    rewrite Hrun. exists gate. eexists. split; [reflexivity|]. simpl.
    split; [rewrite Htrace; simpl; now rewrite <- !app_assoc|].
    split; [exact Hgate|]. split; [exact Hc|]. split; [exact Hl|].
    split; [reflexivity|].
    repeat split; simpl; [constructor | | exact Hd].
    intros s Hs. now apply elem_of_nil in Hs.
Qed.

Lemma discover_well_formed (m : Node) (st : State) :
  well_formed st -> well_formed (discover m st).
Proof.
  intros (Hnd & Hin & Hdoc).
  assert (Hdoc' : forall s, s ∈ (document st ++ [length (nodes st)])%list ->
                            s < length (nodes st ++ [m])%list).
  { intros s Hs. rewrite length_app. simpl.
    apply elem_of_app in Hs as [Hs|Hs]; [specialize (Hdoc s Hs); lia|].
    apply list_elem_of_singleton in Hs. lia. }
  assert (Hin' : forall s, s ∈ (fst <$> blockedScripts st) ->
                           s ∈ (document st ++ [length (nodes st)])%list)
    by (intros s Hs; apply elem_of_app; left; now apply Hin).
  unfold discover, handleScript. simpl.
  rewrite list_lookup_middle by reflexivity.
  destruct (getAttribute (attributes m) "data-category") as [category|];
    [|now repeat split].
  destruct (String.eqb category ""); [now repeat split|].
  destruct (String.eqb category "necessary"); [now repeat split|].
  destruct (negb _).
  - destruct (negb _); [|now repeat split].
    repeat split; simpl.
    + rewrite fmap_app. apply NoDup_app. split; [exact Hnd|]. split.
      * intros s Hs Hs'. apply list_elem_of_singleton in Hs'.
        pose proof (Hdoc _ (Hin _ Hs)) as Hlt. simpl in Hs'. lia.
      * apply NoDup_singleton.
    + intros s Hs. rewrite fmap_app in Hs.
      apply elem_of_app in Hs as [Hs|Hs]; [now apply Hin'|].
      apply elem_of_app. right. exact Hs.
    + intros s Hs. rewrite length_insert. now apply Hdoc'.
  - destruct (_ && _); [|now repeat split].
    repeat split; simpl; [exact Hnd | exact Hin'|].
    intros s Hs. rewrite length_insert. now apply Hdoc'.
Qed.

(** *** States the page can reach *)

Lemma listed_is_placeholder (st : State) (script : nat) (node : Node) :
  listed_blocked st -> nodes st !! script = Some node ->
  script ∈ (fst <$> blockedScripts st) ->
  script_type node = "text/plain"
  /\ exists X, getAttribute (attributes node) "data-category" = Some X
               /\ consented st X = false.
Proof.
  intros Hlb Hnode H. apply list_elem_of_fmap in H as ([s X] & -> & Hel).
  destruct (Hlb _ _ Hel) as (Hno & n & Hn & Hc & Ht). simpl in Hnode.
  rewrite Hnode in Hn. injection Hn as <-. split; [exact Ht|]. now exists X.
Qed.

Lemma listed_blocked_set_node (st st' : State) (script : nat) :
  listed_blocked st -> script ∉ (fst <$> blockedScripts st) ->
  consent st' = consent st -> blockedScripts st' = blockedScripts st ->
  (forall s, s <> script -> nodes st' !! s = nodes st !! s) ->
  listed_blocked st'.
Proof.
  intros Hlb Hout Hc Hb Hn s X Hel. rewrite Hb in Hel.
  destruct (Hlb s X Hel) as (Hno & n & Hs & Hcat & Ht).
  split; [unfold consented in *; now rewrite Hc|].
  exists n. split; [|now split]. rewrite Hn; [exact Hs|].
  intros ->. apply Hout. apply list_elem_of_fmap. now exists (script, X).
Qed.

(** The gate keeps the invariant when it is handed a script of the
    document, new or not. *)
Lemma handleScript_gate_invariant (script : nat) (st : State) :
  gate_invariant st -> script ∈ document st ->
  gate_invariant (handleScript script st).
Proof.
  intros [(Hnd & Hin & Hdoc) Hlb] Hs. unfold handleScript.
  destruct (nodes st !! script) as [node|] eqn:Hnode; [|now split].
  destruct (getAttribute (attributes node) "data-category") as [X|] eqn:Hcat;
    [|now split].
  destruct (String.eqb X ""); [now split|].
  destruct (String.eqb X "necessary"); [now split|].
  assert (Hlt : script < length (nodes st)) by now apply Hdoc.
  destruct (consented st X) eqn:Hcons; cbn [negb].
  - destruct (String.eqb (script_type node) "text/plain"
              && attr_truthy (getAttribute (attributes node) "data-blocked"));
      [|now split].
    assert (Hout : script ∉ (fst <$> blockedScripts st)).
    { intros H. destruct (listed_is_placeholder st script node Hlb Hnode H)
        as (_ & X' & HX' & Hno). rewrite Hcat in HX'. injection HX' as <-.
      congruence. }
    split.
    + repeat split; simpl; [exact Hnd | exact Hin|].
      intros s Hs'. rewrite length_insert. now apply Hdoc.
    + eapply listed_blocked_set_node; [exact Hlb | exact Hout | reflexivity
                                      | reflexivity|].
      intros s Hne. simpl. now rewrite list_lookup_insert_ne.
  - destruct (String.eqb (script_type node) "text/plain") eqn:Ht; cbn [negb];
      [now split|].
    assert (Hout : script ∉ (fst <$> blockedScripts st)).
    { intros H. destruct (listed_is_placeholder st script node Hlb Hnode H)
        as (Ht' & _). rewrite Ht' in Ht. discriminate. }
    split.
    + repeat split; simpl.
      * rewrite fmap_app. apply NoDup_app. split; [exact Hnd|]. split.
        -- intros s Hs1 Hs2. apply list_elem_of_singleton in Hs2. simpl in Hs2.
           subst s. contradiction.
        -- apply NoDup_singleton.
      * intros s Hs'. rewrite fmap_app in Hs'.
        apply elem_of_app in Hs' as [Hs'|Hs']; [now apply Hin|].
        apply list_elem_of_singleton in Hs'. simpl in Hs'. now subst s.
      * intros s Hs'. rewrite length_insert. now apply Hdoc.
    + intros s X' Hel. simpl in Hel. apply elem_of_app in Hel as [Hel|Hel].
      * destruct (Hlb s X' Hel) as (Hno & n & Hn & Hc & Htn).
        split; [exact Hno|]. exists n. split; [|now split]. simpl.
        rewrite list_lookup_insert_ne; [exact Hn|].
        intros ->. apply Hout. apply list_elem_of_fmap. now exists (s, X').
      * apply list_elem_of_singleton in Hel. injection Hel as -> ->.
        split; [exact Hcons|]. eexists. split.
        { simpl. apply list_lookup_insert_eq. exact Hlt. }
        cbn [attributes set_type textContent]. split.
        -- rewrite !getAttribute_setAttribute_ne by discriminate. exact Hcat.
        -- unfold script_type. cbn [attributes].
           rewrite getAttribute_setAttribute_ne by discriminate.
           now rewrite getAttribute_setAttribute_eq.
Qed.

Lemma gate_invariant_init : gate_invariant init_state.
Proof.
  split; [apply well_formed_init|]. intros s X H. now apply elem_of_nil in H.
Qed.

Lemma discover_gate_invariant (m : Node) (st : State) :
  gate_invariant st -> gate_invariant (discover m st).
Proof.
  intros [(Hnd & Hin & Hdoc) Hlb]. unfold discover.
  apply handleScript_gate_invariant.
  - split; [repeat split; simpl|].
    + exact Hnd.
    + intros s Hs. apply elem_of_app. left. now apply Hin.
    + intros s Hs. rewrite length_app. simpl.
      apply elem_of_app in Hs as [Hs|Hs]; [specialize (Hdoc s Hs); lia|].
      apply list_elem_of_singleton in Hs. lia.
    + intros s X Hel. simpl in Hel.
      destruct (Hlb s X Hel) as (Hno & n & Hn & Hc & Ht).
      split; [exact Hno|]. exists n. split; [|now split].
      simpl. now apply lookup_app_l_Some.
  - simpl. apply elem_of_app. right. now left.
Qed.

Lemma saveConsent_gate_invariant (now : Z) (ok : bool) (cs : gmap string bool)
    (st : State) :
  well_formed st -> gate_invariant (fst (saveConsent now ok cs st)).
Proof.
  intros Hwf.
  destruct (saveConsent_normal now ok cs st Hwf)
    as (gate & st' & -> & _ & _ & _ & _ & Hb & Hwf').
  split; [exact Hwf'|]. intros s X H. simpl in H. rewrite Hb in H.
  now apply elem_of_nil in H.
Qed.

Lemma step_gate_invariant (st : State) (e : Event) :
  gate_invariant st -> gate_invariant (step st e).
Proof.
  intros H. destruct e as [n | now ok cs | script]; simpl.
  - now apply discover_gate_invariant.
  - apply saveConsent_gate_invariant, H.
  - destruct (existsb (Nat.eqb script) (document st)) eqn:E; [|exact H].
    apply handleScript_gate_invariant; [exact H|]. now apply existsb_eqb_elem.
Qed.

Lemma steps_gate_invariant (es : list Event) (st : State) :
  gate_invariant st -> gate_invariant (fold_left step es st).
Proof.
  revert st. induction es as [|e es IH]; intros st H; [exact H|].
  apply IH. now apply step_gate_invariant.
Qed.

Lemma run_gate_invariant (es : list Event) : gate_invariant (run es).
Proof. apply steps_gate_invariant, gate_invariant_init. Qed.

(** Every state a page can reach is well formed. *)
Lemma run_well_formed (es : list Event) : well_formed (run es).
Proof. apply run_gate_invariant. Qed.

(** One pass of the gate replaces the granted placeholders of
    [blockedScripts] in list order (the order of discovery), each once. *)
Lemma unblock_each_replaced (c : Consent) (entries : list (nat * string)) (st : State) :
  NoDup (fst <$> entries) ->
  (forall s, s ∈ (fst <$> entries) -> s ∈ document st) ->
  (forall s, s ∈ document st -> s < length (nodes st)) ->
  replaced (trace (fst (unblock_each c entries st))) =
  (replaced (trace st) ++ (fst <$> List.filter (unblocks c st) entries))%list.
Proof.
  revert st. induction entries as [|[script category] rest IH];
    intros st Hnd Hin Hdoc.
  - simpl. now rewrite app_nil_r.
  - rewrite fmap_cons in Hnd, Hin. simpl in Hnd, Hin.
    apply NoDup_cons in Hnd as [Hfresh Hnd].
    assert (Hrest : forall s, s ∈ (fst <$> rest) -> s ∈ document st)
      by (intros s Hs; apply Hin; now right).
    simpl. unfold unblocks at 1. simpl.
    destruct (js_get (state c) category); simpl; [|now apply IH].
    destruct (nodes st !! script) as [node|]; [|now apply IH].
    destruct (String.eqb (script_type node) "text/plain"); [|now apply IH].
    assert (Hscript : script ∈ document st) by (apply Hin; now left).
    rewrite (proj2 (existsb_eqb_elem script (document st)) Hscript).
    rewrite IH; [| exact Hnd | | ].
    + simpl. unfold replaced at 1. rewrite !omap_app. simpl.
      rewrite app_nil_r, <- app_assoc. simpl. do 3 f_equal.
      apply List.filter_ext_in. intros [s cat] Hs. unfold unblocks. simpl.
      assert (Hlt : s < length (nodes st)).
      { apply Hdoc, Hrest, list_elem_of_fmap. exists (s, cat).
        split; [reflexivity | now apply list_elem_of_In]. }
      now rewrite lookup_app_l.
    + intros s Hs. simpl. apply replace_id_keeps; [now apply Hrest|].
      intros ->. contradiction.
    + intros s Hs. simpl in *. rewrite length_app. simpl.
      apply replace_id_elem in Hs as [->|Hs]; [lia|].
      specialize (Hdoc s Hs). lia.
Qed.

(** A consent call leaves [blockedScripts] empty, so the call after it
    finds nothing to unblock, whatever it grants: the page is unchanged. *)
Lemma later_call_replaces_nothing (now : Z) (ok : bool) (cs : gmap string bool)
    (st : State) :
  blockedScripts st = [] ->
  nodes (fst (saveConsent now ok cs st)) = nodes st
  /\ document (fst (saveConsent now ok cs st)) = document st
  /\ replaced (trace (fst (saveConsent now ok cs st))) = replaced (trace st).
Proof.
  intros Hb. unfold saveConsent, applyConsent. cbv zeta.
  destruct ok; simpl; rewrite Hb; simpl; unfold replaced; rewrite !omap_app; simpl;
    now rewrite !app_nil_r.
Qed.

Lemma unblock_each_skips (c : Consent) (entries : list (nat * string))
    (st : State) (i s : nat) (n : Node) :
  (forall cat, (s, cat) ∈ entries -> js_get (state c) cat = false) ->
  holds st i s n -> holds (fst (unblock_each c entries st)) i s n.
Proof.
  revert st. induction entries as [|[script category] rest IH];
    intros st Hskip [Hd Hn]; [now split|].
  assert (Hrest : forall cat, (s, cat) ∈ rest -> js_get (state c) cat = false)
    by (intros cat Hc; apply Hskip; now right).
  simpl. destruct (js_get (state c) category) eqn:Hg; [|now apply IH].
  destruct (nodes st !! script) as [node|] eqn:Hnode; [|now apply IH].
  destruct (String.eqb (script_type node) "text/plain"); [|now apply IH].
  assert (Hne : s <> script).
  { intros ->. rewrite Hskip in Hg by now left. discriminate. }
  assert (Hn' : (nodes st ++ [clone node])%list !! s = Some n)
    by now apply lookup_app_l_Some.
  destruct (existsb (Nat.eqb script) (document st)).
  - apply IH; [exact Hrest|]. split; simpl; [now apply replace_id_lookup | exact Hn'].
  - split; simpl; [exact Hd | exact Hn'].
Qed.

(** The defect in general: a script whose category a consent call does not
    grant is dropped from [blockedScripts] by that call, and no later call,
    whatever it grants, touches its element again. *)
Lemma ungranted_script_stays_blocked (st : State) (i s : nat) (n : Node)
    (now1 now2 : Z) (ok1 ok2 : bool) (cs1 cs2 : gmap string bool) :
  well_formed st ->
  holds st i s n ->
  (forall cat, (s, cat) ∈ blockedScripts st -> js_get cs1 cat = false) ->
  element (fst (saveConsent now2 ok2 cs2 (fst (saveConsent now1 ok1 cs1 st)))) i
  = Some n.
Proof.
  intros Hwf Hh Hskip.
  destruct (saveConsent_normal now1 ok1 cs1 st Hwf)
    as (gate & st1 & Hrun & _ & _ & _ & _ & Hb & _).
  assert (H1 : holds st1 i s n).
  { replace st1 with (fst (saveConsent now1 ok1 cs1 st)) by now rewrite Hrun.
    unfold saveConsent, applyConsent. cbv zeta.
    set (c := {| state := cs1; timestamp := now1; consent_version := version |}).
    destruct ok1; simpl;
      match goal with
      | |- context [unblock_each c ?es ?st0] =>
          pose proof (unblock_each_skips c es st0 i s n Hskip Hh) as Hloop;
          destruct (unblock_each c es st0) as [st' [|e]]; exact Hloop
      end. }
  rewrite Hrun. simpl.
  destruct (later_call_replaces_nothing now2 ok2 cs2 st1 Hb) as (Hn & Hd & _).
  apply element_holds. exists s. destruct H1 as [H1d H1n].
  split; [now rewrite Hd | now rewrite Hn].
Qed.

(** C1 on the failing input.  A marketing script is discovered and blocked;
    a first consent call grants analytics only, a second one grants
    marketing.  The first call empties [blockedScripts], so the second call
    has nothing to unblock: the script is still the blocked placeholder and
    nothing was ever replaced. *)
Theorem C1_later_grant_leaves_script_blocked :
  let st0 := discover marketing_script init_state in
  let st1 := fst (saveConsent 1 true analytics_only st0) in
  let st2 := fst (updateConsent 2 true accept_all_state st1) in
  is_blocked <$> element st0 0 = Some true
  /\ blockedScripts st0 = [(0, "marketing")]
  /\ blockedScripts st1 = []
  /\ consented st2 "marketing" = true
  /\ is_blocked <$> element st2 0 = Some true
  /\ replaced (trace st2) = [].
Proof. vm_compute. repeat split; reflexivity. Qed.

(** The same script is put into executable form when marketing is granted
    by the first consent call after its discovery. *)
Example first_grant_unblocks :
  let st0 := discover marketing_script init_state in
  let st1 := fst (saveConsent 1 true accept_all_state st0) in
  is_active <$> element st1 0 = Some true /\ replaced (trace st1) = [0].
Proof. vm_compute. split; reflexivity. Qed.




(** C6, as stated, fails: a decision supplied with [necessary] false is
    stored and persisted with [necessary] false. *)
Lemma C6_necessary_false_is_stored :
  let st := fst (updateConsent 1 true necessary_refused init_state) in
  getConsent st ≫= (fun o => o !! "necessary") = Some false
  /\ (state <$> localStorage st) ≫= (fun o => o !! "necessary") = Some false.
Proof. vm_compute. split; reflexivity. Qed.

(** C6, amended.  On every well-formed state a consent call is never
    rejected, whatever the decision says about [necessary]; the decision
    stored, persisted and applied is the object supplied, unchanged, so
    [necessary] is true in the persisted state exactly when the caller
    supplied it true, as [acceptAll] and [rejectAll] do.  Whatever is
    stored, the gate leaves an element marked [necessary] untouched. *)
Theorem C6_decision_stored_as_supplied (now : Z) (ok : bool)
    (cs : gmap string bool) (st : State) (Hwf : well_formed st) :
  exists st',
    updateConsent now ok cs st = (st', Normal)
    /\ getConsent st' = Some cs
    /\ (ok = true -> state <$> localStorage st' = Some cs)
    /\ (forall category, consented st' category = js_get cs category)
    /\ accept_all_state !! "necessary" = Some true
    /\ reject_all_state !! "necessary" = Some true
    /\ (forall script node,
          nodes st' !! script = Some node ->
          getAttribute (attributes node) "data-category" = Some "necessary" ->
          handleScript script st' = st').
Proof.
  destruct (saveConsent_normal now ok cs st Hwf)
    as (gate & st' & Hrun & _ & _ & Hc & Hl & _ & _).
  exists st'. split; [exact Hrun|].
  split; [unfold getConsent; now rewrite Hc|].
  split; [intros ->; now rewrite Hl|].
  split; [intros category; unfold consented; now rewrite Hc|].
  split; [reflexivity|]. split; [reflexivity|].
  intros script node Hnode Hattr. unfold handleScript. now rewrite Hnode, Hattr.
Qed.

Lemma C6_decision_stored_as_supplied_witness :
  exists st',
    updateConsent 1 true necessary_refused init_state = (st', Normal)
    /\ getConsent st' = Some necessary_refused.
Proof.
  destruct (C6_decision_stored_as_supplied 1 true necessary_refused init_state
              well_formed_init) as (st' & Hrun & Hc & _).
  exists st'. split; assumption.
Defined.

End CMPFacts.

(** ** The corpus index, the cache and the search *)

Module CorpusFacts.
Import PHP PHPFacts CookieDatabase CookieDatabaseFacts Corpus.

Lemma push_index_lookup (m : gmap string (list nat)) (k k' : string) (i : nat) :
  push_index m k i !! k' =
  if String.eqb k k' then Some (default [] (m !! k) ++ [i])%list else m !! k'.
Proof.
  unfold push_index. destruct (String.eqb_spec k k') as [->|NE].
  - apply lookup_insert_eq.
  - now apply lookup_insert_ne.
Qed.

Lemma index_cookie_byName (ix : Indexes) (i : nat) (c : Cookie) (n : string) :
  byName (index_cookie ix i c) !! n =
  if named n c then Some (default [] (byName ix !! n) ++ [i])%list
  else byName ix !! n.
Proof.
  unfold index_cookie, named.
  destruct (ck_isWildcard c); destruct (negb (empty _)); simpl;
    rewrite ?push_index_lookup; try reflexivity;
    now destruct (String.eqb_spec (strtolower (ck_name c)) n) as [<-|].
Qed.

Lemma index_cookie_byDomain (ix : Indexes) (i : nat) (c : Cookie) (d : string) :
  byDomain (index_cookie ix i c) !! d =
  if hosted_at d c then Some (default [] (byDomain ix !! d) ++ [i])%list
  else byDomain ix !! d.
Proof.
  unfold index_cookie, hosted_at.
  destruct (ck_isWildcard c); destruct (negb (empty _)); simpl;
    rewrite ?push_index_lookup; try reflexivity;
    now destruct (String.eqb_spec (strtolower (ck_domain c)) d) as [<-|].
Qed.

Lemma index_cookie_wildcards (ix : Indexes) (i : nat) (c : Cookie) :
  wildcards (index_cookie ix i c) =
  (wildcards ix ++ wildcard_entries i [c])%list.
Proof.
  unfold index_cookie. simpl.
  destruct (ck_isWildcard c); destruct (negb (empty _)); simpl;
    now rewrite ?app_nil_r.
Qed.

Lemma buildIndexes_from_lookup (proj : Indexes -> gmap string (list nat))
    (p : string -> Cookie -> bool) :
  (forall ix i c n,
     proj (index_cookie ix i c) !! n =
     if p n c then Some (default [] (proj ix !! n) ++ [i])%list else proj ix !! n) ->
  forall cs i ix n,
    proj (buildIndexes_from i cs ix) !! n =
    match positions (p n) i cs with
    | [] => proj ix !! n
    | l => Some (default [] (proj ix !! n) ++ l)%list
    end.
Proof.
  intros Hstep. induction cs as [|c cs IH]; intros i ix n; simpl; [reflexivity|].
  rewrite IH, Hstep. destruct (p n c); simpl.
  - destruct (positions (p n) (S i) cs); simpl; [reflexivity|].
    now rewrite <- app_assoc.
  - reflexivity.
Qed.

Lemma buildIndexes_from_wildcards (cs : list Cookie) (i : nat) (ix : Indexes) :
  wildcards (buildIndexes_from i cs ix) = (wildcards ix ++ wildcard_entries i cs)%list.
Proof.
  revert i ix. induction cs as [|c cs IH]; intros i ix; simpl.
  - now rewrite app_nil_r.
  - rewrite IH, index_cookie_wildcards. simpl.
    destruct (ck_isWildcard c); simpl; now rewrite <- ?app_assoc, ?app_nil_r.
Qed.

Lemma positions_elem {A : Type} (p : A -> bool) (l : list A) (i0 i : nat) :
  i ∈ positions p i0 l <->
  i0 <= i /\ exists x, l !! (i - i0) = Some x /\ p x = true.
Proof.
  revert i0. induction l as [|x l IH]; intros i0; simpl.
  - split; [intros H; now apply elem_of_nil in H|].
    intros (_ & y & Hy & _). discriminate.
  - assert (Htail : i ∈ positions p (S i0) l <->
                    i0 < i /\ exists y, l !! (i - S i0) = Some y /\ p y = true)
      by (rewrite IH; reflexivity).
    destruct (p x) eqn:Hp.
    + rewrite elem_of_cons, Htail. split.
      * intros [-> | (Hlt & y & Hy & Hpy)].
        -- split; [lia|]. exists x. rewrite Nat.sub_diag. now split.
        -- split; [lia|]. exists y. split; [|exact Hpy].
           replace (i - i0) with (S (i - S i0)) by lia. exact Hy.
      * intros (Hle & y & Hy & Hpy).
        destruct (Nat.eq_dec i i0) as [->|NE]; [now left|]. right.
        split; [lia|]. exists y. split; [|exact Hpy].
        replace (i - i0) with (S (i - S i0)) in Hy by lia. exact Hy.
    + rewrite Htail. split.
      * intros (Hlt & y & Hy & Hpy). split; [lia|]. exists y. split; [|exact Hpy].
        replace (i - i0) with (S (i - S i0)) by lia. exact Hy.
      * intros (Hle & y & Hy & Hpy).
        destruct (Nat.eq_dec i i0) as [->|NE].
        -- rewrite Nat.sub_diag in Hy. simpl in Hy. congruence.
        -- split; [lia|]. exists y. split; [|exact Hpy].
           replace (i - i0) with (S (i - S i0)) in Hy by lia. exact Hy.
Qed.

Lemma byName_buildIndexes (cs : list Cookie) (n : string) :
  byName (buildIndexes cs) !! n = filed (positions (named n) 0 cs).
Proof.
  unfold buildIndexes.
  rewrite (buildIndexes_from_lookup byName named index_cookie_byName).
  simpl. now destruct (positions (named n) 0 cs).
Qed.

Lemma byDomain_buildIndexes (cs : list Cookie) (d : string) :
  byDomain (buildIndexes cs) !! d = filed (positions (hosted_at d) 0 cs).
Proof.
  unfold buildIndexes.
  rewrite (buildIndexes_from_lookup byDomain hosted_at index_cookie_byDomain).
  simpl. now destruct (positions (hosted_at d) 0 cs).
Qed.

Lemma wildcards_buildIndexes (cs : list Cookie) :
  wildcards (buildIndexes cs) = wildcard_entries 0 cs.
Proof. unfold buildIndexes. now rewrite buildIndexes_from_wildcards. Qed.

(** X1.  [buildIndexes] files every record: under each lower-cased name the
    positions of the non-wildcard records of that name, under each
    lower-cased domain the positions of the records of that domain, both in
    file order, and the wildcard records apart, in file order, each with its
    lower-cased pattern and its position.  A key without a record is not
    set. *)
Theorem X1_buildIndexes_files_every_record (cs : list Cookie) :
  (forall n, byName (buildIndexes cs) !! n = filed (positions (named n) 0 cs))
  /\ (forall d, byDomain (buildIndexes cs) !! d = filed (positions (hosted_at d) 0 cs))
  /\ wildcards (buildIndexes cs) = wildcard_entries 0 cs
  /\ (forall p i, i ∈ positions p 0 cs <-> exists c : Cookie, cs !! i = Some c /\ p c = true).
Proof.
  split; [exact (byName_buildIndexes cs)|].
  split; [exact (byDomain_buildIndexes cs)|].
  split; [exact (wildcards_buildIndexes cs)|].
  intros p i. rewrite positions_elem, Nat.sub_0_r. split.
  - intros (_ & c & H). now exists c.
  - intros (c & H). split; [lia | now exists c].
Qed.












(** *** Wildcards, in general *)

Lemma at_dollar_spec (s : string) :
  Regex.at_dollar s = true <-> s = "" \/ s = String (ascii_of_nat 10) "".
Proof.
  unfold Regex.at_dollar. rewrite orb_true_iff, !String.eqb_eq. reflexivity.
Qed.

Lemma match_literal (l : list ascii) (s : string) :
  Regex.match_items (map (fun c => Regex.Item c false) l) s = true <->
  s = string_of_list_ascii l
  \/ s = string_of_list_ascii l ++ String (ascii_of_nat 10) "".
Proof.
  revert s. induction l as [|c l IH]; intros s; simpl.
  - apply at_dollar_spec.
  - destruct s as [|c' s]; [split; [discriminate | intros [H|H]; discriminate]|].
    rewrite andb_true_iff, Ascii.eqb_eq, IH.
    split.
    + intros [-> [-> | ->]]; [now left | now right].
    + intros [H|H]; injection H as -> ->; split; auto.
Qed.

Lemma lower_ascii_wildcard (c : ascii) :
  wildcard_item (lower_ascii c) =
  if Ascii.eqb c "*" || Ascii.eqb c "?" then wildcard_item c
  else Regex.Item (lower_ascii c) false.
Proof. destruct c as [[] [] [] [] [] [] [] []]; reflexivity. Qed.

Lemma literal_items (p : string) :
  forallb (fun c => negb (Ascii.eqb c "*" || Ascii.eqb c "?")) (list_ascii_of_string p) = true ->
  wildcard_items p =
  map (fun c => Regex.Item c false) (list_ascii_of_string (strtolower p)).
Proof.
  unfold wildcard_items. induction p as [|c p IH]; simpl; [reflexivity|].
  intros H. apply andb_prop in H as [Hc Hp]. rewrite IH by exact Hp.
  f_equal. rewrite lower_ascii_wildcard.
  apply negb_true_iff in Hc. now rewrite Hc.
Qed.

(** X4.  [wildcardMatch] compares the lower-cased name with the lower-cased
    pattern byte by byte, where a [*] of the pattern stands for any number
    of dots and a [?] for exactly one dot (both reach the regular expression
    escaped); the expression always compiles.  A pattern without [*] and [?]
    therefore matches the names equal to it up to letter case, and those
    followed by one final newline. *)
Theorem X4_wildcardMatch_semantics (name pattern : string) :
  wildcardMatch name pattern =
    Regex.match_items (wildcard_items pattern) (strtolower name)
  /\ (forallb (fun c => negb (Ascii.eqb c "*" || Ascii.eqb c "?"))
        (list_ascii_of_string pattern) = true ->
      (wildcardMatch name pattern = true <->
       strtolower name = strtolower pattern
       \/ strtolower name = strtolower pattern ++ String (ascii_of_nat 10) "")).
Proof.
  split; [apply wildcardMatch_items|].
  intros Hlit. rewrite wildcardMatch_items, literal_items by exact Hlit.
  rewrite match_literal. now rewrite string_of_list_ascii_of_string.
Qed.

(** *** Loading and failing *)

(** X5.  [categorize] throws in one situation only: nothing is loaded, the
    cache file is missing, and the download fails or the new cache cannot be
    written.  When it throws, the store and the object are left as they
    were. *)
Theorem X5_categorize_throws_only_without_cache parse (w : World)
    (database : option Database) (name domain : string) :
  ((exists e, fst (fst (categorize parse w database name domain)) = inl e) <->
   database = None /\ cacheFile w = Missing
   /\ (csv w = None \/ writable w = false))
  /\ (forall e w' database',
        categorize parse w database name domain = (inl e, w', database') ->
        w' = w /\ database' = database).
Proof.
  unfold categorize, loadDatabase, updateDatabase.
  destruct database as [db|]; simpl.
  { split; [|intros e w' d' [=]].
    split; [intros [e [=]] | intros ([=] & _)]. }
  destruct (cacheFile w) eqn:Hcache; simpl.
  - destruct (csv w) eqn:Hcsv; simpl.
    + destruct (writable w) eqn:Hwr; simpl.
      * split; [|intros e w' d' [=]].
        split; [intros [e [=]] | intros (_ & _ & [[=]|[=]])].
      * split; [|intros e w' d' [= _ <- <-]; now split].
        split; [intros _; auto | intros _; eauto].
    + split; [|intros e w' d' [= _ <- <-]; now split].
      split; [intros _; auto | intros _; eauto].
  - split; [|intros e w' d' [=]].
    split; [intros [e [=]] | intros (_ & [=] & _)].
  - split; [|intros e w' d' [=]].
    split; [intros [e [=]] | intros (_ & [=] & _)].
Qed.

(** X6.  A call of [categorize] that returns leaves the object in a state
    in which the same call returns the same result and changes nothing more:
    the database is loaded (or downloaded) at most once. *)
Theorem X6_categorize_is_idempotent parse (w : World) (database : option Database)
    (name domain : string) (r : Result) (w' : World) (database' : option Database)
    (Hcall : categorize parse w database name domain = (inr r, w', database')) :
  categorize parse w' database' name domain = (inr r, w', database').
Proof.
  unfold categorize, loadDatabase, updateDatabase in *.
  destruct database as [db|]; simpl in *.
  { injection Hcall as <- <- <-. reflexivity. }
  destruct (cacheFile w) as [| |db] eqn:Hcache; simpl in *.
  - destruct (csv w); [|discriminate].
    destruct (writable w); [|discriminate].
    injection Hcall as <- <- <-. reflexivity.
  - injection Hcall as <- <- <-. simpl. now rewrite Hcache.
  - injection Hcall as <- <- <-. reflexivity.
Qed.

Lemma X6_categorize_is_idempotent_witness :
  categorize no_rows sample_world (Some sample_database) "_fbp" "" =
  (inr (cookie_result ConfExact
          (Some (sample_cookie "_fbp" ".facebook.com" "marketing" false))),
   sample_world, Some sample_database).
Proof.
  apply (X6_categorize_is_idempotent no_rows sample_world None "_fbp" "").
  reflexivity.
Defined.

(** X7.  [updateDatabase] is all or nothing.  When it throws, the store and
    the object are unchanged.  When it returns, it returns true, never
    touches the overrides, and either changed nothing (the cache was fresh)
    or replaced cache and object together by the database parsed from the
    download, indexed by [buildIndexes] and stamped with the clock, which a
    new object then loads back from the cache unchanged. *)
Theorem X7_updateDatabase_all_or_nothing parse (forceRefresh : bool) (w : World)
    (database : option Database) :
  match updateDatabase parse forceRefresh w database with
  | (inl _, w', database') => w' = w /\ database' = database
  | (inr b, w', database') =>
      b = true /\ overridesFile w' = overridesFile w
      /\ ((w' = w /\ database' = database)
          \/ exists text db,
               csv w = Some text /\ database' = Some db
               /\ cacheFile w' = Content db
               /\ cookies db = parse text
               /\ indexes db = buildIndexes (cookies db)
               /\ lastUpdated db = Some (clock w)
               /\ total (stats db) = length (cookies db)
               /\ loadDatabase parse w' None = (inr true, w', Some db))
  end.
Proof.
  unfold updateDatabase.
  destruct (if negb forceRefresh && storage_exists (cacheFile w) then _ else false).
  { repeat split. now left. }
  destruct (csv w) as [text|]; [|now split].
  destruct (writable w); [|now split].
  repeat split. right. do 2 eexists. repeat split.
Qed.

(** X8.  The cache counts as fresh for seven days: with a cache stamped less
    than [week] seconds before the clock, [updateDatabase()] returns true
    without any download and without loading the object.  With an older
    cache, or with [forceRefresh], the download is needed, and when it fails
    the call throws although a cache exists. *)
Theorem X8_cache_is_fresh_for_a_week parse (w : World) (database : option Database)
    (db : Database) (t : Z)
    (Hcache : cacheFile w = Content db) (Hstamp : lastUpdated db = Some t) :
  ((clock w - t < week)%Z ->
   updateDatabase parse false w database = (inr true, w, database))
  /\ ((week <= clock w - t)%Z -> csv w = None ->
      updateDatabase parse false w database =
      (inl (Exception "Failed to download Open Cookie Database"), w, database))
  /\ (csv w = None ->
      updateDatabase parse true w database =
      (inl (Exception "Failed to download Open Cookie Database"), w, database)).
Proof.
  unfold updateDatabase. rewrite Hcache. simpl. rewrite Hstamp.
  split; [|split].
  - intros H. apply Z.ltb_lt in H. now rewrite H.
  - intros H Hcsv. apply Z.ltb_ge in H. now rewrite H, Hcsv.
  - intros Hcsv. now rewrite Hcsv.
Qed.

Lemma X8_cache_is_fresh_for_a_week_witness :
  updateDatabase no_rows false (cached_world sample_database 604799) None =
    (inr true, cached_world sample_database 604799, None)
  /\ updateDatabase no_rows false (cached_world sample_database 604800) None =
    (inl (Exception "Failed to download Open Cookie Database"),
     cached_world sample_database 604800, None).
Proof.
  split.
  - refine (proj1 (X8_cache_is_fresh_for_a_week no_rows
                     (cached_world sample_database 604799) None _ _ eq_refl eq_refl) _).
    reflexivity.
  - refine (proj1 (proj2 (X8_cache_is_fresh_for_a_week no_rows
                     (cached_world sample_database 604800) None _ _ eq_refl eq_refl)) _ _);
      [discriminate | reflexivity].
Defined.

(** *** Overrides *)

(** X9.  [addOverride] touches one key.  When the store cannot be written it
    throws and nothing changes.  Otherwise it returns true, the cache is
    untouched, the new entry is what [getOverrides] holds under the key, and
    every other key reads as before; an unreadable store counts as empty, so
    afterwards it holds the new entry alone. *)
Theorem X9_addOverride_touches_one_key (w : World)
    (name domain category reason : string) :
  let key := overrideKey (strtolower name) (strtolower domain) in
  let entry := {| ov_name := name; ov_domain := domain; ov_category := category;
                  ov_reason := reason; ov_timestamp := clock w |} in
  match addOverride w name domain category reason with
  | (inl _, w') => w' = w /\ writable w = false
  | (inr b, w') =>
      b = true /\ writable w = true /\ cacheFile w' = cacheFile w
      /\ getOverrides w' !! key = Some entry
      /\ (forall k, k <> key -> getOverrides w' !! k = getOverrides w !! k)
      /\ (overridesFile w = Unreadable -> getOverrides w' = {[key := entry]})
  end.
Proof.
  intros key entry.
  destruct (addOverride w name domain category reason) as [[e|b] w'] eqn:Hadd.
  - unfold addOverride in Hadd. destruct (writable w); [discriminate|].
    injection Hadd as _ <-. now split.
  - assert (Hb : b = true /\ writable w = true).
    { unfold addOverride in Hadd. destruct (writable w); [|discriminate].
      injection Hadd as <- _. now split. }
    destruct Hb as [-> Hwr].
    destruct (addOverride_ok _ _ _ _ _ _ Hadd) as [Hov Hc].
    fold key entry in Hov. rewrite Hov.
    repeat split; try assumption.
    + apply lookup_insert_eq.
    + intros k Hk. now apply lookup_insert_ne.
    + intros Hun. unfold getOverrides. now rewrite Hun.
Qed.

Lemma strtolower_app (a b : string) :
  strtolower (a ++ b) = strtolower a ++ strtolower b.
Proof.
  induction a as [|c a IH]; [reflexivity|].
  change (String (lower_ascii c) (strtolower (a ++ b)) =
          String (lower_ascii c) (strtolower a ++ strtolower b)).
  now rewrite IH.
Qed.

Lemma append_nil_r (a : string) : a ++ "" = a.
Proof.
  induction a as [|c a IH]; [reflexivity|].
  change (String c (a ++ "") = String c a). now rewrite IH.
Qed.

(** X10.  The override key joins name and domain with [@] and nothing keeps
    the two keys of different pairs apart: an override added for a name with
    a domain also answers, as an override, the lookup of the single name
    [name@domain] without a domain. *)
Theorem X10_override_key_is_ambiguous parse (w : World)
    (name domain category reason : string) (w1 : World) (db : Database)
    (Hdomain : truthy domain = true)
    (Hadd : addOverride w name domain category reason = (inr true, w1)) :
  exists r,
    categorize parse w1 (Some db) (name ++ "@" ++ domain) "" = (inr r, w1, Some db)
    /\ confidence r = ConfOverride /\ CookieDatabase.category r = Some category.
Proof.
  destruct (addOverride_ok _ _ _ _ _ _ Hadd) as [Hov _].
  exists {| CookieDatabase.category := Some category; confidence := ConfOverride;
            matched := MOverride
              {| ov_name := name; ov_domain := domain; ov_category := category;
                 ov_reason := reason; ov_timestamp := clock w |} |}.
  split; [|split; reflexivity].
  unfold categorize, loadDatabase. do 2 f_equal.
  unfold categorize_in. rewrite Hov.
  change (strtolower "") with "".
  unfold overrideKey at 1. change (truthy "") with false. cbv iota.
  rewrite append_nil_r, !strtolower_app.
  unfold overrideKey. rewrite truthy_strtolower, Hdomain.
  change (strtolower "@") with "@".
  now rewrite lookup_insert_eq.
Qed.

Lemma X10_override_key_is_ambiguous_witness :
  exists r,
    categorize no_rows overridden_world (Some sample_database)
      ("_fbp" ++ "@" ++ "Facebook.com") "" =
      (inr r, overridden_world, Some sample_database)
    /\ confidence r = ConfOverride /\ category r = Some "necessary".
Proof.
  apply (X10_override_key_is_ambiguous no_rows sample_world
           "_fbp" "Facebook.com" "necessary" "login"); reflexivity.
Defined.

(** *** normalizeCategory *)

Lemma is_trim_char_lower (c : ascii) : is_trim_char (lower_ascii c) = is_trim_char c.
Proof. destruct c as [[] [] [] [] [] [] [] []]; reflexivity. Qed.

Lemma ltrim_lower (s : string) : strtolower (ltrim s) = ltrim (strtolower s).
Proof.
  induction s as [|c s IH]; [reflexivity|]. simpl.
  rewrite is_trim_char_lower. now destruct (is_trim_char c).
Qed.

Lemma eqb_empty_lower (s : string) :
  String.eqb (strtolower s) "" = String.eqb s "".
Proof. now destruct s. Qed.

Lemma rtrim_lower (s : string) : strtolower (rtrim s) = rtrim (strtolower s).
Proof.
  induction s as [|c s IH]; [reflexivity|]. simpl.
  rewrite is_trim_char_lower, <- IH, eqb_empty_lower.
  now destruct (is_trim_char c && String.eqb (rtrim s) "").
Qed.

Lemma trim_lower (s : string) : strtolower (trim s) = trim (strtolower s).
Proof. unfold trim. now rewrite rtrim_lower, ltrim_lower. Qed.

Lemma exact_agrees_with_fuzzy (c v : string) :
  map_get categoryMap c = Some v -> fuzzy (strtolower c) categoryMap = Some v.
Proof.
  unfold categoryMap. cbn [map_get].
  repeat match goal with
         | |- context [String.eqb ?k c] =>
             destruct (String.eqb_spec k c) as [<-|_];
             [intros [= <-]; vm_compute; reflexivity|]
         end.
  discriminate.
Qed.

Lemma normalizeCategory_fuzzy (s : string) :
  normalizeCategory s =
  default "uncategorized" (fuzzy (strtolower (trim s)) categoryMap).
Proof.
  unfold normalizeCategory.
  destruct (map_get categoryMap (trim s)) as [v|] eqn:E.
  - now rewrite (exact_agrees_with_fuzzy _ _ E).
  - now destruct (fuzzy (strtolower (trim s)) categoryMap).
Qed.

Lemma fuzzy_value (l : string) (m : list (string * string)) (v : string) :
  fuzzy l m = Some v -> v ∈ (snd <$> m).
Proof.
  induction m as [|[k x] m IH]; simpl; [discriminate|].
  destruct (stripos_found l (strtolower k)).
  - intros [= <-]. now left.
  - intros H. right. now apply IH.
Qed.

(** X11.  [normalizeCategory] always answers one of the five categories,
    and its answer does not depend on letter case: two strings that agree
    once lower-cased are normalised alike (the exact table lookup never
    disagrees with the case-insensitive search that follows it). *)
Theorem X11_normalizeCategory_is_canonical :
  (forall s, normalizeCategory s ∈
             ["necessary"; "preferences"; "analytics"; "marketing"; "uncategorized"])
  /\ (forall s s', strtolower s = strtolower s' ->
                   normalizeCategory s = normalizeCategory s').
Proof.
  split.
  - intros s. rewrite normalizeCategory_fuzzy.
    destruct (fuzzy (strtolower (trim s)) categoryMap) as [v|] eqn:E; simpl.
    + apply fuzzy_value in E. simpl in E.
      repeat (apply elem_of_cons in E as [-> | E]; [set_solver|]).
      now apply elem_of_nil in E.
    + set_solver.
  - intros s s' H. rewrite !normalizeCategory_fuzzy, !trim_lower. now rewrite H.
Qed.

(** *** search *)

Lemma search_loop_eq (q : string) (limit : Z) (cs acc : list Cookie) :
  search_loop q limit cs acc =
  if (limit <=? Z.of_nat (length acc))%Z then acc
  else (acc ++ take (Z.to_nat limit - length acc) (List.filter (search_match q) cs))%list.
Proof.
  revert acc. induction cs as [|c cs IH]; intros acc; simpl.
  - destruct (limit <=? Z.of_nat (length acc))%Z; [reflexivity|].
    rewrite take_nil. symmetry. apply app_nil_r.
  - destruct (Z.leb_spec limit (Z.of_nat (length acc))) as [Hle|Hgt]; [reflexivity|].
    destruct (search_match q c).
    + rewrite IH, length_app. simpl.
      replace (Z.to_nat limit - length acc) with (S (Z.to_nat limit - (length acc + 1)))
        by lia.
      simpl. rewrite <- app_assoc. simpl.
      destruct (Z.leb_spec limit (Z.of_nat (length acc + 1))) as [Hle'|Hgt'];
        [|reflexivity].
      replace (Z.to_nat limit - (length acc + 1)) with 0 by lia. now rewrite take_0.
    + rewrite IH. destruct (Z.leb_spec limit (Z.of_nat (length acc))); [lia|].
      reflexivity.
Qed.

(** X12.  With the database loaded, [search] returns the first [limit]
    records, in corpus order, whose name, domain, description or platform
    contains the query, letter case ignored; an empty query, and the query
    ["0"], return nothing, and so does a limit of zero or less.  Nothing
    else changes. *)
Theorem X12_search_returns_first_matches parse (w : World) (db : Database)
    (query : string) (limit : Z) :
  search parse w (Some db) query limit =
  (inr (if empty query then []
        else take (Z.to_nat limit)
               (List.filter (search_match (strtolower query)) (cookies db))),
   w, Some db).
Proof.
  unfold search, loadDatabase. destruct (empty query); [reflexivity|].
  rewrite search_loop_eq. simpl.
  destruct (Z.leb_spec limit (Z.of_nat 0)) as [Hle|Hgt].
  - replace (Z.to_nat limit) with 0 by lia. reflexivity.
  - rewrite ?Nat.sub_0_r. reflexivity.
Qed.

(** *** Statistics of the corpus *)

Lemma sum_counts_bump (m : gmap string nat) (k : string) :
  sum_counts (<[k := S (default 0 (m !! k))]> m) = S (sum_counts m).
Proof.
  unfold sum_counts.
  assert (Hcomm : forall z1 z2 y : nat, z1 + (z2 + y) = z2 + (z1 + y))
    by (intros; lia).
  destruct (m !! k) as [v|] eqn:E; simpl.
  - rewrite <- (insert_delete_eq m k (S v)).
    rewrite map_fold_insert_L; [|intros; apply Hcomm | apply lookup_delete_eq].
    rewrite (map_fold_delete_L _ _ k v m); [|intros; apply Hcomm | exact E].
    reflexivity.
  - rewrite map_fold_insert_L; [|intros; apply Hcomm | exact E]. reflexivity.
Qed.

Lemma count_category_sum (cs : list Cookie) (m : gmap string nat) :
  sum_counts (fold_left count_category cs m) = sum_counts m + length cs.
Proof.
  revert m. induction cs as [|c cs IH]; intros m; simpl; [lia|].
  rewrite IH. unfold count_category. rewrite sum_counts_bump. lia.
Qed.

Lemma count_category_lookup (cs : list Cookie) (m : gmap string nat) (cat : string) :
  default 0 (fold_left count_category cs m !! cat) =
  default 0 (m !! cat)
  + length (List.filter (fun c => String.eqb (ck_category c) cat) cs).
Proof.
  revert m. induction cs as [|c cs IH]; intros m; simpl; [lia|].
  rewrite IH. unfold count_category.
  destruct (String.eqb_spec (ck_category c) cat) as [->|NE]; simpl.
  - rewrite lookup_insert_eq. simpl. lia.
  - now rewrite lookup_insert_ne.
Qed.

(** X13.  The statistics written with the cache add up: [total] is the
    number of records kept, each category counts the records of that
    category (a category without record has no counter), and the counters
    together give [total]. *)
Theorem X13_stats_add_up (cs : list Cookie) :
  total (build_stats cs) = length cs
  /\ (forall cat,
        default 0 (byCategory (build_stats cs) !! cat) =
        length (List.filter (fun c => String.eqb (ck_category c) cat) cs))
  /\ (forall cat, byCategory (build_stats cs) !! cat <> Some 0)
  /\ sum_counts (byCategory (build_stats cs)) = total (build_stats cs).
Proof.
  unfold build_stats. simpl. split; [reflexivity|]. split; [|split].
  - intros cat. now rewrite count_category_lookup, lookup_empty.
  - intros cat.
    assert (H : forall m : gmap string nat,
               m !! cat <> Some 0 -> fold_left count_category cs m !! cat <> Some 0).
    { induction cs as [|c cs IH]; intros m Hm; simpl; [exact Hm|].
      apply IH. unfold count_category.
      destruct (String.eqb_spec (ck_category c) cat) as [->|NE].
      - rewrite lookup_insert_eq. discriminate.
      - now rewrite lookup_insert_ne. }
    apply H. now rewrite lookup_empty.
  - rewrite count_category_sum. unfold sum_counts. now rewrite map_fold_empty.
Qed.

End CorpusFacts.

(** ** Reading the consent log; the consent endpoint *)

Module LogStoreFacts.
Import ConsentLogger ConsentLoggerFacts LogStore ConsentEndpoint.

Lemma sum_counts_bump_any {K : Type} `{Countable K} (m : gmap K nat) (k : K) :
  Corpus.sum_counts (<[k := S (default 0 (m !! k))]> m) = S (Corpus.sum_counts m).
Proof.
  unfold Corpus.sum_counts.
  assert (Hcomm : forall z1 z2 y : nat, z1 + (z2 + y) = z2 + (z1 + y))
    by (intros; lia).
  destruct (m !! k) as [v|] eqn:E; simpl.
  - rewrite <- (insert_delete_eq m k (S v)).
    rewrite map_fold_insert_L; [|intros; apply Hcomm | apply lookup_delete_eq].
    rewrite (map_fold_delete_L _ _ k v m); [|intros; apply Hcomm | exact E].
    reflexivity.
  - rewrite map_fold_insert_L; [|intros; apply Hcomm | exact E]. reflexivity.
Qed.

Lemma stats_step_tallies (cutoff : Z) (s : LogStats) (e : LogEntry) (n : nat) :
  tallies s n ->
  tallies (stats_step cutoff s e) (if in_period cutoff e then S n else n).
Proof.
  intros (Hn & Hsum & Hday). unfold stats_step, in_period.
  destruct ((0 <? cutoff)%Z && (timestamp e <? cutoff)%Z); simpl; [now repeat split|].
  repeat split; simpl.
  - now rewrite Hn.
  - destruct (allAccepted _); [lia|]. destruct (allRejected _); lia.
  - rewrite sum_counts_bump_any. now rewrite Hday.
Qed.

Lemma stats_fold_tallies (cutoff : Z) (logs : list LogEntry) (s : LogStats) (n : nat) :
  tallies s n ->
  tallies (fold_left (stats_step cutoff) logs s)
    (n + length (List.filter (in_period cutoff) logs)).
Proof.
  revert s n. induction logs as [|e logs IH]; intros s n H; simpl.
  - now rewrite Nat.add_0_r.
  - apply (stats_step_tallies cutoff s e) in H.
    apply IH in H. destruct (in_period cutoff e); simpl in *.
    + now replace (n + S (length (List.filter (in_period cutoff) logs)))
        with (S n + length (List.filter (in_period cutoff) logs)) by lia.
    + exact H.
Qed.

Lemma in_period_always (l : list LogEntry) : List.filter (in_period 0) l = l.
Proof. induction l as [|x l IH]; [reflexivity|]. simpl. now rewrite IH. Qed.

(** X14.  The counters of [getStats] add up.  Over a readable, non-empty log
    [total] is the number of entries inside the period, every counted entry
    is exactly one of accepted-all, rejected-all and customized, the per-day
    counters sum to [total], and a period of zero days or less counts the
    whole log. *)
Theorem X14_getStats_counts_add_up (w : World) (days : Z) (logs : list LogEntry)
    (Hlog : logFile w = Some logs) (Hne : logs <> []) :
  exists s,
    getStats w days = StatsOf s
    /\ total s = length (List.filter (in_period (cutoff_of w days)) logs)
    /\ total s = acceptedAll s + rejectedAll s + customized s
    /\ Corpus.sum_counts (byDay s) = total s
    /\ ((days <= 0)%Z -> total s = length logs).
Proof.
  unfold getStats. rewrite Hlog. destruct logs as [|e logs]; [congruence|].
  eexists. split; [reflexivity|].
  destruct (stats_fold_tallies (cutoff_of w days) (e :: logs) empty_stats 0)
    as (Hn & Hsum & Hday).
  { repeat split. }
  repeat split; try assumption.
  intros Hdays. rewrite Hn. simpl "+".
  unfold cutoff_of. destruct (Z.ltb_spec 0 days); [lia|].
  now rewrite in_period_always.
Qed.

Lemma X14_getStats_counts_add_up_witness :
  exists s,
    getStats
      {| logFile := Some [sample_entry 5 (JArr []); sample_entry 1699999000 reject_all];
         appendable := true; clock := 1700000000;
         REMOTE_ADDR := None; HTTP_USER_AGENT := None |} 30 = StatsOf s
    /\ total s = 1.
Proof.
  destruct (X14_getStats_counts_add_up
              {| logFile := Some [sample_entry 5 (JArr []);
                                  sample_entry 1699999000 reject_all];
                 appendable := true; clock := 1700000000;
                 REMOTE_ADDR := None; HTTP_USER_AGENT := None |} 30
              [sample_entry 5 (JArr []); sample_entry 1699999000 reject_all]
              eq_refl ltac:(discriminate)) as (s & Hs & Hn & _).
  exists s. split; [exact Hs | exact Hn].
Defined.

(** *** Reading lines *)

Lemma readLines_loop_eq {A : Type} (limit offset : Z) (lines : list (option A))
    (n : Z) (acc : list A) :
  ((0 < limit)%Z -> (Z.of_nat (length acc) < limit)%Z) ->
  readLines_loop limit offset n lines acc =
  (acc ++ (if (0 <? limit)%Z
           then take (Z.to_nat limit - length acc)
                  (omap id (drop (Z.to_nat (offset - n)) lines))
           else omap id (drop (Z.to_nat (offset - n)) lines)))%list.
Proof.
  revert n acc. induction lines as [|line lines IH]; intros n acc Hacc; simpl.
  - rewrite drop_nil. simpl. destruct (0 <? limit)%Z; now rewrite ?take_nil, app_nil_r.
  - destruct (Z.leb_spec offset n) as [Hle|Hgt].
    + replace (Z.to_nat (offset - n)) with 0 by lia. simpl.
      assert (Hnext : Z.to_nat (offset - (n + 1)) = 0) by lia.
      destruct line as [x|]; simpl.
      * rewrite length_app. simpl.
        destruct (Z.ltb_spec 0 limit) as [Hpos|Hnon]; simpl.
        -- specialize (Hacc Hpos).
           replace (Z.to_nat limit - length acc)
             with (S (Z.to_nat limit - (length acc + 1))) by lia.
           simpl.
           destruct (Z.leb_spec limit (Z.of_nat (length acc + 1))) as [Hfull|Hroom].
           ++ replace (Z.to_nat limit - (length acc + 1)) with 0 by lia.
              now rewrite take_0.
           ++ rewrite IH by (rewrite length_app; simpl; lia).
              rewrite Hnext. simpl.
              destruct (Z.ltb_spec 0 limit); [|lia].
              rewrite length_app. simpl. now rewrite <- app_assoc.
        -- rewrite IH by lia. rewrite Hnext. simpl.
           destruct (Z.ltb_spec 0 limit); [lia|]. now rewrite <- app_assoc.
      * rewrite IH by exact Hacc. now rewrite Hnext.
    + rewrite IH by exact Hacc.
      replace (Z.to_nat (offset - n)) with (S (Z.to_nat (offset - (n + 1)))) by lia.
      reflexivity.
Qed.

(** X15.  [getLogs] in closed form.  The offset counts raw lines of the
    file, blank and undecodable ones included, while the limit counts decoded
    entries; the window is cut from the start of the file, that is from the
    oldest entries, and only then reversed.  A limit of zero or less means no
    limit, a negative offset is offset zero, and a file that cannot be read
    gives the empty list. *)
Theorem X15_getLogs_window (file : option (list (option LogEntry)))
    (limit offset : Z) :
  getLogs file limit offset =
  match file with
  | None => []
  | Some lines =>
      let decoded := omap id (drop (Z.to_nat offset) lines) in
      rev (if (0 <? limit)%Z then take (Z.to_nat limit) decoded else decoded)
  end.
Proof.
  destruct file as [lines|]; [|reflexivity]. cbn zeta. unfold getLogs, readLines.
  rewrite readLines_loop_eq by (simpl; lia).
  simpl. now rewrite Z.sub_0_r, Nat.sub_0_r.
Qed.

(** *** Sessions *)

Lemma session_scan_spec (logs : list LogEntry) (sid : string) (i : nat) :
  i <= length logs ->
  match session_scan logs i sid with
  | Some e => exists pre post,
                take i logs = (pre ++ e :: post)%list /\ sessionId e = sid
                /\ Forall (fun x => sessionId x <> sid) post
  | None => Forall (fun x => sessionId x <> sid) (take i logs)
  end.
Proof.
  induction i as [|j IH]; intros Hi; simpl.
  - rewrite take_0. constructor.
  - destruct (logs !! j) as [e|] eqn:He.
    2: { apply lookup_ge_None in He. lia. }
    rewrite (take_S_r _ _ _ He).
    destruct (String.eqb_spec (sessionId e) sid) as [E|NE].
    + exists (take j logs), []. repeat split; [exact E | constructor].
    + specialize (IH ltac:(lia)).
      destruct (session_scan logs j sid) as [e'|].
      * destruct IH as (pre & post & Htake & Hsid & Hpost).
        exists pre, (post ++ [e])%list. rewrite Htake.
        split; [now rewrite <- app_assoc|]. split; [exact Hsid|].
        apply Forall_app. split; [exact Hpost | now repeat constructor].
      * apply Forall_app. split; [exact IH | now repeat constructor].
Qed.

(** X16.  [getSessionConsent] returns the latest entry of the session: the
    entry it returns carries the identifier and no entry after it does; it
    returns null exactly when no entry of the log carries the identifier. *)
Theorem X16_getSessionConsent_returns_latest (w : World) (logs : list LogEntry)
    (sid : string) (Hlog : logFile w = Some logs) :
  match getSessionConsent w sid with
  | Some e => exists pre post,
                logs = (pre ++ e :: post)%list /\ sessionId e = sid
                /\ Forall (fun x => sessionId x <> sid) post
  | None => Forall (fun x => sessionId x <> sid) logs
  end.
Proof.
  unfold getSessionConsent. rewrite Hlog.
  pose proof (session_scan_spec logs sid (length logs) (le_n _)) as H.
  now rewrite firstn_all in H.
Qed.

Lemma X16_getSessionConsent_returns_latest_witness :
  match getSessionConsent
          {| logFile := Some [sample_entry 1 reject_all; sample_entry 2 reject_all];
             appendable := true; clock := 3; REMOTE_ADDR := None;
             HTTP_USER_AGENT := None |}
          "0123456789abcdef0123456789abcdef" with
  | Some e =>
      exists pre post,
        [sample_entry 1 reject_all; sample_entry 2 reject_all] = (pre ++ e :: post)%list
        /\ sessionId e = "0123456789abcdef0123456789abcdef"
        /\ Forall (fun x => sessionId x <> "0123456789abcdef0123456789abcdef") post
  | None =>
      Forall (fun x => sessionId x <> "0123456789abcdef0123456789abcdef")
        [sample_entry 1 reject_all; sample_entry 2 reject_all]
  end.
Proof.
  apply (X16_getSessionConsent_returns_latest
           {| logFile := Some [sample_entry 1 reject_all; sample_entry 2 reject_all];
              appendable := true; clock := 3; REMOTE_ADDR := None;
              HTTP_USER_AGENT := None |}
           [sample_entry 1 reject_all; sample_entry 2 reject_all]
           "0123456789abcdef0123456789abcdef" eq_refl).
Defined.

Lemma session_scan_last (logs : list LogEntry) (e : LogEntry) :
  session_scan (logs ++ [e]) (length (logs ++ [e])) (sessionId e) = Some e.
Proof.
  rewrite length_app. simpl. rewrite Nat.add_1_r. simpl.
  rewrite list_lookup_middle by reflexivity. now rewrite String.eqb_refl.
Qed.

Lemma session_scan_none (logs : list LogEntry) (sid : string) (i : nat) :
  Forall (fun x => sessionId x <> sid) logs -> session_scan logs i sid = None.
Proof.
  intros H. induction i as [|j IH]; simpl; [reflexivity|].
  destruct (logs !! j) as [e|] eqn:He; [|exact IH].
  rewrite Forall_forall in H.
  specialize (H e (list_elem_of_lookup_2 _ _ _ He)).
  destruct (String.eqb_spec (sessionId e) sid); [contradiction | exact IH].
Qed.

(** X17.  Round trip between [log] and [getSessionConsent].  After a
    successful [log] with an identifier of 32 bytes or more, looking the
    identifier up returns the entry just written.  An identifier shorter
    than 32 bytes is never stored as given: when every stored identifier has
    32 bytes or more this still holds after the call, and looking the short
    identifier up finds nothing. *)
Theorem X17_session_round_trip (w : World) (logs : list LogEntry) (state : JVal)
    (sid wv pv : string) (md : gmap string string)
    (Hlog : logFile w = Some logs) (Happ : appendable w = true)
    (Hvalid : is_array state && truthy state = true) :
  let w' := snd (log w state sid wv pv md) in
  (32 <= PHP.strlen sid ->
   getSessionConsent w' sid = Some (make_entry w state sid wv pv md))
  /\ (Forall (fun e => 32 <= PHP.strlen (sessionId e)) logs ->
      (exists logs', logFile w' = Some logs'
                     /\ Forall (fun e => 32 <= PHP.strlen (sessionId e)) logs')
      /\ (PHP.strlen sid < 32 -> getSessionConsent w' sid = None)).
Proof.
  apply andb_prop in Hvalid as [Ha Ht].
  intros w'. subst w'. unfold log. rewrite Ha, Ht, Happ. simpl.
  unfold getSessionConsent, append_entry. simpl. rewrite Hlog. simpl.
  set (e := make_entry w state sid wv pv md).
  assert (Hlen : 32 <= PHP.strlen (sessionId e)).
  { unfold e, make_entry, logged_sessionId. simpl.
    destruct (Nat.ltb_spec (PHP.strlen sid) 32); [|assumption].
    unfold PHP.strlen. rewrite SHA256Facts.hash_sha256_length. lia. }
  split; [|intros Hall; split].
  - intros Hlong.
    assert (Hsid : sessionId e = sid).
    { unfold e, make_entry, logged_sessionId. simpl.
      destruct (Nat.ltb_spec (PHP.strlen sid) 32); [lia | reflexivity]. }
    pose proof (session_scan_last logs e) as H. rewrite Hsid in H. exact H.
  - eexists. split; [reflexivity|]. apply Forall_app. split; [exact Hall|].
    now repeat constructor.
  - intros Hshort. apply session_scan_none. apply Forall_app. split.
    + eapply Forall_impl; [exact Hall|]. intros x Hx E. cbv beta in Hx. rewrite E in Hx. lia.
    + repeat constructor. intros E. rewrite E in Hlen. lia.
Qed.

Lemma X17_session_round_trip_witness :
  getSessionConsent
    (snd (log sample_world reject_all "0123456789abcdef0123456789abcdef"
            "1.0.0" "1.0.0" ∅))
    "0123456789abcdef0123456789abcdef"
  = Some (make_entry sample_world reject_all "0123456789abcdef0123456789abcdef"
            "1.0.0" "1.0.0" ∅).
Proof.
  apply (X17_session_round_trip sample_world [] reject_all
           "0123456789abcdef0123456789abcdef" "1.0.0" "1.0.0" ∅
           eq_refl eq_refl eq_refl).
  vm_compute. lia.
Defined.

(** *** The endpoint *)


(** X18.  The endpoint [api/consent.php] answers 200, 405 or 500, and
    nothing at all to a preflight request.  It answers 405 exactly to a
    method other than POST, and 200 exactly when the method is POST, the body
    carries a session identifier and a consent state that is a non-empty
    array, and the log can be appended to.  A 200 means one entry was
    appended, stamped with the clock, with an identifier of at least 32 bytes
    and the site recorded in its metadata; any other answer leaves the log as
    it was. *)
Theorem X18_endpoint_stores_one_receipt_or_nothing (w : World) (method : string) (body : Body) :
  let r := handle w method body in
  (fst r = None <-> method = "OPTIONS")
  /\ (forall resp, fst r = Some resp ->
        (status resp = 200 \/ status resp = 405 \/ status resp = 500)
        /\ (status resp = 405 <-> method <> "POST")
        /\ (status resp = 200 <->
            method = "POST" /\ appendable w = true
            /\ exists state sid wv pv site jur,
                 body = Fields (Some state) (Some sid) wv pv site jur
                 /\ is_array state = true /\ truthy state = true)
        /\ (status resp = 200 ->
            exists e, snd r = append_entry w e
                      /\ timestamp e = clock w
                      /\ 32 <= PHP.strlen (sessionId e)
                      /\ metadata e !! "siteId" <> None)
        /\ (status resp <> 200 -> snd r = w)).
Proof.
  intros r. subst r. split.
  { unfold handle. destruct (String.eqb_spec method "OPTIONS") as [->|Hopt]; [tauto|].
    split; [|contradiction].
    destruct (negb _); [discriminate|]. destruct body as [|cs sid ? ? ? ?]; [discriminate|].
    destruct (isset cs); [|discriminate]. destruct sid; [|discriminate].
    now destruct (log _ _ _ _ _ _) as [[[[]|[]] ?] ?]. }
  unfold handle.
  destruct (String.eqb_spec method "OPTIONS") as [->|Hopt]; [discriminate|].
  destruct (String.eqb_spec method "POST") as [->|Hpost]; cbn [negb].
  2: { intros resp [= <-]. cbn. repeat split; try tauto; try discriminate; try lia. }
  destruct body as [|cs sid wv pv site jur].
  { intros resp [= <-]. cbn. repeat split; try tauto; try discriminate; try lia.
    - intros (_ & _ & state & sid & wv & pv & site & jur & H & _). discriminate. }
  assert (Hmiss : forall resp,
            Some (failure "Missing required fields") = Some resp ->
            (isset cs = None \/ sid = None) ->
            (status resp = 200 \/ status resp = 405 \/ status resp = 500)
            /\ (status resp = 405 <-> "POST" <> "POST")
            /\ (status resp = 200 <->
                "POST" = "POST" /\ appendable w = true
                /\ exists state sid0 wv0 pv0 site0 jur0,
                     Fields cs sid wv pv site jur
                     = Fields (Some state) (Some sid0) wv0 pv0 site0 jur0
                     /\ is_array state = true /\ truthy state = true)
            /\ (status resp = 200 ->
                exists e, w = append_entry w e /\ timestamp e = clock w
                          /\ 32 <= PHP.strlen (sessionId e)
                          /\ metadata e !! "siteId" <> None)
            /\ (status resp <> 200 -> w = w)).
  { intros resp [= <-] Hwhy. cbn. repeat split; try tauto; try discriminate; try lia.
    intros (_ & _ & state & sid0 & wv0 & pv0 & site0 & jur0 & [= -> ->] & Ha & _).
    destruct Hwhy as [H|H]; [|discriminate]. destruct state; discriminate. }
  destruct (isset cs) as [state|] eqn:Hcs; [|intros resp H; apply Hmiss; tauto].
  destruct sid as [sid|]; [|intros resp H; apply Hmiss; tauto].
  clear Hmiss.
  assert (cs = Some state) as ->.
  { destruct cs as [[]|]; simpl in Hcs; congruence. }
  unfold log.
  destruct (is_array state) eqn:Ha; cbn [negb orb].
  2: { intros resp [= <-]. cbn. repeat split; try tauto; try discriminate; try lia.
       intros (_ & _ & s' & ? & ? & ? & ? & ? & [= <-] & Ha' & _). congruence. }
  destruct (truthy state) eqn:Ht; cbn [negb].
  2: { intros resp [= <-]. cbn. repeat split; try tauto; try discriminate; try lia.
       intros (_ & _ & s' & ? & ? & ? & ? & ? & [= <-] & _ & Ht'). congruence. }
  destruct (appendable w) eqn:Happ.
  - intros resp [= <-]. cbn. repeat split; try tauto; try discriminate; try lia.
    + now exists state, sid, wv, pv, site, jur.
    + intros _. eexists. split; [reflexivity|]. split; [reflexivity|]. split.
      * cbn. unfold logged_sessionId.
        destruct (Nat.ltb_spec (PHP.strlen sid) 32); [|assumption].
        unfold PHP.strlen. rewrite SHA256Facts.hash_sha256_length. lia.
      * cbn. unfold merged_metadata.
        rewrite lookup_union_l'; rewrite lookup_insert_eq; [discriminate | eauto].
  - intros resp [= <-]. cbn. repeat split; try tauto; try discriminate; try lia.
Qed.

End LogStoreFacts.

(** ** The gate over whole runs, session identifiers, the preference center *)

Module WidgetFacts.
Import CMP CMPFacts Widget.

Lemma getAttribute_removeAttribute_ne (attrs : list (string * string)) (k k' : string) :
  k <> k' -> getAttribute (removeAttribute attrs k) k' = getAttribute attrs k'.
Proof.
  intros Hne. induction attrs as [|[a v] rest IH]; simpl; [reflexivity|].
  destruct (String.eqb_spec a k) as [->|Hak]; simpl.
  - rewrite IH. destruct (String.eqb_spec k k'); [contradiction | reflexivity].
  - now rewrite IH.
Qed.

Lemma getAttribute_removeAttribute_eq (attrs : list (string * string)) (k : string) :
  getAttribute (removeAttribute attrs k) k = None.
Proof.
  induction attrs as [|[a v] rest IH]; simpl; [reflexivity|].
  destruct (String.eqb_spec a k) as [->|Hak]; simpl; [exact IH|].
  destruct (String.eqb_spec a k); [contradiction | exact IH].
Qed.

Lemma handleScript_handled (script : nat) (st st' : State) (node' : Node)
    (category : string) :
  nodes st' !! script = Some node' ->
  getAttribute (attributes node') "data-category" = Some category ->
  consent st' = consent st ->
  (if consented st category
   then script_type node' <> "text/plain"
   else script_type node' = "text/plain") ->
  handleScript script st' = st'.
Proof.
  intros Hnode Hcat Hc Ht. unfold handleScript. rewrite Hnode, Hcat.
  destruct (String.eqb category ""); [reflexivity|].
  destruct (String.eqb category "necessary"); [reflexivity|].
  replace (consented st' category) with (consented st category)
    by (unfold consented; now rewrite Hc).
  destruct (consented st category); simpl.
  - destruct (String.eqb_spec (script_type node') "text/plain"); [contradiction|].
    reflexivity.
  - rewrite Ht. reflexivity.
Qed.

(** X19.  [handleScript] is idempotent: a script element that reaches it a
    second time (the initial query and the observer can both deliver it) is
    left as the first call left it, is not listed in [blockedScripts] again,
    and nothing more is written to the console. *)
Theorem X19_handleScript_is_idempotent (script : nat) (st : State) :
  handleScript script (handleScript script st) = handleScript script st.
Proof.
  unfold handleScript at 2 3.
  destruct (nodes st !! script) as [node|] eqn:Hnode.
  2: { unfold handleScript. now rewrite Hnode. }
  destruct (getAttribute (attributes node) "data-category") as [category|] eqn:Hcat.
  2: { unfold handleScript. now rewrite Hnode, Hcat. }
  destruct (String.eqb category "") eqn:He.
  { unfold handleScript. now rewrite Hnode, Hcat, He. }
  destruct (String.eqb category "necessary") eqn:Hn.
  { unfold handleScript. now rewrite Hnode, Hcat, He, Hn. }
  assert (Hlt : script < length (nodes st)) by (eapply lookup_lt_Some; eassumption).
  destruct (consented st category) eqn:Hcons; cbn [negb].
  - destruct (String.eqb (script_type node) "text/plain"
              && attr_truthy (getAttribute (attributes node) "data-blocked")) eqn:Hb.
    + eapply (handleScript_handled script st _ _ category).
      * cbn. apply list_lookup_insert_eq. exact Hlt.
      * cbn [attributes set_type].
        rewrite getAttribute_removeAttribute_ne by discriminate.
        rewrite getAttribute_setAttribute_ne by discriminate. exact Hcat.
      * reflexivity.
      * rewrite Hcons. unfold script_type. cbn [attributes set_type].
        rewrite getAttribute_removeAttribute_ne by discriminate.
        rewrite getAttribute_setAttribute_eq. discriminate.
    + unfold handleScript. rewrite Hnode, Hcat, He, Hn, Hcons. cbn [negb].
      now rewrite Hb.
  - destruct (String.eqb (script_type node) "text/plain") eqn:Ht; cbn [negb].
    + eapply (handleScript_handled script st _ _ category); eauto.
      rewrite Hcons. now apply String.eqb_eq.
    + eapply (handleScript_handled script st _ _ category).
      * cbn. apply list_lookup_insert_eq. exact Hlt.
      * cbn [attributes set_type textContent].
        rewrite !getAttribute_setAttribute_ne by discriminate. exact Hcat.
      * reflexivity.
      * rewrite Hcons. unfold script_type. cbn [attributes set_type].
        rewrite getAttribute_setAttribute_ne by discriminate.
        rewrite getAttribute_setAttribute_eq. reflexivity.
Qed.

(** *** The clone *)

Lemma setAttribute_fresh (attrs : list (string * string)) (k v : string) :
  k ∉ (fst <$> attrs) -> setAttribute attrs k v = (attrs ++ [(k, v)])%list.
Proof.
  induction attrs as [|[a w] rest IH]; simpl; intros Hk; [reflexivity|].
  rewrite not_elem_of_cons in Hk. destruct Hk as [Hne Hk]. simpl in Hne.
  destruct (String.eqb_spec a k) as [->|_]; [contradiction|].
  now rewrite IH.
Qed.

Lemma clone_fold (l acc : list (string * string)) :
  NoDup (fst <$> (acc ++ l)%list) ->
  fold_left
    (fun acc a =>
       if negb (String.eqb (fst a) "type") && negb (String.eqb (fst a) "data-blocked")
       then setAttribute acc (fst a) (snd a) else acc) l acc
  = (acc ++ List.filter kept l)%list.
Proof.
  revert acc. induction l as [|[k v] l IH]; intros acc Hnd; simpl.
  - now rewrite app_nil_r.
  - unfold kept at 1. simpl.
    assert (Hk : k ∉ (fst <$> acc)).
    { rewrite fmap_app, fmap_cons in Hnd. apply NoDup_app in Hnd as (_ & Hd & _).
      intros Hin. apply (Hd k Hin). now left. }
    assert (Hnd' : forall acc', (fst <$> acc') ⊆ (fst <$> acc) ->
                   NoDup (fst <$> acc') -> NoDup (fst <$> (acc' ++ l)%list)).
    { intros acc' Hsub Hnd1. rewrite fmap_app in *. rewrite fmap_cons in Hnd.
      apply NoDup_app in Hnd as (_ & Hd & Hl). apply NoDup_cons in Hl as [_ Hl].
      apply NoDup_app. repeat split; [exact Hnd1 | | exact Hl].
      intros x Hx Hx'. apply (Hd x (Hsub _ Hx)). now right. }
    destruct (negb (k =? "type") && negb (k =? "data-blocked")).
    + rewrite setAttribute_fresh by exact Hk. rewrite IH.
      * now rewrite <- app_assoc.
      * rewrite <- app_assoc. simpl. exact Hnd.
    + apply IH, Hnd'; [reflexivity|].
      rewrite fmap_app in Hnd. now apply NoDup_app in Hnd as (? & _).
Qed.

Lemma clone_attributes_filter (l : list (string * string)) :
  NoDup (fst <$> l) -> clone_attributes l = List.filter kept l.
Proof. intros H. unfold clone_attributes. now rewrite clone_fold. Qed.

Lemma filter_kept_setAttribute (l : list (string * string)) (k v : string) :
  kept (k, v) = false ->
  List.filter kept (setAttribute l k v) = List.filter kept l.
Proof.
  intros Hk. induction l as [|[a w] rest IH]; simpl.
  - now rewrite Hk.
  - destruct (String.eqb_spec a k) as [->|Hne]; simpl.
    + unfold kept in *. simpl in *. now rewrite Hk.
    + now rewrite IH.
Qed.

Lemma setAttribute_key_elem (l : list (string * string)) (k v x : string) :
  x ∈ (fst <$> setAttribute l k v) -> x = k \/ x ∈ (fst <$> l).
Proof.
  induction l as [|[a w] rest IH]; simpl.
  - intros H. apply list_elem_of_singleton in H. now left.
  - destruct (String.eqb_spec a k) as [->|Hne]; simpl; intros H.
    + now right.
    + apply elem_of_cons in H as [->|H]; [right; now left|].
      destruct (IH H) as [->|Hin]; [now left | right; now right].
Qed.

Lemma setAttribute_keys (l : list (string * string)) (k v : string) :
  NoDup (fst <$> l) -> NoDup (fst <$> setAttribute l k v).
Proof.
  induction l as [|[a w] rest IH]; simpl; intros Hnd.
  - apply NoDup_singleton.
  - apply NoDup_cons in Hnd as [Ha Hnd].
    destruct (String.eqb_spec a k) as [->|Hne]; simpl.
    + now apply NoDup_cons.
    + apply NoDup_cons. split; [|now apply IH].
      intros H. apply setAttribute_key_elem in H as [->|H]; [now apply Hne | contradiction].
Qed.

Lemma removeAttribute_filter (l : list (string * string)) :
  removeAttribute (removeAttribute l "type") "data-blocked" = List.filter kept l.
Proof.
  induction l as [|[a w] rest IH]; simpl; [reflexivity|].
  unfold kept at 1. simpl.
  destruct (String.eqb_spec a "type") as [->|Hne]; simpl; [exact IH|].
  destruct (String.eqb_spec a "data-blocked") as [->|Hne']; simpl; [exact IH|].
  now rewrite IH.
Qed.

Lemma filter_kept_all (l : list (string * string)) :
  getAttribute l "type" = None -> getAttribute l "data-blocked" = None ->
  List.filter kept l = l.
Proof.
  induction l as [|[a w] rest IH]; simpl; [reflexivity|]. unfold kept at 1. simpl.
  destruct (String.eqb_spec a "type"); [discriminate|].
  destruct (String.eqb_spec a "data-blocked"); [discriminate|].
  simpl. intros H1 H2. now rewrite IH.
Qed.

Lemma getAttribute_filter_kept (l : list (string * string)) (k : string) :
  getAttribute (List.filter kept l) k =
  if kept (k, "") then getAttribute l k else None.
Proof.
  induction l as [|[a w] rest IH]; simpl.
  - now destruct (kept _).
  - unfold kept at 1. simpl.
    destruct (String.eqb_spec a k) as [->|Hne].
    + unfold kept in *. simpl in *.
      destruct (negb (k =? "type") && negb (k =? "data-blocked")); simpl.
      * now rewrite String.eqb_refl.
      * exact IH.
    + destruct (negb (a =? "type") && negb (a =? "data-blocked")); simpl.
      * destruct (String.eqb_spec a k); [contradiction | exact IH].
      * exact IH.
Qed.

Lemma clone_blocked_form (m : Node) :
  NoDup (fst <$> attributes m) ->
  clone (blocked_form_of m) =
  {| attributes := removeAttribute (removeAttribute (attributes m) "type") "data-blocked";
     textContent := textContent m |}.
Proof.
  intros Hnd. unfold clone, blocked_form_of. cbn [attributes textContent].
  rewrite clone_attributes_filter by now do 2 apply setAttribute_keys.
  rewrite !filter_kept_setAttribute by reflexivity.
  now rewrite removeAttribute_filter.
Qed.

Lemma clone_is_active (n : Node) : is_active (clone n) = true.
Proof.
  assert (H : forall l acc, getAttribute acc "type" = None ->
            getAttribute
              (fold_left
                 (fun acc a =>
                    if negb (String.eqb (fst a) "type")
                       && negb (String.eqb (fst a) "data-blocked")
                    then setAttribute acc (fst a) (snd a) else acc) l acc) "type"
            = None).
  { induction l as [|[k v] l IH]; intros acc Hacc; simpl; [exact Hacc|].
    apply IH. destruct (String.eqb_spec k "type") as [->|Hne]; simpl; [exact Hacc|].
    destruct (negb _); [|exact Hacc].
    now rewrite getAttribute_setAttribute_ne. }
  unfold is_active, script_type, clone, clone_attributes. cbn [attributes].
  now rewrite H.
Qed.

Lemma replace_id_hit (old new : nat) (doc : list nat) (i : nat) :
  doc !! i = Some old -> replace_id old new doc !! i = Some new.
Proof.
  intros H. unfold replace_id. rewrite list_lookup_fmap, H. simpl.
  now rewrite Nat.eqb_refl.
Qed.

Lemma unblock_each_activates (c : Consent) (entries : list (nat * string))
    (st : State) (i s : nat) (n : Node) (X : string) :
  NoDup (fst <$> entries) ->
  (forall s, s ∈ (fst <$> entries) -> s ∈ document st) ->
  (forall s, s ∈ document st -> s < length (nodes st)) ->
  (s, X) ∈ entries -> js_get (state c) X = true ->
  holds st i s n -> script_type n = "text/plain" ->
  exists s', holds (fst (unblock_each c entries st)) i s' (clone n).
Proof.
  revert st. induction entries as [|[script category] rest IH];
    intros st Hnd Hin Hdoc Hel Hget [Hd Hn] Ht.
  - now apply elem_of_nil in Hel.
  - rewrite fmap_cons in Hnd, Hin. simpl in Hnd, Hin.
    apply NoDup_cons in Hnd as [Hfresh Hnd].
    assert (Hrest : forall s, s ∈ (fst <$> rest) -> s ∈ document st)
      by (intros x Hx; apply Hin; now right).
    assert (Hscript : script ∈ document st) by (apply Hin; now left).
    destruct (decide (script = s)) as [->|Hne].
    + assert (category = X) as ->.
      { apply elem_of_cons in Hel as [E|Hel]; [congruence|].
        exfalso. apply Hfresh. apply list_elem_of_fmap. now exists (s, X). }
      simpl. rewrite Hget, Hn, Ht. simpl.
      rewrite (proj2 (existsb_eqb_elem s (document st)) Hscript).
      exists (length (nodes st)). apply unblock_each_holds; [apply clone_is_active|].
      split; simpl.
      * now apply replace_id_hit.
      * apply list_lookup_middle. reflexivity.
    + assert (Hel' : (s, X) ∈ rest).
      { apply elem_of_cons in Hel as [E|Hel]; [congruence | exact Hel]. }
      simpl. destruct (js_get (state c) category); [|now apply IH].
      destruct (nodes st !! script) as [node|]; [|now apply IH].
      destruct (String.eqb (script_type node) "text/plain"); [|now apply IH].
      rewrite (proj2 (existsb_eqb_elem script (document st)) Hscript).
      apply IH; try assumption.
      * intros x Hx. simpl. apply replace_id_keeps; [now apply Hrest|].
        intros ->. contradiction.
      * intros x Hx. simpl in *. rewrite length_app. simpl.
        apply replace_id_elem in Hx as [->|Hx]; [lia|].
        specialize (Hdoc x Hx). lia.
      * split; simpl.
        -- apply replace_id_lookup; [exact Hd | congruence].
        -- now apply lookup_app_l_Some.
Qed.

Lemma discover_blocked_state (st : State) (m : Node) (X : string) :
  getAttribute (attributes m) "data-category" = Some X ->
  X <> "" -> X <> "necessary" -> is_active m = true -> consented st X = false ->
  discover m st =
  {| consent := consent st;
     blockedScripts := (blockedScripts st ++ [(length (nodes st), X)])%list;
     nodes := (nodes st ++ [blocked_form_of m])%list;
     document := (document st ++ [length (nodes st)])%list;
     localStorage := localStorage st;
     trace := (trace st ++ [ConsoleLog ("CMP: Blocked script " ++ X)])%list |}.
Proof.
  intros Hcat HX HXn Hact Hno. unfold discover, handleScript. cbn [nodes].
  rewrite list_lookup_middle by reflexivity. rewrite Hcat.
  destruct (String.eqb_spec X ""); [contradiction|].
  destruct (String.eqb_spec X "necessary"); [contradiction|].
  unfold consented in *. cbn [consent]. rewrite Hno. cbn [negb].
  unfold is_active in Hact. rewrite Hact.
  unfold emit, push_blocked, set_node, blocked_form_of, set_type. cbn.
  f_equal. rewrite insert_app_r_alt by lia. now rewrite Nat.sub_diag.
Qed.

(** X20.  Block, then grant.  A script with a non-necessary category that is
    inserted without consent becomes the placeholder ([type] set to
    [text/plain], [data-blocked] added, the rest untouched).  When the next
    consent call grants its category, its slot of the document holds a new
    element with the same text and the original attributes in their order,
    except [type] and [data-blocked], which the clone never carries: a
    script that had neither is restored exactly, one that had a [type] (a
    module script, say) comes back without it. *)
Theorem X20_grant_after_discovery_runs_original (st : State) (m : Node) (X : string)
    (now : Z) (ok : bool) (cs : gmap string bool)
    (Hwf : well_formed st)
    (Hcat : getAttribute (attributes m) "data-category" = Some X)
    (HX : X <> "") (HXn : X <> "necessary")
    (Hact : is_active m = true) (Hno : consented st X = false)
    (Hgrant : js_get cs X = true)
    (Hnd : NoDup (fst <$> attributes m)) :
  let slot := length (document st) in
  let st1 := discover m st in
  let st2 := fst (saveConsent now ok cs st1) in
  element st1 slot = Some (blocked_form_of m)
  /\ element st2 slot =
     Some {| attributes :=
               removeAttribute (removeAttribute (attributes m) "type") "data-blocked";
             textContent := textContent m |}
  /\ (getAttribute (attributes m) "type" = None ->
      getAttribute (attributes m) "data-blocked" = None ->
      element st2 slot = Some m).
Proof.
  intros slot st1 st2.
  pose proof (discover_well_formed m st Hwf) as Hwf1. fold st1 in Hwf1.
  assert (Hst1 := discover_blocked_state st m X Hcat HX HXn Hact Hno). fold st1 in Hst1.
  assert (Hh : holds st1 slot (length (nodes st)) (blocked_form_of m)).
  { rewrite Hst1. split; simpl; apply list_lookup_middle; reflexivity. }
  assert (H2 : element st2 slot = Some (clone (blocked_form_of m))).
  { apply element_holds. subst st2.
    destruct Hwf1 as (Hnd1 & Hin1 & Hdoc1).
    unfold saveConsent, applyConsent. cbv zeta.
    set (c := {| state := cs; timestamp := now; consent_version := version |}).
    assert (Hel : (length (nodes st), X) ∈ blockedScripts st1).
    { rewrite Hst1. simpl. apply elem_of_app. right. now left. }
    assert (Hty : script_type (blocked_form_of m) = "text/plain").
    { unfold script_type, blocked_form_of. simpl.
      rewrite getAttribute_setAttribute_ne by discriminate.
      now rewrite getAttribute_setAttribute_eq. }
    destruct ok; simpl;
      match goal with
      | |- context [unblock_each c ?es ?st0] =>
          destruct (unblock_each_activates c es st0 slot (length (nodes st))
                      (blocked_form_of m) X Hnd1 Hin1 Hdoc1 Hel Hgrant Hh Hty)
            as [s' Hloop];
          exists s'; destruct (unblock_each c es st0) as [st' [|e]]; exact Hloop
      end. }
  rewrite clone_blocked_form in H2 by exact Hnd.
  split; [|split].
  - apply element_holds. eexists. exact Hh.
  - exact H2.
  - intros Hty Hbl. rewrite H2. f_equal. destruct m as [attrs text]. simpl in *.
    f_equal. rewrite removeAttribute_filter. now apply filter_kept_all.
Qed.

Lemma X20_grant_after_discovery_runs_original_witness :
  element (fst (saveConsent 1 true accept_all_state (discover marketing_script init_state))) 0
  = Some marketing_script.
Proof.
  refine (proj2 (proj2 (X20_grant_after_discovery_runs_original init_state marketing_script
            "marketing" 1 true accept_all_state well_formed_init _ _ _ _ _ _ _)) _ _);
    try reflexivity; try discriminate.
  apply (bool_decide_unpack _). vm_compute. exact I.
Defined.

(** *** Placeholders written by the page author *)

Lemma discover_untouched (st : State) (m : Node) :
  script_type m = "text/plain" ->
  attr_truthy (getAttribute (attributes m) "data-blocked") = false ->
  discover m st =
  {| consent := consent st; blockedScripts := blockedScripts st;
     nodes := (nodes st ++ [m])%list;
     document := (document st ++ [length (nodes st)])%list;
     localStorage := localStorage st; trace := trace st |}.
Proof.
  intros Ht Hb. unfold discover, handleScript. cbn [nodes].
  rewrite list_lookup_middle by reflexivity.
  destruct (getAttribute (attributes m) "data-category") as [X|]; [|reflexivity].
  destruct (String.eqb X ""); [reflexivity|].
  destruct (String.eqb X "necessary"); [reflexivity|].
  rewrite Ht, Hb. simpl. now destruct (negb _).
Qed.

Lemma discover_blockedScripts (st : State) (n : Node) :
  blockedScripts (discover n st) = blockedScripts st
  \/ exists X, blockedScripts (discover n st)
               = (blockedScripts st ++ [(length (nodes st), X)])%list.
Proof.
  unfold discover, handleScript. cbn [nodes].
  rewrite list_lookup_middle by reflexivity.
  destruct (getAttribute (attributes n) "data-category") as [X|]; [|now left].
  destruct (String.eqb X ""); [now left|].
  destruct (String.eqb X "necessary"); [now left|].
  destruct (negb _).
  - destruct (negb _); [|now left]. right. now exists X.
  - destruct (_ && _); now left.
Qed.

Lemma saveConsent_skips (now : Z) (ok : bool) (cs : gmap string bool)
    (st : State) (i s : nat) (n : Node) :
  (forall cat, (s, cat) ∈ blockedScripts st -> js_get cs cat = false) ->
  holds st i s n -> holds (fst (saveConsent now ok cs st)) i s n.
Proof.
  intros Hskip Hh. unfold saveConsent, applyConsent. cbv zeta.
  set (c := {| state := cs; timestamp := now; consent_version := version |}).
  destruct ok; simpl;
    match goal with
    | |- context [unblock_each c ?es ?st0] =>
        pose proof (unblock_each_skips c es st0 i s n Hskip Hh) as Hloop;
        destruct (unblock_each c es st0) as [st' [|e]]; exact Hloop
    end.
Qed.

Lemma handleScript_inert (script : nat) (st : State) (n : Node) :
  nodes st !! script = Some n -> inert n -> handleScript script st = st.
Proof.
  intros Hn [Ht Hb]. unfold handleScript. rewrite Hn.
  destruct (getAttribute (attributes n) "data-category") as [X|]; [|reflexivity].
  destruct (String.eqb X ""); [reflexivity|].
  destruct (String.eqb X "necessary"); [reflexivity|].
  rewrite Ht, Hb. simpl. now destruct (negb _).
Qed.

Lemma handleScript_blockedScripts (script : nat) (st : State) :
  blockedScripts (handleScript script st) = blockedScripts st
  \/ exists X, blockedScripts (handleScript script st)
               = (blockedScripts st ++ [(script, X)])%list.
Proof.
  unfold handleScript.
  destruct (nodes st !! script) as [node|]; [|now left].
  destruct (getAttribute (attributes node) "data-category") as [X|]; [|now left].
  destruct (String.eqb X ""); [now left|].
  destruct (String.eqb X "necessary"); [now left|].
  destruct (negb _).
  - destruct (negb _); [|now left]. right. now exists X.
  - destruct (_ && _); now left.
Qed.

(** A script that is not listed keeps its element, as long as the gate is
    not handed that very script again, or cannot do anything to it. *)
Lemma unlisted_script_is_kept (es : list Event) (st : State) (i s : nat) (n : Node) :
  gate_invariant st -> holds st i s n -> s ∉ (fst <$> blockedScripts st) ->
  (forall st', nodes st' !! s = Some n -> handleScript s st' = st')
  \/ Forall (fun e => e <> Deliver s) es ->
  holds (fold_left step es st) i s n.
Proof.
  revert st. induction es as [|e es IH]; intros st Hinv Hh Hout Hquiet; [exact Hh|].
  assert (Hquiet' : (forall st', nodes st' !! s = Some n -> handleScript s st' = st')
                    \/ Forall (fun e => e <> Deliver s) es).
  { destruct Hquiet as [H|H]; [now left | right].
    now apply Forall_cons in H as [_ H]. }
  assert (Hsame : e = Deliver s -> step st e = st).
  { intros ->. destruct Hquiet as [H|H].
    - simpl. destruct (existsb _ _); [|reflexivity].
      apply H, Hh.
    - apply Forall_cons in H as [H _]. now contradiction H. }
  simpl. apply IH; [now apply step_gate_invariant | | | exact Hquiet'].
  - destruct e as [m | now ok cs | script]; simpl.
    + now apply discover_holds.
    + apply saveConsent_skips; [|exact Hh].
      intros cat Hc. exfalso. apply Hout. apply list_elem_of_fmap. now exists (s, cat).
    + destruct (decide (script = s)) as [->|Hne].
      * change (holds (step st (Deliver s)) i s n). now rewrite Hsame.
      * destruct (existsb _ _); [|exact Hh]. apply handleScript_holds; [congruence | exact Hh].
  - destruct e as [m | now ok cs | script]; simpl.
    + destruct (discover_blockedScripts st m) as [->|[X ->]]; [exact Hout|].
      rewrite fmap_app. simpl. intros H. apply elem_of_app in H as [H|H]; [contradiction|].
      apply list_elem_of_singleton in H. destruct Hh as [_ Hn].
      apply lookup_lt_Some in Hn. lia.
    + destruct (saveConsent_normal now ok cs st (proj1 Hinv)) as (gate & st' & -> & Hrest).
      simpl. destruct Hrest as (_ & _ & _ & _ & -> & _). apply not_elem_of_nil.
    + destruct (decide (script = s)) as [->|Hne].
      * change (s ∉ (fst <$> blockedScripts (step st (Deliver s)))). now rewrite Hsame.
      * destruct (existsb _ _); [|exact Hout].
        destruct (handleScript_blockedScripts script st) as [->|[X ->]]; [exact Hout|].
        rewrite fmap_app. simpl. intros H. apply elem_of_app in H as [H|H]; [contradiction|].
        apply list_elem_of_singleton in H. congruence.
Qed.

(** X21.  A script that is already of type [text/plain] when it is
    discovered and has no [data-blocked] attribute (the markup the README
    tells page authors to write) is not registered by the gate: it is not
    added to [blockedScripts], nothing is logged, and after any later
    discoveries, consent calls and deliveries by the observer, whatever is
    granted, its slot still holds the same inert element. *)
Theorem X21_authored_placeholder_is_never_activated (before after : list Event) (m : Node)
    (Htype : script_type m = "text/plain")
    (Hmark : attr_truthy (getAttribute (attributes m) "data-blocked") = false) :
  let st := run before in
  blockedScripts (discover m st) = blockedScripts st
  /\ trace (discover m st) = trace st
  /\ element (fold_left step after (discover m st)) (length (document st)) = Some m
  /\ is_active m = false.
Proof.
  intros st. pose proof (run_gate_invariant before) as Hinv. fold st in Hinv.
  pose proof (discover_untouched st m Htype Hmark) as Hd.
  split; [now rewrite Hd|]. split; [now rewrite Hd|]. split.
  - apply element_holds. exists (length (nodes st)).
    apply unlisted_script_is_kept.
    + now apply discover_gate_invariant.
    + rewrite Hd. split; simpl; apply list_lookup_middle; reflexivity.
    + rewrite Hd. simpl. intros H. destruct Hinv as [(_ & Hin & Hdoc) _].
      specialize (Hdoc _ (Hin _ H)). lia.
    + left. intros st' Hn. apply (handleScript_inert _ _ m Hn). now split.
  - unfold is_active. now rewrite Htype.
Qed.

Lemma X21_authored_placeholder_is_never_activated_witness :
  element
    (fold_left step
       [SaveConsent 2 true accept_all_state; Deliver 0;
        SaveConsent 3 true accept_all_state]
       (discover authored_placeholder (run [SaveConsent 1 true reject_all_state]))) 0
  = Some authored_placeholder.
Proof.
  exact (proj1 (proj2 (proj2 (X21_authored_placeholder_is_never_activated
           [SaveConsent 1 true reject_all_state]
           [SaveConsent 2 true accept_all_state; Deliver 0;
            SaveConsent 3 true accept_all_state]
           authored_placeholder eq_refl eq_refl)))).
Defined.

Lemma replace_id_elem_strict (old new : nat) (doc : list nat) (x : nat) :
  x ∈ replace_id old new doc -> x = new \/ (x ∈ doc /\ x <> old).
Proof.
  unfold replace_id. intros H. apply list_elem_of_fmap in H as (y & -> & Hy).
  destruct (Nat.eqb_spec y old) as [->|Hne]; [now left | right; now split].
Qed.

Lemma unblocks_stable (c : Consent) (st : State) (extra : list Node)
    (entries : list (nat * string)) :
  (forall s, s ∈ (fst <$> entries) -> s < length (nodes st)) ->
  forall st', nodes st' = (nodes st ++ extra)%list ->
  List.filter (unblocks c st') entries = List.filter (unblocks c st) entries.
Proof.
  intros Hlt st' Hn. apply List.filter_ext_in. intros [s cat] Hs.
  unfold unblocks. simpl. rewrite Hn.
  rewrite lookup_app_l; [reflexivity|].
  apply Hlt, list_elem_of_fmap. exists (s, cat).
  split; [reflexivity | now apply list_elem_of_In].
Qed.

Lemma unblock_each_document (c : Consent) (entries : list (nat * string)) (st : State) :
  NoDup (fst <$> entries) ->
  (forall s, s ∈ (fst <$> entries) -> s ∈ document st) ->
  (forall s, s ∈ document st -> s < length (nodes st)) ->
  let st' := fst (unblock_each c entries st) in
  length (nodes st) <= length (nodes st')
  /\ forall x, x ∈ document st' ->
       (x ∈ document st /\ x ∉ (fst <$> List.filter (unblocks c st) entries))
       \/ length (nodes st) <= x.
Proof.
  revert st. induction entries as [|[script category] rest IH];
    intros st Hnd Hin Hdoc.
  - simpl. split; [lia|]. intros x Hx. left. split; [exact Hx | apply not_elem_of_nil].
  - rewrite fmap_cons in Hnd, Hin. simpl in Hnd, Hin.
    apply NoDup_cons in Hnd as [Hfresh Hnd].
    assert (Hrest : forall s, s ∈ (fst <$> rest) -> s ∈ document st)
      by (intros s Hs; apply Hin; now right).
    assert (Hscript : script ∈ document st) by (apply Hin; now left).
    cbn [unblock_each List.filter]. unfold unblocks at 1. cbn [fst snd].
    destruct (js_get (state c) category); cbn [andb]; [|now apply IH].
    destruct (nodes st !! script) as [node|]; [|now apply IH].
    destruct (String.eqb (script_type node) "text/plain"); [|now apply IH].
    rewrite (proj2 (existsb_eqb_elem script (document st)) Hscript).
    match goal with |- context [unblock_each c rest ?s2] => set (st2 := s2) end.
    assert (Hin2 : forall s, s ∈ (fst <$> rest) -> s ∈ document st2).
    { intros s Hs. simpl. apply replace_id_keeps; [now apply Hrest|].
      intros ->. contradiction. }
    assert (Hdoc2 : forall s, s ∈ document st2 -> s < length (nodes st2)).
    { intros s Hs. simpl in *. rewrite length_app. simpl.
      apply replace_id_elem in Hs as [->|Hs]; [lia|].
      specialize (Hdoc s Hs). lia. }
    destruct (IH st2 Hnd Hin2 Hdoc2) as [Hlen Hx].
    assert (Hn2 : length (nodes st2) = S (length (nodes st))).
    { simpl. rewrite length_app. simpl. lia. }
    split; [lia|]. intros x Hxin.
    destruct (Hx x Hxin) as [[Hxd Hxf]|Hge]; [|right; lia].
    simpl in Hxd. apply replace_id_elem_strict in Hxd as [->|[Hxd Hne]]; [right; lia|].
    left. split; [exact Hxd|]. rewrite fmap_cons. cbn [fst].
    rewrite not_elem_of_cons. split; [exact Hne|].
    rewrite (unblocks_stable c st [clone node] rest) in Hxf; [exact Hxf | | reflexivity].
    intros s Hs. apply Hdoc, Hrest, Hs.
Qed.

Lemma filter_keys_NoDup (f : nat * string -> bool) (entries : list (nat * string)) :
  NoDup (fst <$> entries) -> NoDup (fst <$> List.filter f entries).
Proof.
  induction entries as [|e rest IH]; simpl; intros Hnd; [exact Hnd|].
  apply NoDup_cons in Hnd as [Hfresh Hnd].
  destruct (f e); simpl; [|now apply IH].
  apply NoDup_cons. split; [|now apply IH].
  intros H. apply Hfresh. apply list_elem_of_fmap in H as (y & -> & Hy).
  apply list_elem_of_fmap. exists y. split; [reflexivity|].
  apply list_elem_of_In. apply list_elem_of_In in Hy.
  apply List.filter_In in Hy. tauto.
Qed.

Lemma filter_keys_elem (f : nat * string -> bool) (entries : list (nat * string)) (s : nat) :
  s ∈ (fst <$> List.filter f entries) -> s ∈ (fst <$> entries).
Proof.
  intros H. apply list_elem_of_fmap in H as (y & -> & Hy).
  apply list_elem_of_fmap. exists y. split; [reflexivity|].
  apply list_elem_of_In. apply list_elem_of_In in Hy.
  apply List.filter_In in Hy. tauto.
Qed.

Lemma replaced_app (es es' : list Effect) :
  replaced (es ++ es') = (replaced es ++ replaced es')%list.
Proof. unfold replaced. apply omap_app. Qed.

Lemma saveConsent_replaced_once (now : Z) (ok : bool) (cs : gmap string bool)
    (st : State) :
  well_formed st -> replaced_once st ->
  replaced_once (fst (saveConsent now ok cs st)).
Proof.
  intros (Hnd & Hin & Hdoc) [Hrn Hrd].
  unfold saveConsent, applyConsent. cbv zeta.
  set (c := {| state := cs; timestamp := now; consent_version := version |}).
  assert (Hgen : forall st3 : State,
            nodes st3 = nodes st -> document st3 = document st ->
            replaced (trace st3) = replaced (trace st) ->
            forall st', unblock_each c (blockedScripts st) st3 = (st', Normal) ->
            replaced_once
              (emit [DispatchEvent "cmp:consent-changed" cs] (clear_blocked st'))).
  { intros st3 Hn3 Hd3 Hr3 st' Hrun.
    assert (Hin3 : forall s, s ∈ (fst <$> blockedScripts st) -> s ∈ document st3)
      by (rewrite Hd3; exact Hin).
    assert (Hdoc3 : forall s, s ∈ document st3 -> s < length (nodes st3))
      by (rewrite Hd3, Hn3; exact Hdoc).
    pose proof (unblock_each_replaced c _ st3 Hnd Hin3 Hdoc3) as Hrep.
    pose proof (unblock_each_document c _ st3 Hnd Hin3 Hdoc3) as [Hlen Hdocs].
    rewrite Hrun in *. cbn [fst] in *.
    unfold replaced_once. cbn [trace emit clear_blocked document nodes].
    rewrite replaced_app. cbn. rewrite app_nil_r, Hrep, Hr3.
    rewrite (unblocks_stable c st [] (blockedScripts st) (fun s Hs => Hdoc s (Hin s Hs)) st3)
      in * by (now rewrite app_nil_r).
    rewrite Hn3 in Hlen, Hdocs. rewrite Hd3 in Hdocs.
    split.
    - apply NoDup_app. repeat split; [exact Hrn | | now apply filter_keys_NoDup].
      intros s Hs Hs'. apply (proj1 (Hrd s Hs)). apply Hin.
      eapply filter_keys_elem. exact Hs'.
    - intros s Hs. apply elem_of_app in Hs as [Hs|Hs].
      + destruct (Hrd s Hs) as [Hout Hlt]. split; [|lia].
        intros Hx. destruct (Hdocs s Hx) as [[Hx' _]|Hge]; [contradiction | lia].
      + assert (Hlt : s < length (nodes st)).
        { apply Hdoc, Hin. eapply filter_keys_elem. exact Hs. }
        split; [|lia].
        intros Hx. destruct (Hdocs s Hx) as [[_ Hx']|Hge]; [contradiction | lia]. }
  destruct ok; simpl;
    match goal with
    | |- context [unblock_each c ?es ?s3] =>
        assert (Hr3 : replaced (trace s3) = replaced (trace st))
          by (cbn [trace emit]; rewrite !replaced_app; cbn; now rewrite !app_nil_r);
        destruct (unblock_each_normal c es s3 Hnd Hin Hdoc) as (gate & st' & Hrun & _);
        rewrite Hrun; exact (Hgen s3 eq_refl eq_refl Hr3 st' Hrun)
    end.
Qed.

Lemma discover_shape (n : Node) (st : State) :
  replaced (trace (discover n st)) = replaced (trace st)
  /\ document (discover n st) = (document st ++ [length (nodes st)])%list
  /\ length (nodes (discover n st)) = S (length (nodes st)).
Proof.
  unfold discover, handleScript. cbn [nodes].
  rewrite list_lookup_middle by reflexivity.
  assert (Hl : length (nodes st ++ [n])%list = S (length (nodes st)))
    by (rewrite length_app; simpl; lia).
  destruct (getAttribute (attributes n) "data-category") as [X|]; [|now repeat split].
  destruct (String.eqb X ""); [now repeat split|].
  destruct (String.eqb X "necessary"); [now repeat split|].
  destruct (negb _).
  - destruct (negb _); [|now repeat split].
    cbn. rewrite replaced_app. cbn. rewrite app_nil_r, length_insert. now repeat split.
  - destruct (_ && _); [|now repeat split].
    cbn. rewrite replaced_app. cbn. rewrite app_nil_r, length_insert. now repeat split.
Qed.

Lemma handleScript_shape (script : nat) (st : State) :
  replaced (trace (handleScript script st)) = replaced (trace st)
  /\ document (handleScript script st) = document st
  /\ length (nodes (handleScript script st)) = length (nodes st).
Proof.
  unfold handleScript.
  destruct (nodes st !! script) as [node|]; [|now repeat split].
  destruct (getAttribute (attributes node) "data-category") as [X|]; [|now repeat split].
  destruct (String.eqb X ""); [now repeat split|].
  destruct (String.eqb X "necessary"); [now repeat split|].
  destruct (negb _).
  - destruct (negb _); [|now repeat split].
    cbn. rewrite replaced_app. cbn. rewrite app_nil_r, length_insert. now repeat split.
  - destruct (_ && _); [|now repeat split].
    cbn. rewrite replaced_app. cbn. rewrite app_nil_r, length_insert. now repeat split.
Qed.

Lemma steps_replaced_once (es : list Event) (st : State) :
  gate_invariant st -> replaced_once st -> replaced_once (fold_left step es st).
Proof.
  revert st. induction es as [|e es IH]; intros st Hinv Hr; [exact Hr|].
  simpl. apply IH; [now apply step_gate_invariant|].
  destruct e as [n | now ok cs | script]; simpl.
  - destruct (discover_shape n st) as (Ht & Hd & Hl). destruct Hr as [Hrn Hrd].
    split; rewrite Ht; [exact Hrn|]. intros s Hs. destruct (Hrd s Hs) as [Hout Hlt].
    rewrite Hd, Hl. split; [|lia]. intros Hx. apply elem_of_app in Hx as [Hx|Hx];
      [contradiction|]. apply list_elem_of_singleton in Hx. lia.
  - apply saveConsent_replaced_once; [apply Hinv | exact Hr].
  - destruct (existsb _ _); [|exact Hr].
    destruct (handleScript_shape script st) as (Ht & Hd & Hl). destruct Hr as [Hrn Hrd].
    split; rewrite Ht; [exact Hrn|]. intros s Hs. rewrite Hd, Hl. now apply Hrd.
Qed.

(** X22.  On every page that discoveries, consent calls and deliveries by
    the observer can produce from a fresh CMP, no script is replaced twice, a replaced script is no longer
    in the document, and a consent call never ends in an exception. *)
Theorem X22_no_script_is_replaced_twice (es : list Event) :
  NoDup (replaced (trace (run es)))
  /\ (forall s, s ∈ replaced (trace (run es)) -> s ∉ document (run es))
  /\ (forall now ok cs, snd (saveConsent now ok cs (run es)) = Normal).
Proof.
  assert (H : replaced_once (run es)).
  { apply steps_replaced_once; [apply gate_invariant_init|].
    split; [apply NoDup_nil_2 | intros s Hs; now apply elem_of_nil in Hs]. }
  split; [apply H|]. split; [intros s Hs; now apply H|].
  intros now ok cs.
  destruct (saveConsent_normal now ok cs (run es) (run_well_formed es))
    as (gate & st' & -> & _). reflexivity.
Qed.

(** *** Order of activation *)

Lemma StronglySorted_snoc (l : list nat) (x : nat) :
  StronglySorted lt l -> (forall y, y ∈ l -> y < x) -> StronglySorted lt (l ++ [x]).
Proof.
  induction l as [|a l IH]; simpl; intros Hs Hlt.
  - repeat constructor.
  - apply StronglySorted_inv in Hs as [Hs Ha]. constructor.
    + apply IH; [exact Hs|]. intros y Hy. apply Hlt. now right.
    + apply Forall_app. split; [exact Ha|]. repeat constructor. apply Hlt. now left.
Qed.

Lemma steps_listed_in_order (es : list Event) (st : State) :
  Forall first_delivery es ->
  well_formed st -> listed_in_order st ->
  well_formed (fold_left step es st) /\ listed_in_order (fold_left step es st).
Proof.
  revert st. induction es as [|e es IH]; intros st Hes Hwf Hl; [now split|].
  apply Forall_cons in Hes as [He Hes].
  simpl. destruct e as [n | now ok cs | script]; [| |contradiction]; simpl.
  - apply IH; [exact Hes | now apply discover_well_formed|].
    destruct Hl as [Hs Hlt]. destruct (discover_shape n st) as (_ & _ & Hlen).
    unfold listed_in_order. rewrite Hlen.
    destruct (discover_blockedScripts st n) as [->|[X ->]].
    + split; [exact Hs|]. intros s Hin. specialize (Hlt s Hin). lia.
    + rewrite fmap_app. simpl. split.
      * now apply StronglySorted_snoc.
      * intros s Hin. apply elem_of_app in Hin as [Hin|Hin].
        -- specialize (Hlt s Hin). lia.
        -- apply list_elem_of_singleton in Hin. lia.
  - destruct (saveConsent_normal now ok cs st Hwf) as (gate & st' & Hrun & Hrest).
    rewrite Hrun. simpl. destruct Hrest as (_ & _ & _ & _ & Hb & Hwf').
    apply IH; [exact Hes | exact Hwf'|].
    unfold listed_in_order. rewrite Hb. simpl. split; [constructor|].
    intros s Hs. now apply elem_of_nil in Hs.
Qed.

Lemma filter_keys_sorted (f : nat * string -> bool) (entries : list (nat * string)) :
  StronglySorted lt (fst <$> entries) ->
  StronglySorted lt (fst <$> List.filter f entries).
Proof.
  induction entries as [|e rest IH]; simpl; intros Hs; [exact Hs|].
  apply StronglySorted_inv in Hs as [Hs He].
  destruct (f e); simpl; [|now apply IH].
  constructor; [now apply IH|].
  rewrite Forall_forall in *. intros y Hy. apply He. eapply filter_keys_elem. exact Hy.
Qed.

(** X23.  One consent call replaces exactly the listed scripts whose
    category it grants and whose element is still a placeholder, in the
    order of [blockedScripts], and the list is empty afterwards.  On a page
    reached by discoveries and consent calls alone, that order is the order
    in which the scripts were created. *)
Theorem X23_consent_call_activates_in_discovery_order (es : list Event) (now : Z)
    (ok : bool) (cs : gmap string bool) :
  let st := run es in
  let c := {| state := cs; timestamp := now; consent_version := version |} in
  let pass := fst <$> List.filter (unblocks c st) (blockedScripts st) in
  replaced (trace (fst (saveConsent now ok cs st))) = (replaced (trace st) ++ pass)%list
  /\ (Forall first_delivery es -> StronglySorted lt pass)
  /\ blockedScripts (fst (saveConsent now ok cs st)) = [].
Proof.
  intros st c pass.
  pose proof (run_well_formed es) as Hwf. fold st in Hwf.
  assert (Hord : Forall first_delivery es -> listed_in_order st).
  { intros Hes. apply steps_listed_in_order; [exact Hes | apply well_formed_init|].
    split; [constructor | intros s Hs; now apply elem_of_nil in Hs]. }
  split; [|split].
  - destruct Hwf as (Hnd & Hin & Hdoc).
    unfold saveConsent, applyConsent. cbv zeta. fold c.
    destruct ok; simpl;
      match goal with
      | |- context [unblock_each c ?es ?s3] =>
          pose proof (unblock_each_replaced c es s3 Hnd Hin Hdoc) as Hrep;
          destruct (unblock_each_normal c es s3 Hnd Hin Hdoc) as (gate & st' & Hrun & _);
          rewrite Hrun in *; cbn [fst trace emit clear_blocked] in *;
          rewrite !replaced_app in *; cbn in Hrep |- *;
          rewrite ?app_nil_r in *; rewrite Hrep; f_equal; subst pass; f_equal;
          apply (unblocks_stable c st [] (blockedScripts st)
                   (fun s Hs => Hdoc s (Hin s Hs)));
          cbn; now rewrite app_nil_r
      end.
  - intros Hes. apply filter_keys_sorted, Hord, Hes.
  - destruct (saveConsent_normal now ok cs st Hwf) as (gate & st' & -> & Hrest).
    apply Hrest.
Qed.

Lemma fill_length (t : string) (draws : nat -> nat) (k : nat) :
  String.length (fill t draws k) = String.length t.
Proof.
  revert k. induction t as [|c t IH]; intros k; cbn [fill String.length]; [reflexivity|].
  destruct (Ascii.eqb c "x" || Ascii.eqb c "y"); cbn [String.length]; now rewrite IH.
Qed.

Lemma fill_get_fixed (t : string) (draws : nat -> nat) (k i : nat) (c : ascii) :
  String.get i t = Some c -> Ascii.eqb c "x" || Ascii.eqb c "y" = false ->
  String.get i (fill t draws k) = Some c.
Proof.
  revert k i. induction t as [|a t IH]; intros k i Hget Hc; [discriminate|].
  destruct i as [|i]; cbn [fill String.get] in *.
  - injection Hget as ->. now rewrite Hc.
  - destruct (Ascii.eqb a "x" || Ascii.eqb a "y"); cbn [String.get]; now apply IH.
Qed.

Lemma fill_get_variant (t : string) (draws : nat -> nat) (k i : nat) :
  String.get i t = Some "y"%char ->
  exists r, r < 16 /\ String.get i (fill t draws k) = Some (id_digit "y" r).
Proof.
  revert k i. induction t as [|a t IH]; intros k i Hget; [discriminate|].
  destruct i as [|i]; cbn [fill String.get] in *.
  - injection Hget as ->. exists (draws k mod 16).
    split; [apply Nat.mod_upper_bound; lia | reflexivity].
  - destruct (Ascii.eqb a "x" || Ascii.eqb a "y"); cbn [String.get]; now apply IH.
Qed.

Lemma variant_digit (r : nat) :
  r < 16 -> In (id_digit "y" r) ["8"; "9"; "a"; "b"]%char.
Proof.
  intros H. do 16 (destruct r as [|r]; [vm_compute; tauto|]). lia.
Qed.

(** X24.  Whatever [Math.random] draws, [generateId] returns 36 characters
    with the hyphens of a UUID, the version digit 4 and a variant digit among
    8, 9, a and b.  Being 32 bytes or longer, the identifier is recorded by
    [ConsentLogger::log] as it is, without hashing; and [getSessionId]
    generates once: the next call returns the stored identifier. *)
Theorem X24_generated_session_id_is_logged_verbatim (draws : nat -> nat)
    (w : ConsentLogger.World) :
  String.length (generateId draws) = 36
  /\ String.get 14 (generateId draws) = Some "4"%char
  /\ (exists d, String.get 19 (generateId draws) = Some d
                /\ In d ["8"; "9"; "a"; "b"]%char)
  /\ (forall i, In i [8; 13; 18; 23] -> String.get i (generateId draws) = Some "-"%char)
  /\ ConsentLogger.logged_sessionId w (generateId draws) = generateId draws
  /\ forall draws',
       getSessionId draws' (snd (getSessionId draws None))
       = (generateId draws, Some (generateId draws)).
Proof.
  assert (Hlen : String.length (generateId draws) = 36)
    by (unfold generateId; now rewrite fill_length).
  split; [exact Hlen|]. split; [now apply fill_get_fixed|]. split.
  { destruct (fill_get_variant template draws 0 19 eq_refl) as (r & Hr & Hget).
    eexists. split; [exact Hget | now apply variant_digit]. }
  split.
  { intros i Hi. simpl in Hi.
    destruct Hi as [<-|[<-|[<-|[<-|[]]]]]; now apply fill_get_fixed. }
  split.
  { unfold ConsentLogger.logged_sessionId, PHP.strlen.
    destruct (Nat.ltb_spec (String.length (generateId draws)) 32); [lia | reflexivity]. }
  intros draws'. cbn [getSessionId snd]. 
  destruct (String.eqb_spec (generateId draws) "") as [E|_]; [|reflexivity].
  rewrite E in Hlen. discriminate.
Qed.

(** *** The preference center *)

Lemma discover_unblocked_state (st : State) (m : Node) (X : string) :
  getAttribute (attributes m) "data-category" = Some X ->
  is_active m = true -> consented st X = true ->
  discover m st =
  {| consent := consent st; blockedScripts := blockedScripts st;
     nodes := (nodes st ++ [m])%list;
     document := (document st ++ [length (nodes st)])%list;
     localStorage := localStorage st; trace := trace st |}.
Proof.
  intros Hcat Hact Hyes. unfold discover, handleScript. cbn [nodes].
  rewrite list_lookup_middle by reflexivity. rewrite Hcat.
  destruct (String.eqb X ""); [reflexivity|].
  destruct (String.eqb X "necessary"); [reflexivity|].
  unfold consented in *. cbn [consent]. rewrite Hyes. cbn [negb].
  unfold is_active in Hact. apply negb_true_iff in Hact. now rewrite Hact.
Qed.

(** X25.  The preference center edits the live consent object.  When a
    decision exists, [show] takes [CMP.getConsent()], which is the object
    [CMP.consent.state] itself, and a toggle writes into it.  So switching a
    refused category on, without saving, already changes what the gate sees:
    a script of that category discovered next is left executable where it
    would have been blocked, although nothing was stored, logged or
    announced, and a reload brings the stored decision back. *)
Theorem X25_unsaved_toggle_opens_the_gate (st : State) (c : Consent) (m : Node)
    (X : string)
    (Hc : consent st = Some c)
    (Hcat : getAttribute (attributes m) "data-category" = Some X)
    (HX : X <> "") (HXn : X <> "necessary")
    (Hact : is_active m = true) (Hno : consented st X = false) :
  let slot := length (document st) in
  let r := toggle X true (show st) st in
  fst r = CMPObject
  /\ getConsent (snd r) = Some (<[X := true]> (state c))
  /\ localStorage (snd r) = localStorage st
  /\ trace (snd r) = trace st
  /\ reload (snd r) = reload st
  /\ is_blocked <$> element (discover m st) slot = Some true
  /\ element (discover m (snd r)) slot = Some m
  /\ blockedScripts (discover m (snd r)) = blockedScripts st
  /\ trace (discover m (snd r)) = trace st.
Proof.
  intros slot r.
  set (st' :=
         {| consent := Some {| state := <[X := true]> (state c);
                               timestamp := timestamp c;
                               consent_version := consent_version c |};
            blockedScripts := blockedScripts st; nodes := nodes st;
            document := document st; localStorage := localStorage st;
            trace := trace st |}).
  assert (Hr : r = (CMPObject, st')).
  { subst r. unfold show, getConsent, toggle. now rewrite Hc. }
  rewrite Hr. cbn [fst snd].
  assert (Hyes : consented st' X = true).
  { unfold consented, st', js_get. cbn. now rewrite lookup_insert_eq. }
  pose proof (discover_unblocked_state st' m X Hcat Hact Hyes) as Hd.
  repeat split; try reflexivity.
  - rewrite (discover_blocked_state st m X Hcat HX HXn Hact Hno).
    unfold element. cbn [document nodes]. subst slot.
    rewrite list_lookup_middle by reflexivity. cbn.
    rewrite list_lookup_middle by reflexivity. cbn. f_equal.
    apply (blocked_form m).
  - rewrite Hd. unfold element. cbn [document nodes]. subst slot.
    rewrite list_lookup_middle by reflexivity. cbn.
    now rewrite list_lookup_middle by reflexivity.
  - now rewrite Hd.
  - now rewrite Hd.
Qed.

Lemma X25_unsaved_toggle_opens_the_gate_witness :
  let st := fst (rejectAll 1 true init_state) in
  element (discover marketing_script (snd (toggle "marketing" true (show st) st))) 0
  = Some marketing_script
  /\ localStorage (snd (toggle "marketing" true (show st) st)) = localStorage st.
Proof.
  pose proof (X25_unsaved_toggle_opens_the_gate (fst (rejectAll 1 true init_state))
                {| state := reject_all_state; timestamp := 1; consent_version := version |}
                marketing_script "marketing" eq_refl eq_refl
                ltac:(discriminate) ltac:(discriminate) eq_refl eq_refl) as H.
  cbv zeta in H. split; [apply H | apply H].
Defined.

(** *** Reloading *)

(** X27.  A decision survives a reload exactly when [localStorage.setItem]
    succeeded.  After a stored decision the banner is not shown again; after
    a failed write on a page without an earlier item the reloaded page has no
    decision, the banner is due again and Do Not Track, when respected,
    rejects everything anew.  [resetConsent] leaves no decision behind. *)
Theorem X27_decision_survives_reload_iff_stored (st : State) (now : Z) (ok : bool)
    (cs : gmap string bool) (Hwf : well_formed st) :
  let st' := reload (fst (saveConsent now ok cs st)) in
  getConsent st' = (if ok then Some cs else getConsent (reload st))
  /\ blockedScripts st' = [] /\ document st' = []
  /\ (ok = true ->
      forall respect dnt now' ok',
        shouldShowBanner respect dnt now' ok' st' = (Returned false, st'))
  /\ (ok = false -> localStorage st = None ->
      forall now' ok',
        shouldShowBanner false false now' ok' st' = (Returned true, st')
        /\ exists st'',
             shouldShowBanner true true now' ok' st' = (Returned false, st'')
             /\ getConsent st'' = Some reject_all_state)
  /\ getConsent (resetConsent (fst (saveConsent now ok cs st))) = None.
Proof.
  intros st'.
  destruct (saveConsent_normal now ok cs st Hwf)
    as (gate & st1 & Hrun & _ & _ & _ & Hls & _).
  subst st'. rewrite Hrun. cbn [fst].
  unfold reload, loadConsent. cbn [localStorage]. rewrite Hls.
  destruct ok.
  - repeat split; try reflexivity; try discriminate.
  - split; [|split; [|split; [|split; [|split]]]].
    + unfold getConsent. now destruct (localStorage st).
    + now destruct (localStorage st).
    + now destruct (localStorage st).
    + discriminate.
    + intros _ Hst now' ok'. rewrite Hst. split; [reflexivity|].
      unfold shouldShowBanner. cbn [consent andb].
      match goal with |- context [saveConsent now' ok' reject_all_state ?s] =>
        destruct (saveConsent_normal now' ok' reject_all_state s well_formed_init)
          as (gate' & st'' & Hrun' & _ & _ & Hc' & _)
      end.
      rewrite Hrun'. exists st''. split; [reflexivity|].
      unfold getConsent. now rewrite Hc'.
    + reflexivity.
Qed.

Lemma X27_decision_survives_reload_iff_stored_witness :
  getConsent (reload (fst (saveConsent 1 false accept_all_state init_state))) = None
  /\ getConsent (reload (fst (saveConsent 1 true accept_all_state init_state)))
     = Some accept_all_state.
Proof.
  split.
  - exact (proj1 (X27_decision_survives_reload_iff_stored init_state 1 false
                    accept_all_state well_formed_init)).
  - exact (proj1 (X27_decision_survives_reload_iff_stored init_state 1 true
                    accept_all_state well_formed_init)).
Defined.

(** X26.  A placeholder whose category a consent call does not grant is
    dropped from [blockedScripts] by that call.  From then on no discovery,
    no consent call, whatever it grants, and no delivery of another script
    changes its element: it stays the placeholder it was, unless the page
    inserts that very element again. *)
Theorem X26_ungranted_placeholder_is_left_behind (st : State) (i s : nat) (n : Node)
    (now : Z) (ok : bool) (cs : gmap string bool) (later : list Event)
    (Hwf : well_formed st) (Hh : holds st i s n)
    (Hplain : script_type n = "text/plain")
    (Hskip : forall cat, (s, cat) ∈ blockedScripts st -> js_get cs cat = false)
    (Hlater : Forall (fun e => e <> Deliver s) later) :
  blockedScripts (fst (saveConsent now ok cs st)) = []
  /\ element (fold_left step later (fst (saveConsent now ok cs st))) i = Some n
  /\ is_active n = false.
Proof.
  pose proof (saveConsent_skips now ok cs st i s n Hskip Hh) as H1.
  pose proof (saveConsent_gate_invariant now ok cs st Hwf) as Hinv.
  destruct (saveConsent_normal now ok cs st Hwf)
    as (gate & st1 & Hrun & _ & _ & _ & _ & Hb & _).
  rewrite Hrun in *. cbn [fst] in *. split; [exact Hb|]. split.
  - apply element_holds. exists s.
    apply unlisted_script_is_kept; [exact Hinv | exact H1 | | now right].
    rewrite Hb. apply not_elem_of_nil.
  - unfold is_active. now rewrite Hplain.
Qed.

Lemma X26_ungranted_placeholder_is_left_behind_witness :
  element
    (fold_left step
       [SaveConsent 2 true accept_all_state; Discover marketing_script; Deliver 1;
        SaveConsent 3 true accept_all_state]
       (fst (saveConsent 1 true analytics_only
               (discover marketing_script init_state)))) 0
  = Some (blocked_form_of marketing_script).
Proof.
  apply (X26_ungranted_placeholder_is_left_behind (discover marketing_script init_state)
           0 0 (blocked_form_of marketing_script) 1 true analytics_only).
  - apply discover_well_formed, well_formed_init.
  - split; reflexivity.
  - reflexivity.
  - intros cat H. vm_compute in H. apply list_elem_of_singleton in H.
    injection H as ->. reflexivity.
  - repeat constructor; discriminate.
Defined.

(** *** Elements in executable form *)

Lemma handleScript_ungated (script : nat) (st : State) (n : Node) :
  nodes st !! script = Some n -> ungated n -> handleScript script st = st.
Proof.
  intros Hn Hu. unfold handleScript, ungated in *. rewrite Hn.
  destruct (getAttribute (attributes n) "data-category") as [X|]; [|reflexivity].
  destruct Hu as [-> | ->]; reflexivity.
Qed.

Lemma handleScript_active_granted (script : nat) (st : State) (n : Node) (X : string) :
  nodes st !! script = Some n -> is_active n = true ->
  getAttribute (attributes n) "data-category" = Some X ->
  consented st X = true -> handleScript script st = st.
Proof.
  intros Hn Hact Hcat Hyes. unfold handleScript. rewrite Hn, Hcat.
  destruct (String.eqb X ""); [reflexivity|].
  destruct (String.eqb X "necessary"); [reflexivity|].
  rewrite Hyes. cbn [negb]. unfold is_active in Hact.
  apply negb_true_iff in Hact. now rewrite Hact.
Qed.

(** X28.  An element in executable form is not changed by consent calls,
    by discoveries or by the delivery of other elements, whatever is granted
    or revoked.  Only its own delivery to [handleScript] can change it, and
    that delivery does nothing when the element carries no category, an
    empty one or [necessary], or when its category is consented at the time
    of the delivery, as it is for a clone reported at the end of the task
    whose consent call made it. *)
Theorem X28_active_element_is_kept (before es : list Event) (i s : nat) (n : Node)
    (Hh : holds (run before) i s n) (Hact : is_active n = true)
    (Hes : ungated n \/ Forall (fun e => e <> Deliver s) es) :
  element (fold_left step es (run before)) i = Some n
  /\ (forall st X,
        nodes st !! s = Some n ->
        getAttribute (attributes n) "data-category" = Some X ->
        consented st X = true -> handleScript s st = st).
Proof.
  split.
  - pose proof (run_gate_invariant before) as Hinv.
    apply element_holds. exists s.
    apply unlisted_script_is_kept; [exact Hinv | exact Hh | |].
    + intros H. destruct Hh as [_ Hn].
      destruct (listed_is_placeholder _ s n (proj2 Hinv) Hn H) as [Ht _].
      unfold is_active in Hact. rewrite Ht in Hact. discriminate.
    + destruct Hes as [Hu|Hq]; [left | now right].
      intros st' Hn. now apply (handleScript_ungated s st' n).
  - intros st X Hn Hcat Hyes. now apply (handleScript_active_granted s st n X).
Qed.

Lemma X28_active_element_is_kept_witness :
  is_active <$>
    element
      (fold_left step
         [SaveConsent 2 true reject_all_state; Discover marketing_script;
          SaveConsent 3 true analytics_only]
         (run [Discover marketing_script; SaveConsent 1 true accept_all_state;
               Deliver 1])) 0
  = Some true.
Proof.
  rewrite (proj1 (X28_active_element_is_kept
                    [Discover marketing_script; SaveConsent 1 true accept_all_state;
                     Deliver 1]
                    [SaveConsent 2 true reject_all_state; Discover marketing_script;
                     SaveConsent 3 true analytics_only]
                    0 1 marketing_script
                    ltac:(split; reflexivity) eq_refl
                    ltac:(right; repeat constructor; discriminate))).
  reflexivity.
Defined.

End WidgetFacts.
